(** * UniversalCameraViewer: device enumeration, selection and thread teardown

    A shallow embedding of the four scripts of the repository
    ([asiofinder.py], [capture_app.py], [guiver/main.py], [other.py]) and the
    properties their description states about them.

    The external libraries (sounddevice, rtmixer, OpenCV, pygrabber, Qt) are
    black boxes: what they answer is an input of the model (device lists, the
    outcome of opening a capture backend, the lines typed by the user, the
    item picked in a dialog, the schedule of the threads). *)

From Stdlib Require Import List String Ascii ZArith Lia Bool Arith PeanoNat.
From Stdlib Require Import DecimalString DecimalNat Decimal.
From Stdlib Require Import Floats.
Import ListNotations.

Open Scope string_scope.
Open Scope list_scope.

(* ===================================================================== *)
(** * Python primitives used by the scripts *)
(* ===================================================================== *)

Module Py.

(** [str.lower()] on one character.  Device names are modelled as strings
    of 8-bit characters; only the letters [A]-[Z] have a lower-case form
    that is an ASCII letter, which is all the substring tests below look
    at. *)
Definition lower_ascii (c : ascii) : ascii :=
  let n := nat_of_ascii c in
  if ((65 <=? n) && (n <=? 90))%nat then ascii_of_nat (n + 32) else c.

(** [s.lower()] *)
Fixpoint lower (s : string) : string :=
  match s with
  | EmptyString => EmptyString
  | String c s' => String (lower_ascii c) (lower s')
  end.

(** The string holds ASCII characters only; [lower] is then exactly
    [str.lower()]. *)
Fixpoint is_ascii (s : string) : bool :=
  match s with
  | EmptyString => true
  | String c s' => (nat_of_ascii c <? 128)%nat && is_ascii s'
  end.

(** [sub in s] for strings: [sub] occurs in [s] as a contiguous run. *)
Fixpoint str_in (sub s : string) : bool :=
  match s with
  | EmptyString => String.prefix sub EmptyString
  | String _ s' => String.prefix sub s || str_in sub s'
  end.

(** [str(n)] for a non-negative integer: its decimal digits. *)
Definition str_of_nat (n : nat) : string :=
  NilZero.string_of_uint (Nat.to_uint n).

(** [int(s)] on a string of decimal digits.  [None] stands for
    [ValueError]; the scripts that use it only ever pass the digits
    produced by [str_of_nat]. *)
Definition int_of_str (s : string) : option nat :=
  match NilZero.uint_of_string s with
  | Some d => Some (Nat.of_uint d)
  | None => None
  end.

(** [s.split(sep)[0]]: the part of [s] before the first [sep], all of [s]
    when [sep] does not occur. *)
Fixpoint split_head (sep : ascii) (s : string) : string :=
  match s with
  | EmptyString => EmptyString
  | String c s' =>
      if Ascii.eqb c sep then EmptyString else String c (split_head sep s')
  end.

(** [l.index(x)]: the position of the first element equal to [x];
    [None] stands for [ValueError] ([x] is not in the list). *)
Section Index.
Context {A : Type} (eqb : A -> A -> bool).

Fixpoint index_from (i : nat) (x : A) (l : list A) : option nat :=
  match l with
  | [] => None
  | y :: l' => if eqb y x then Some i else index_from (S i) x l'
  end.

Definition index (l : list A) (x : A) : option nat := index_from 0 x l.
End Index.

(** [enumerate(l)] *)
Fixpoint enumerate_from {A : Type} (i : nat) (l : list A) : list (nat * A) :=
  match l with
  | [] => []
  | x :: l' => (i, x) :: enumerate_from (S i) l'
  end.

Definition enumerate {A : Type} (l : list A) : list (nat * A) :=
  enumerate_from 0 l.

End Py.

(* ===================================================================== *)
(** * Audio device records and the two filtering functions *)
(* ===================================================================== *)

(** One entry of [sd.query_devices()]: a dict with ten keys.  The scripts
    read ['name'], ['hostapi'] and ['max_input_channels']; capture_app also
    compares whole entries (in [list.index]).  ['index'] is the number of
    the device; the latencies and the sample rate are floats. *)
Record sd_device : Type := mk_sd_device {
  name : string;
  index : nat;
  hostapi : nat;
  max_input_channels : Z;
  max_output_channels : Z;
  default_low_input_latency : float;
  default_low_output_latency : float;
  default_high_input_latency : float;
  default_high_output_latency : float;
  default_samplerate : float
}.

(** Python's [==] on two such dicts (two objects, as two calls of
    [sd.query_devices()] return them): every key agrees.  Floats are
    compared as IEEE 754 does, so a NaN equals nothing, itself included. *)
Definition sd_device_eqb (a b : sd_device) : bool :=
  String.eqb (name a) (name b)
  && Nat.eqb (index a) (index b)
  && Nat.eqb (hostapi a) (hostapi b)
  && Z.eqb (max_input_channels a) (max_input_channels b)
  && Z.eqb (max_output_channels a) (max_output_channels b)
  && PrimFloat.eqb (default_low_input_latency a) (default_low_input_latency b)
  && PrimFloat.eqb (default_low_output_latency a) (default_low_output_latency b)
  && PrimFloat.eqb (default_high_input_latency a) (default_high_input_latency b)
  && PrimFloat.eqb (default_high_output_latency a) (default_high_output_latency b)
  && PrimFloat.eqb (default_samplerate a) (default_samplerate b).

(** What [sd.query_devices()] returns is an enumeration: the entry at
    position [i] is the device number [i]. *)
Definition enumeration (devices : list sd_device) : Prop :=
  forall i dev, nth_error devices i = Some dev -> index dev = i.

(** One entry of [sd.query_hostapis()]. *)
Record sd_hostapi : Type := mk_sd_hostapi {
  hostapi_name : string
}.

Module CaptureApp.

(** The condition of the [if] at capture_app.py:136.  The middle test
    reads [dev['name']] as it is, without [.lower()]. *)
Definition selected (dev : sd_device) : bool :=
  (0 <? max_input_channels dev)%Z
  && (Py.str_in "elgato" (Py.lower (name dev))
      || Py.str_in "avermedia" (name dev)
      || Py.str_in "evga" (Py.lower (name dev))).

(** The [for dev in devices] loop of [list_audio_input_devices_filtered],
    with its two accumulators. *)
Fixpoint filter_loop (devices : list sd_device)
         (filtered_devices : list sd_device) (filtered_names : list string)
  : list sd_device * list string :=
  match devices with
  | [] => (filtered_devices, filtered_names)
  | dev :: rest =>
      if selected dev
      then filter_loop rest (filtered_devices ++ [dev])
                       (filtered_names ++ [name dev])
      else filter_loop rest filtered_devices filtered_names
  end.

(** [list_audio_input_devices_filtered()] of capture_app.py, as a function
    of what [sd.query_devices()] returns (the lines it prints are part of
    the script model further down). *)
Definition list_audio_input_devices_filtered (devices : list sd_device)
  : list sd_device * list string :=
  let '(filtered_devices, filtered_names) := filter_loop devices [] [] in
  match filtered_devices with
  | [] => ([], [])
  | _ :: _ => (filtered_devices, filtered_names)
  end.

End CaptureApp.

Module Guiver.

(** The condition of the [if] at guiver/main.py:305-309. *)
Definition selected (dev : sd_device) : bool :=
  (0 <? max_input_channels dev)%Z
  && (Py.str_in "elgato" (Py.lower (name dev))
      || Py.str_in "avermedia" (Py.lower (name dev))
      || Py.str_in "evga" (Py.lower (name dev))).

(** [f"{dev['name']} ({api_name})"] *)
Definition display_name (dev_name api_name : string) : string :=
  (dev_name ++ " (" ++ api_name ++ ")")%string.

(** The [for i, dev in enumerate(devices)] loop of
    [list_audio_input_devices_filtered].  [None] stands for the
    [IndexError] of [hostapis[dev['hostapi']]]. *)
Fixpoint filter_loop (hostapis : list sd_hostapi)
         (devices : list (nat * sd_device))
         (filtered_devices : list sd_device) (filtered_names : list string)
         (filtered_indices : list nat)
  : option (list sd_device * list string * list nat) :=
  match devices with
  | [] => Some (filtered_devices, filtered_names, filtered_indices)
  | (i, dev) :: rest =>
      if selected dev
      then match nth_error hostapis (hostapi dev) with
           | Some h =>
               filter_loop hostapis rest
                 (filtered_devices ++ [dev])
                 (filtered_names ++ [display_name (name dev) (hostapi_name h)])
                 (filtered_indices ++ [i])
           | None => None
           end
      else filter_loop hostapis rest
             filtered_devices filtered_names filtered_indices
  end.

(** [list_audio_input_devices_filtered()] of guiver/main.py. *)
Definition list_audio_input_devices_filtered
           (devices : list sd_device) (hostapis : list sd_hostapi)
  : option (list sd_device * list string * list nat) :=
  filter_loop hostapis (Py.enumerate devices) [] [] [].

End Guiver.

(** What the description says both functions select: input devices whose
    name contains one of the three vendor names, whatever the case. *)
Definition spec_selected (dev : sd_device) : bool :=
  (0 <? max_input_channels dev)%Z
  && existsb (fun vendor => Py.str_in vendor (Py.lower (name dev)))
             ["elgato"; "avermedia"; "evga"].

(** Sample devices for the evaluations below. *)
Module Samples.

(** A device with the latencies and the sample rate of the samples. *)
Definition device (name : string) (index hostapi : nat)
           (max_input_channels max_output_channels : Z) : sd_device :=
  mk_sd_device name index hostapi max_input_channels max_output_channels
               0.0078125 0.0078125 0.03125 0.03125 48000.

Definition averMedia_card : sd_device :=
  device "AVerMedia Live Gamer HD 2" 0 0 2 0.

Definition twin : sd_device := device "Elgato Wave" 1 0 0 2.

Definition twin_in : sd_device := device "Elgato Wave" 2 0 2 0.

Definition evga_card : sd_device := device "EVGA XR1" 3 1 2 0.

Definition four_devices : list sd_device :=
  [averMedia_card; twin; twin_in; evga_card].

End Samples.

(* ===================================================================== *)
(** * capture_app.py: from the chosen row back to the global device index *)
(* ===================================================================== *)

Module CaptureAppIndex.

(** capture_app.py:175-176,
    [all_devices.index(audio_devices[audio_choice_index])].
    [None] stands for an exception ([IndexError] of the subscript or
    [ValueError] of [index]). *)
Definition audio_choice_device_index
           (all_devices audio_devices : list sd_device)
           (audio_choice_index : nat) : option nat :=
  match nth_error audio_devices audio_choice_index with
  | Some dev => Py.index sd_device_eqb all_devices dev
  | None => None
  end.

(** The positions, in the enumeration, of the devices the filter keeps:
    the k-th kept device sits at the k-th of these positions. *)
Fixpoint kept_positions_from (i : nat) (devices : list sd_device) : list nat :=
  match devices with
  | [] => []
  | dev :: rest =>
      if CaptureApp.selected dev
      then i :: kept_positions_from (S i) rest
      else kept_positions_from (S i) rest
  end.

Definition kept_positions (devices : list sd_device) : list nat :=
  kept_positions_from 0 devices.

End CaptureAppIndex.

(* ===================================================================== *)
(** * guiver/main.py: the rtmixer enumeration and the combined audio list *)
(* ===================================================================== *)

(** A member of the [rtmixer.Api] enumeration. *)
Record rt_api : Type := mk_rt_api {
  api_name : string
}.

(** What [mixer.get_device_info(i)] returns: the keys the script reads. *)
Record rt_info : Type := mk_rt_info {
  rt_name : string;
  inputChannels : Z
}.

(** The module that [import rtmixer] binds, as the script reads it.  [Api]
    is the attribute [rtmixer.Api]: its members, or [None] for a module that
    has no attribute of that name.  For a mixer opened on an API,
    [mixer_devices] are its devices in index order ([get_device_count()] is
    their number, [get_device_info(i)] the i-th). *)
Record rtmixer_module : Type := mk_rtmixer_module {
  Api : option (list rt_api);
  mixer_devices : rt_api -> list rt_info
}.

(** python-rtmixer, the package the script's warning names.  It offers
    [Mixer], [Recorder], [MixerAndRecorder] and [RingBuffer]; it has no
    [Api] and no [RtMixer]. *)
Definition python_rtmixer : rtmixer_module :=
  {| Api := None; mixer_devices := fun _ => [] |}.

(** How code that reads the rtmixer module ends: it returns a value, or it
    raises the [AttributeError] of a name the module does not have. *)
Inductive reading (A : Type) : Type :=
| Returns (a : A)
| AttributeError.

Arguments Returns {A} a.
Arguments AttributeError {A}.

Module GuiverAudio.

(** [get_rtmixer_api_by_name(name)]; [rtmixer = None] is the failed
    import.  On a module that was imported the loop header reads
    [rtmixer.Api]. *)
Definition get_rtmixer_api_by_name (rtmixer : option rtmixer_module)
           (nm : string) : reading (option rt_api) :=
  match rtmixer with
  | None => Returns None
  | Some m =>
      match Api m with
      | None => AttributeError
      | Some members =>
          Returns
            (find (fun api => String.eqb (Py.lower (api_name api)) (Py.lower nm))
                  members)
      end
  end.

(** The four lists [list_rtmixer_devices_by_apis] fills in step. *)
Record rt_lists : Type := mk_rt_lists {
  rt_devices : list rt_info;
  rt_names : list string;
  rt_indices : list nat;
  rt_apis : list rt_api
}.

Definition rt_empty : rt_lists := mk_rt_lists [] [] [] [].

(** The inner loop, [for i in range(mixer.get_device_count())]. *)
Fixpoint device_loop (api_nm : string) (api : rt_api)
         (infos : list (nat * rt_info)) (acc : rt_lists) : rt_lists :=
  match infos with
  | [] => acc
  | (i, info) :: rest =>
      if (0 <? inputChannels info)%Z
      then device_loop api_nm api rest
             (mk_rt_lists
                (rt_devices acc ++ [info])
                (rt_names acc ++ [Guiver.display_name (rt_name info) api_nm])
                (rt_indices acc ++ [i])
                (rt_apis acc ++ [api]))
      else device_loop api_nm api rest acc
  end.

(** The outer loop, [for api_name in preferred_api_names]; the exception
    of [get_rtmixer_api_by_name] is not caught. *)
Fixpoint api_loop (m : rtmixer_module) (preferred_api_names : list string)
         (acc : rt_lists) : reading rt_lists :=
  match preferred_api_names with
  | [] => Returns acc
  | api_nm :: rest =>
      match get_rtmixer_api_by_name (Some m) api_nm with
      | AttributeError => AttributeError
      | Returns None => api_loop m rest acc
      | Returns (Some api) =>
          api_loop m rest
            (device_loop api_nm api (Py.enumerate (mixer_devices m api)) acc)
      end
  end.

(** [list_rtmixer_devices_by_apis(preferred_api_names)] *)
Definition list_rtmixer_devices_by_apis (rtmixer : option rtmixer_module)
           (preferred_api_names : list string) : reading rt_lists :=
  match rtmixer with
  | None => Returns rt_empty
  | Some m => api_loop m preferred_api_names rt_empty
  end.

Definition preferred_api_names : list string :=
  ["ASIO"; "WASAPI"; "WDM-KS"; "DirectSound"].

(** The two loops of [main] that build [all_audio_names] and
    [device_source] (guiver/main.py:352-361). *)
Fixpoint mark_loop (names : list string) (suffix source : string)
         (all_audio_names device_source : list string)
  : list string * list string :=
  match names with
  | [] => (all_audio_names, device_source)
  | nm :: rest =>
      mark_loop rest suffix source
                (all_audio_names ++ [(nm ++ suffix)%string])
                (device_source ++ [source])
  end.

Definition combine_audio (rtmixer_names fallback_names : list string)
  : list string * list string :=
  let '(names1, source1) :=
    mark_loop rtmixer_names " [RtMixer]" "rtmixer" [] [] in
  mark_loop fallback_names " [SoundDevice]" "sounddevice" names1 source1.

(** [l[z]] for a Python integer [z]: a negative subscript counts from the
    end, [None] stands for [IndexError]. *)
Definition subscript {A : Type} (l : list A) (z : Z) : option A :=
  if (0 <=? z)%Z then nth_error l (Z.to_nat z)
  else if (- Z.of_nat (List.length l) <=? z)%Z
       then nth_error l (Z.to_nat (Z.of_nat (List.length l) + z))
       else None.

(** The audio thread object [main] builds. *)
Inductive audio_thread : Type :=
| AudioStreamRTMixer (device_index : nat) (api : rt_api)
| AudioStreamSD (device_index : nat).

(** guiver/main.py:369-375: the branch on [device_source[audio_choice]]. *)
Definition make_audio_thread (device_source : list string)
           (rtmixer_indices : list nat) (rtmixer_apis : list rt_api)
           (fallback_indices : list nat) (audio_choice : nat)
  : option audio_thread :=
  match nth_error device_source audio_choice with
  | None => None
  | Some src =>
      if String.eqb src "rtmixer"
      then match nth_error rtmixer_indices audio_choice,
                 nth_error rtmixer_apis audio_choice with
           | Some i, Some api => Some (AudioStreamRTMixer i api)
           | _, _ => None
           end
      else
        let fallback_index :=
          (Z.of_nat audio_choice - Z.of_nat (List.length rtmixer_indices))%Z in
        match subscript fallback_indices fallback_index with
        | Some i => Some (AudioStreamSD i)
        | None => None
        end
  end.

End GuiverAudio.

(** The rows of the rtmixer enumeration seen as one list: the device info,
    the preferred API name it was found under, its index in that API's
    mixer and the API member.  [lists_of_rows] splits such a list into the
    four parallel lists of the script. *)
Module RtRows.

Definition row : Type := (rt_info * string * nat * rt_api)%type.

Definition row_info (r : row) : rt_info := fst (fst (fst r)).
Definition row_api_name (r : row) : string := snd (fst (fst r)).
Definition row_index (r : row) : nat := snd (fst r).
Definition row_api (r : row) : rt_api := snd r.

Definition lists_of_rows (rows : list row) : GuiverAudio.rt_lists :=
  GuiverAudio.mk_rt_lists
    (map row_info rows)
    (map (fun r => Guiver.display_name (rt_name (row_info r)) (row_api_name r)) rows)
    (map row_index rows)
    (map row_api rows).

(** A row names a real input device of the mixer of its API. *)
Definition row_ok (m : rtmixer_module) (preferred : list string) (r : row) : Prop :=
  In (row_api_name r) preferred
  /\ GuiverAudio.get_rtmixer_api_by_name (Some m) (row_api_name r)
     = Returns (Some (row_api r))
  /\ nth_error (mixer_devices m (row_api r)) (row_index r) = Some (row_info r)
  /\ (0 < inputChannels (row_info r))%Z.

End RtRows.

(** A sample rtmixer module and host API table for the evaluations below. *)
Module RtSamples.

Definition wasapi : rt_api := mk_rt_api "wasapi".

Definition rtmixer : rtmixer_module :=
  {| Api := Some [mk_rt_api "asio"; wasapi];
     mixer_devices := fun api =>
       if String.eqb (api_name api) "wasapi"
       then [mk_rt_info "Speakers" 0; mk_rt_info "Line In" 2]
       else [] |}.

Definition hostapis : list sd_hostapi :=
  [mk_sd_hostapi "MME"; mk_sd_hostapi "Windows WASAPI"].

End RtSamples.

(* ===================================================================== *)
(** * What a run does: events, and code that can raise or exit *)
(* ===================================================================== *)

Inductive backend : Type := CAP_DSHOW | CAP_MSMF.

Inductive cap_prop : Type :=
| CAP_PROP_FRAME_WIDTH | CAP_PROP_FRAME_HEIGHT | CAP_PROP_FPS.

Inductive worker : Type := Video | Audio.

Inductive widget : Type := CaptureWindow | DebugWindow | TestCamera.

(** The actions of the scripts on the outside world, in program order. *)
Inductive event : Type :=
| Print (line : string)                 (* print(line) *)
| Input (prompt : string)               (* input(prompt) *)
| DebugLine (line : string)             (* debug.emit(line), append_message(line) *)
| Pixmap                                (* change_pixmap.emit(pixmap) *)
| Fps (text : string)                   (* fps_updated.emit(actual_fps) *)
| GetItem (items : list string)         (* QInputDialog.getItem(..., items, 0, False) *)
| Critical (title text : string)        (* QMessageBox.critical(..., title, text) *)
| QueryVideoDevices                     (* FilterGraph().get_input_devices() *)
| QueryDevices                          (* sd.query_devices() *)
| QueryHostapis                         (* sd.query_hostapis() *)
| QueryMixers                           (* the rtmixer enumeration *)
| QueryCameras                          (* QMediaDevices.videoInputs() *)
| CameraStart                           (* QCamera(cameras[0]).start() *)
| VideoCapture (index : nat) (b : backend)  (* cv2.VideoCapture(index, b) *)
| CapSet (p : cap_prop) (value : nat)   (* cap.set(p, value) *)
| CapRelease                            (* cap.release() *)
| StreamOpen (device : nat)             (* entering [with sd.Stream(...)] *)
| StreamClose                           (* leaving the [with] block *)
| MixerOpen (device : nat)              (* rtmixer.RtMixer(...) *)
| StartStream                           (* mixer.start_stream(callback) *)
| StopStream                            (* mixer.stop_stream() *)
| MixerClose                            (* mixer.close() *)
| Sleep                                 (* sd.sleep, time.sleep, msleep *)
| Start (w : worker)                    (* QThread.start() *)
| ClearRunning (w : worker)             (* self.running = False *)
| ThreadQuit (w : worker)               (* QThread.quit() *)
| Joined (w : worker)                   (* QThread.wait() has returned *)
| ShowWindow (wd : widget)              (* show() *)
| Exec                                  (* app.exec_() *)
| AppQuit                               (* QApplication.quit() *)
| Accept (wd : widget)                  (* event.accept() *)
| Exit (code : Z).                      (* sys.exit(code), or the script ends *)

(** How a piece of code ends. *)
Inductive outcome (A : Type) : Type :=
| Ret (a : A)                           (* it returns [a] *)
| Raise (exn : string)                  (* it raises an exception nobody catches *)
| SysExit (code : Z).                   (* it calls sys.exit(code) *)

Arguments Ret {A} a.
Arguments Raise {A} exn.
Arguments SysExit {A} code.

(** Code that acts on the world and then ends: the events it performed and
    its outcome. *)
Definition M (A : Type) : Type := (list event * outcome A)%type.

Definition ret {A : Type} (a : A) : M A := ([], Ret a).

Definition bind {A B : Type} (c : M A) (k : A -> M B) : M B :=
  match c with
  | (tr, Ret a) => let '(tr', r) := k a in (tr ++ tr', r)
  | (tr, Raise exn) => (tr, Raise exn)
  | (tr, SysExit code) => (tr, SysExit code)
  end.

Definition tell (e : event) : M unit := ([e], Ret tt).

Definition raise {A : Type} (exn : string) : M A := ([], Raise exn).

Definition sys_exit {A : Type} (code : Z) : M A := ([Exit code], SysExit code).

Declare Scope m_scope.
Delimit Scope m_scope with m.
Notation "x <- c ;; k" := (bind c (fun x => k))
  (at level 61, c at next level, right associativity) : m_scope.
Notation "c ;; k" := (bind c (fun _ => k))
  (at level 61, right associativity) : m_scope.
Notation "' p <- c ;; k" := (bind c (fun x => let 'p := x in k))
  (at level 61, p pattern, c at next level, right associativity) : m_scope.

Definition newline : string := String (ascii_of_nat 10) EmptyString.

(** [for i, name in enumerate(l): print(f"{i}: {name}")] and the list
    comprehension of the same shape. *)
Definition numbered (l : list string) : list string :=
  map (fun e => (Py.str_of_nat (fst e) ++ ": " ++ snd e)%string) (Py.enumerate l).

(* ===================================================================== *)
(** * The two selection prompts *)
(* ===================================================================== *)

Module Prompt.
Local Open Scope m_scope.

(** [prompt_selection(max_index, device_type)] of capture_app.py.
    [stdin] holds, for each line the user will type, what
    [int(input(...))] makes of it: [Some z], or [None] when [int] raises
    [ValueError].  The function returns the choice and the lines left;
    reading past the last line raises [EOFError], which the function does
    not catch. *)
Fixpoint prompt_selection (max_index : Z) (device_type : string)
         (stdin : list (option Z)) : M (Z * list (option Z)) :=
  match stdin with
  | [] =>
      tell (Input ("Select " ++ device_type ++ " device number: ")%string) ;;
      raise "EOFError"
  | Some choice :: rest =>
      tell (Input ("Select " ++ device_type ++ " device number: ")%string) ;;
      if ((0 <=? choice) && (choice <? max_index))%Z
      then ret (choice, rest)
      else
        tell (Print "Invalid selection. Please enter one of the listed numbers.") ;;
        prompt_selection max_index device_type rest
  | None :: rest =>
      tell (Input ("Select " ++ device_type ++ " device number: ")%string) ;;
      tell (Print "Invalid input. Please enter a number.") ;;
      prompt_selection max_index device_type rest
  end.

(** What [QInputDialog.getItem(None, title, label, items, 0, False)]
    returns for an answer of the user: [None] is a cancelled dialog
    ([ok] false, the text of the initial row), [Some k] an accepted dialog
    with row [k] current (the empty text when there is no such row). *)
Definition getItem (items : list string) (answer : option nat) : string * bool :=
  match answer with
  | None => (nth 0 items "", false)
  | Some k => (nth k items "", true)
  end.

(** [prompt_selection_gui(options, device_type)] of guiver/main.py. *)
Definition prompt_selection_gui (options : list string) (device_type : string)
           (answer : option nat) : M nat :=
  let items := numbered options in
  tell (GetItem items) ;;
  let '(item, ok) := getItem items answer in
  if ok && negb (String.eqb item "")
  then match Py.int_of_str (Py.split_head ":" item) with
       | Some i => ret i
       | None => raise "ValueError"
       end
  else
    tell (Critical "Error" ("No " ++ device_type ++ " device selected. Exiting.")%string) ;;
    sys_exit 1%Z.

(** A line the console prompt turns down: not a number, or out of range. *)
Definition turned_down (max_index : Z) (line : option Z) : Prop :=
  match line with
  | None => True
  | Some z => ~ (0 <= z < max_index)%Z
  end.

End Prompt.

(* ===================================================================== *)
(** * The worker threads *)
(* ===================================================================== *)

(** The applications that start worker threads: capture_app, and guiver/main
    with the audio thread class its [main] picked. *)
Inductive application : Type :=
| capture_app          (* capture_app.py: VideoThread, AudioStream *)
| guiver_sounddevice   (* guiver/main.py: VideoThread, AudioStreamSD *)
| guiver_rtmixer.      (* guiver/main.py: VideoThread, AudioStreamRTMixer *)

(** What a thread was created with. *)
Record launch : Type := mk_launch {
  launched : application;
  video_index : nat;      (* VideoThread(device_index) *)
  audio_index : nat;      (* the audio thread's device_index *)
  audio_api : string      (* AudioStreamRTMixer: api.name *)
}.

(** capture_app reports with [print], guiver/main through the debug
    console ([debug.emit] in a thread, [append_message] in the GUI). *)
Definition report (app : application) (line : string) : event :=
  match app with
  | capture_app => Print line
  | guiver_sounddevice | guiver_rtmixer => DebugLine line
  end.

(** What OpenCV answers to the video thread during one of its steps. *)
Record cv_answer : Type := mk_cv_answer {
  dshow_opens : bool;             (* isOpened() of VideoCapture(i, CAP_DSHOW) *)
  msmf_opens : bool;              (* isOpened() of VideoCapture(i, CAP_MSMF) *)
  prop_text : cap_prop -> string; (* str(cap.get(p)) *)
  cap_is_opened : bool;           (* cap.isOpened() in the loop test *)
  read_ret : bool;                (* ret of cap.read() *)
  fps_report : option (string * bool)
    (* guiver/main, when elapsed >= 1.0: actual_fps as text, actual_fps < 30 *)
}.

(** Where the video thread is in [VideoThread.run]. *)
Inductive video_pc : Type :=
| V_start       (* started, [run] not yet entered *)
| V_test        (* about to evaluate [self.running and cap.isOpened()] *)
| V_body        (* inside the loop body *)
| V_finished.   (* [run] has returned *)

Module VideoThread.

(** Lines 46-63 of capture_app.py, 143-163 of guiver/main.py: the two
    backend attempts and the requested format. *)
Definition open (l : launch) (cv : cv_answer) : list event * video_pc :=
  let app := launched l in
  let i := Py.str_of_nat (video_index l) in
  let first :=
    [report app ("Trying to open video device " ++ i ++ " with CAP_DSHOW...")%string;
     VideoCapture (video_index l) CAP_DSHOW] in
  let second :=
    if dshow_opens cv then []
    else [report app ("CAP_DSHOW failed, trying CAP_MSMF for device " ++ i ++ "...")%string;
          VideoCapture (video_index l) CAP_MSMF] in
  let is_opened := if dshow_opens cv then true else msmf_opens cv in
  if is_opened
  then (first ++ second ++
        [report app ("Camera device " ++ i ++ " opened successfully.")%string;
         CapSet CAP_PROP_FRAME_WIDTH 1920;
         CapSet CAP_PROP_FRAME_HEIGHT 1080;
         CapSet CAP_PROP_FPS 60;
         report app "Requested resolution and FPS:";
         report app ("  Width: " ++ prop_text cv CAP_PROP_FRAME_WIDTH)%string;
         report app ("  Height: " ++ prop_text cv CAP_PROP_FRAME_HEIGHT)%string;
         report app ("  FPS: " ++ prop_text cv CAP_PROP_FPS)%string],
        V_test)
  else (first ++ second ++
        [report app ("Failed to open camera device " ++ i
                     ++ " with both CAP_DSHOW and CAP_MSMF.")%string],
        V_finished).

(** The loop test, [while self.running and cap.isOpened()], and what
    follows the loop when it fails. *)
Definition test (l : launch) (running : bool) (cv : cv_answer)
  : list event * video_pc :=
  if running && cap_is_opened cv
  then ([], V_body)
  else ([CapRelease; report (launched l) "Video thread stopped and camera released."],
        V_finished).

(** The FPS bookkeeping of guiver/main.py:174-184; capture_app has none. *)
Definition fps_events (l : launch) (cv : cv_answer) : list event :=
  match launched l, fps_report cv with
  | capture_app, _ => []
  | _, None => []
  | _, Some (text, low) =>
      Fps text ::
      (if low then [DebugLine ("Warning: Low FPS detected: " ++ text)%string] else [])
  end.

(** One pass through the loop body. *)
Definition body (l : launch) (cv : cv_answer) : list event * video_pc :=
  if read_ret cv
  then (fps_events l cv ++ [Pixmap], V_test)
  else ([Sleep], V_test).

(** One step of [VideoThread.run]; [running] is the value of
    [self.running] the step reads. *)
Definition step (l : launch) (running : bool) (cv : cv_answer) (pc : video_pc)
  : list event * video_pc :=
  match pc with
  | V_start => open l cv
  | V_test => test l running cv
  | V_body => body l cv
  | V_finished => ([], V_finished)
  end.

End VideoThread.

(** What the audio library answers to the audio thread during a step. *)
Record audio_answer : Type := mk_audio_answer {
  rtmixer_is_none : bool;         (* the import of rtmixer failed *)
  open_error : option string;     (* sd.Stream(...) or RtMixer(...) raises *)
  start_error : option string;    (* mixer.start_stream(...) raises *)
  exit_error : option string      (* leaving the [with] block raises *)
}.

(** Where the audio thread is in its [run]. *)
Inductive audio_pc : Type :=
| A_start       (* started, [run] not yet entered *)
| A_made        (* AudioStreamRTMixer: self.mixer assigned, stream not started *)
| A_loop        (* about to evaluate the loop test *)
| A_finished.   (* [run] has returned *)

(** The audio state the threads share. *)
Record audio_shared : Type := mk_audio_shared {
  mixer_set : bool;     (* AudioStreamRTMixer: self.mixer is not None *)
  stream_on : bool      (* the stream is open (sounddevice) or running (rtmixer) *)
}.

Module AudioThread.

Definition starting (l : launch) : string :=
  let i := Py.str_of_nat (audio_index l) in
  match launched l with
  | capture_app =>
      "Starting audio stream on device index " ++ i ++ "..."
  | guiver_sounddevice =>
      "Starting sounddevice audio stream on device index " ++ i
      ++ " with low latency..."
  | guiver_rtmixer =>
      "Starting RTMixer audio stream on device index " ++ i
      ++ " with API " ++ audio_api l ++ "..."
  end.

Definition started (app : application) : string :=
  match app with
  | capture_app => "Audio stream started successfully."
  | guiver_sounddevice => "Sounddevice audio stream started successfully."
  | guiver_rtmixer => "RTMixer audio stream started successfully."
  end.

Definition stream_error (app : application) (e : string) : string :=
  match app with
  | capture_app => "Audio stream error: " ++ e
  | guiver_sounddevice => "Sounddevice audio stream error: " ++ e
  | guiver_rtmixer => "RTMixer audio stream error: " ++ e
  end.

(** One step of [AudioStream.run] / [AudioStreamSD.run]: the stream lives
    inside the [with] block, so it is closed before [run] returns. *)
Definition step_sounddevice (l : launch) (running : bool) (au : audio_answer)
           (pc : audio_pc) (sh : audio_shared)
  : list event * audio_pc * audio_shared :=
  let app := launched l in
  match pc with
  | A_start =>
      match open_error au with
      | Some e =>
          ([report app (starting l); report app (stream_error app e)],
           A_finished, sh)
      | None =>
          ([report app (starting l); StreamOpen (audio_index l);
            report app (started app)],
           A_loop, mk_audio_shared (mixer_set sh) true)
      end
  | A_made => ([], A_finished, sh)
  | A_loop =>
      if running
      then ([Sleep], A_loop, sh)
      else (StreamClose ::
            match exit_error au with
            | Some e => [report app (stream_error app e)]
            | None => []
            end,
            A_finished, mk_audio_shared (mixer_set sh) false)
  | A_finished => ([], A_finished, sh)
  end.

(** One step of [AudioStreamRTMixer.run]: nothing in [run] stops or closes
    the mixer, that is left to [stop]. *)
Definition step_rtmixer (l : launch) (running : bool) (au : audio_answer)
           (pc : audio_pc) (sh : audio_shared)
  : list event * audio_pc * audio_shared :=
  match pc with
  | A_start =>
      if rtmixer_is_none au
      then ([DebugLine "python-rtmixer not installed! Cannot start RTMixer audio stream."],
            A_finished, sh)
      else match open_error au with
           | Some e =>
               ([DebugLine (starting l);
                 DebugLine (stream_error guiver_rtmixer e)],
                A_finished, sh)
           | None =>
               ([DebugLine (starting l); MixerOpen (audio_index l)],
                A_made, mk_audio_shared true (stream_on sh))
           end
  | A_made =>
      match start_error au with
      | Some e => ([DebugLine (stream_error guiver_rtmixer e)], A_finished, sh)
      | None =>
          ([StartStream; DebugLine (started guiver_rtmixer)],
           A_loop, mk_audio_shared (mixer_set sh) true)
      end
  | A_loop =>
      if running && stream_on sh
      then ([Sleep], A_loop, sh)
      else ([], A_finished, sh)
  | A_finished => ([], A_finished, sh)
  end.

Definition step (l : launch) (running : bool) (au : audio_answer)
           (pc : audio_pc) (sh : audio_shared)
  : list event * audio_pc * audio_shared :=
  match launched l with
  | capture_app | guiver_sounddevice => step_sounddevice l running au pc sh
  | guiver_rtmixer => step_rtmixer l running au pc sh
  end.

(** The stream callback ([callback] of the sounddevice classes,
    [audio_callback] of AudioStreamRTMixer), run by the audio library while
    the stream is on; [status] is the text of a non-empty status. *)
Definition callback (app : application) (status : option string) : list event :=
  match status with
  | None => []
  | Some st =>
      match app with
      | capture_app => [Print ("Audio Status: " ++ st)%string]
      | guiver_sounddevice => [DebugLine ("Audio Status: " ++ st)%string]
      | guiver_rtmixer => [DebugLine ("RTMixer audio callback status: " ++ st)%string]
      end
  end.

End AudioThread.

(* ===================================================================== *)
(** * The GUI thread: the close handlers *)
(* ===================================================================== *)

(** The calls a close handler makes, in program order. *)
Inductive instr : Type :=
| I_say (line : string)     (* print(line) in capture_app, append_message(line) in guiver/main *)
| I_clear (w : worker)      (* self.running = False *)
| I_stop_stream             (* AudioStreamRTMixer.stop: the guarded stop_stream(); close() *)
| I_quit (w : worker)       (* self.quit() *)
| I_wait (w : worker)       (* self.wait(): blocks until the thread's run has returned *)
| I_app_quit                (* QApplication.quit() *)
| I_accept (wd : widget).   (* event.accept() *)

(** What the handlers read of the windows.  Qt marks a widget while it
    handles a close, and [close()] on a marked widget returns at once. *)
Record widgets : Type := mk_widgets {
  capture_visible : bool;
  debug_visible : bool;
  capture_closing : bool;
  debug_closing : bool;
  capture_window_ref : bool   (* DebugWindow.capture_window_ref is set *)
}.

Module Gui.

Definition is_visible (ws : widgets) (wd : widget) : bool :=
  match wd with
  | CaptureWindow => capture_visible ws
  | DebugWindow => debug_visible ws
  | TestCamera => false
  end.

Definition is_closing (ws : widgets) (wd : widget) : bool :=
  match wd with
  | CaptureWindow => capture_closing ws
  | DebugWindow => debug_closing ws
  | TestCamera => false
  end.

Definition set_closing (wd : widget) (b : bool) (ws : widgets) : widgets :=
  match wd with
  | CaptureWindow =>
      mk_widgets (capture_visible ws) (debug_visible ws) b (debug_closing ws)
                 (capture_window_ref ws)
  | DebugWindow =>
      mk_widgets (capture_visible ws) (debug_visible ws) (capture_closing ws) b
                 (capture_window_ref ws)
  | TestCamera => ws
  end.

Definition hide (wd : widget) (ws : widgets) : widgets :=
  match wd with
  | CaptureWindow =>
      mk_widgets false (debug_visible ws) (capture_closing ws) (debug_closing ws)
                 (capture_window_ref ws)
  | DebugWindow =>
      mk_widgets (capture_visible ws) false (capture_closing ws) (debug_closing ws)
                 (capture_window_ref ws)
  | TestCamera => ws
  end.

(** [VideoThread.stop()] *)
Definition VideoThread_stop : list instr := [I_clear Video; I_wait Video].

(** [AudioStream.stop()], [AudioStreamSD.stop()], [AudioStreamRTMixer.stop()] *)
Definition AudioThread_stop (app : application) : list instr :=
  match app with
  | capture_app | guiver_sounddevice => [I_clear Audio; I_quit Audio; I_wait Audio]
  | guiver_rtmixer => [I_clear Audio; I_stop_stream; I_quit Audio; I_wait Audio]
  end.

(** [CaptureWindow.closeEvent]; [close] is [QWidget.close]. *)
Definition CaptureWindow_closeEvent (app : application)
           (close : widget -> widgets -> list instr * widgets) (ws : widgets)
  : list instr * widgets :=
  let stop_threads :=
    [I_say "Stopping video thread..."] ++ VideoThread_stop
    ++ [I_say "Stopping audio thread..."] ++ AudioThread_stop app
    ++ [I_wait Audio; I_say "Exiting application..."] in
  match app with
  | capture_app => (stop_threads ++ [I_app_quit; I_accept CaptureWindow], ws)
  | guiver_sounddevice | guiver_rtmixer =>
      let '(nested, ws') :=
        if is_visible ws DebugWindow then close DebugWindow ws else ([], ws) in
      (stop_threads ++ nested ++ [I_app_quit; I_accept CaptureWindow], ws')
  end.

(** [DebugWindow.closeEvent] of guiver/main.py. *)
Definition DebugWindow_closeEvent
           (close : widget -> widgets -> list instr * widgets) (ws : widgets)
  : list instr * widgets :=
  let '(nested, ws') :=
    if capture_window_ref ws && is_visible ws CaptureWindow
    then close CaptureWindow ws else ([], ws) in
  (nested ++ [I_app_quit; I_accept DebugWindow], ws').

(** [QWidget.close()]: nothing for a widget that is already closing,
    otherwise the widget's close handler runs and, the event being accepted,
    the widget is hidden.  [fuel] bounds the nesting of handlers. *)
Fixpoint close (fuel : nat) (app : application) (wd : widget) (ws : widgets)
  : list instr * widgets :=
  match fuel with
  | O => ([], ws)
  | S fuel' =>
      if is_closing ws wd then ([], ws)
      else
        let ws1 := set_closing wd true ws in
        let '(calls, ws2) :=
          match wd with
          | CaptureWindow => CaptureWindow_closeEvent app (close fuel' app) ws1
          | DebugWindow => DebugWindow_closeEvent (close fuel' app) ws1
          | TestCamera => ([I_accept TestCamera], ws1)
          end in
        (calls, hide wd (set_closing wd false ws2))
  end.

(** The windows when [app.exec_()] starts. *)
Definition shown (app : application) : widgets :=
  match app with
  | capture_app => mk_widgets true false false false false
  | guiver_sounddevice | guiver_rtmixer => mk_widgets true true false false true
  end.

(** The calls made for a close event on [wd]. *)
Definition close_event (app : application) (wd : widget) : list instr :=
  fst (close 3 app wd (shown app)).

(** The steps of a shutdown. *)
Inductive shutdown_step : Type :=
| stop_thread (w : worker)
| join_thread (w : worker)
| close_window.

Definition shutdown_step_eqb (a b : shutdown_step) : bool :=
  match a, b with
  | stop_thread Video, stop_thread Video => true
  | stop_thread Audio, stop_thread Audio => true
  | join_thread Video, join_thread Video => true
  | join_thread Audio, join_thread Audio => true
  | close_window, close_window => true
  | _, _ => false
  end.

(** The shutdown steps among the calls of a handler. *)
Fixpoint shutdown_steps (calls : list instr) : list shutdown_step :=
  match calls with
  | [] => []
  | I_clear w :: rest => stop_thread w :: shutdown_steps rest
  | I_wait w :: rest => join_thread w :: shutdown_steps rest
  | I_app_quit :: rest => close_window :: shutdown_steps rest
  | I_accept _ :: rest => close_window :: shutdown_steps rest
  | _ :: rest => shutdown_steps rest
  end.

(** A step done twice in a row counts once (a second [wait()] on a joined
    thread, [quit()] followed by [accept()]). *)
Fixpoint squash (steps : list shutdown_step) : list shutdown_step :=
  match steps with
  | [] => []
  | a :: rest =>
      match rest with
      | b :: _ => if shutdown_step_eqb a b then squash rest else a :: squash rest
      | [] => [a]
      end
  end.

End Gui.

(* ===================================================================== *)
(** * The running application: GUI thread, worker threads, stream callback *)
(* ===================================================================== *)

(** Where the GUI thread is. *)
Inductive gui_state : Type :=
| G_events                      (* inside app.exec_(), no close event yet *)
| G_handler (calls : list instr)(* inside a close handler, these calls are left *)
| G_exited.                     (* exec_ has returned and sys.exit was called *)

Record system : Type := mk_system {
  running_video : bool;         (* VideoThread.running *)
  running_audio : bool;         (* the audio thread's running *)
  video : video_pc;
  audio : audio_pc;
  shared : audio_shared;
  gui : gui_state;
  windows : widgets;
  closed : bool                 (* QApplication.quit() or accept() has been called *)
}.

(** Who moves next, and what the outside world answers. *)
Inductive choice : Type :=
| C_video (cv : cv_answer)          (* the video thread takes a step *)
| C_audio (au : audio_answer)       (* the audio thread takes a step *)
| C_callback (status : option string) (* the audio library calls the stream callback *)
| C_stream_stops                    (* the rtmixer stream stops by itself *)
| C_close (wd : widget)             (* Qt delivers a close event for [wd] *)
| C_gui.                            (* the GUI thread makes its next call *)

(** Who performed an event. *)
Inductive actor : Type := By_gui | By_video | By_audio | By_callback.

Module Run.

(** The state when [app.exec_()] starts: both threads started, nothing
    run yet. *)
Definition init (app : application) : system :=
  {| running_video := true; running_audio := true;
     video := V_start; audio := A_start;
     shared := mk_audio_shared false false;
     gui := G_events; windows := Gui.shown app; closed := false |}.

Definition finished (s : system) (w : worker) : bool :=
  match w with
  | Video => match video s with V_finished => true | _ => false end
  | Audio => match audio s with A_finished => true | _ => false end
  end.

Definition set_gui (g : gui_state) (s : system) : system :=
  mk_system (running_video s) (running_audio s) (video s) (audio s) (shared s)
            g (windows s) (closed s).

(** The state after a step of the video thread, of the audio thread. *)
Definition with_video (s : system) (pc : video_pc) : system :=
  mk_system (running_video s) (running_audio s) pc (audio s) (shared s)
            (gui s) (windows s) (closed s).

Definition with_audio (s : system) (pc : audio_pc) (sh : audio_shared) : system :=
  mk_system (running_video s) (running_audio s) (video s) pc sh
            (gui s) (windows s) (closed s).

(** One call of a close handler; [None] when the call blocks. *)
Definition call (app : application) (i : instr) (rest : list instr) (s : system)
  : option (list event * system) :=
  match i with
  | I_say line => Some ([report app line], set_gui (G_handler rest) s)
  | I_clear Video =>
      Some ([ClearRunning Video],
            mk_system false (running_audio s) (video s) (audio s) (shared s)
                      (G_handler rest) (windows s) (closed s))
  | I_clear Audio =>
      Some ([ClearRunning Audio],
            mk_system (running_video s) false (video s) (audio s) (shared s)
                      (G_handler rest) (windows s) (closed s))
  | I_stop_stream =>
      if mixer_set (shared s) && stream_on (shared s)
      then Some ([StopStream; MixerClose],
                 mk_system (running_video s) (running_audio s) (video s) (audio s)
                           (mk_audio_shared (mixer_set (shared s)) false)
                           (G_handler rest) (windows s) (closed s))
      else Some ([], set_gui (G_handler rest) s)
  | I_quit w => Some ([ThreadQuit w], set_gui (G_handler rest) s)
  | I_wait w =>
      if finished s w then Some ([Joined w], set_gui (G_handler rest) s) else None
  | I_app_quit =>
      Some ([AppQuit],
            mk_system (running_video s) (running_audio s) (video s) (audio s)
                      (shared s) (G_handler rest) (windows s) true)
  | I_accept wd =>
      Some ([Accept wd],
            mk_system (running_video s) (running_audio s) (video s) (audio s)
                      (shared s) (G_handler rest) (windows s) true)
  end.

(** One step of the application; [None] when the chosen move is not
    possible in [s].  Once the process has exited nothing moves.  A close
    event is taken only by the event loop; what its handler does to the
    windows is recorded when the handler starts, nothing reads it before the
    process exits. *)
Definition step (l : launch) (c : choice) (s : system)
  : option (actor * list event * system) :=
  let app := launched l in
  match gui s with
  | G_exited => None
  | _ =>
      match c with
      | C_video cv =>
          match video s with
          | V_finished => None
          | pc =>
              let '(evs, pc') := VideoThread.step l (running_video s) cv pc in
              Some (By_video, evs,
                    mk_system (running_video s) (running_audio s) pc' (audio s)
                              (shared s) (gui s) (windows s) (closed s))
          end
      | C_audio au =>
          match audio s with
          | A_finished => None
          | pc =>
              let '(evs, pc', sh') :=
                AudioThread.step l (running_audio s) au pc (shared s) in
              Some (By_audio, evs,
                    mk_system (running_video s) (running_audio s) (video s) pc'
                              sh' (gui s) (windows s) (closed s))
          end
      | C_callback status =>
          if stream_on (shared s)
          then Some (By_callback, AudioThread.callback app status, s)
          else None
      | C_stream_stops =>
          match app with
          | guiver_rtmixer =>
              if stream_on (shared s)
              then Some (By_callback, [],
                         mk_system (running_video s) (running_audio s)
                                   (video s) (audio s)
                                   (mk_audio_shared (mixer_set (shared s)) false)
                                   (gui s) (windows s) (closed s))
              else None
          | _ => None
          end
      | C_close wd =>
          match gui s with
          | G_events =>
              if Gui.is_visible (windows s) wd
              then
                let '(calls, ws) := Gui.close 3 app wd (windows s) in
                Some (By_gui, [],
                      mk_system (running_video s) (running_audio s)
                                (video s) (audio s) (shared s)
                                (G_handler calls) ws (closed s))
              else None
          | _ => None
          end
      | C_gui =>
          match gui s with
          | G_handler (i :: rest) =>
              match call app i rest s with
              | Some (evs, s') => Some (By_gui, evs, s')
              | None => None
              end
          | G_handler [] => Some (By_gui, [Exit 0%Z], set_gui G_exited s)
          | _ => None
          end
      end
  end.

(** A run under a schedule: moves that are not possible are skipped. *)
Fixpoint run (l : launch) (schedule : list choice) (s : system)
  : list (actor * event) * system :=
  match schedule with
  | [] => ([], s)
  | c :: rest =>
      match step l c s with
      | Some (a, evs, s') =>
          let '(tr, s'') := run l rest s' in
          (map (fun e => (a, e)) evs ++ tr, s'')
      | None => run l rest s
      end
  end.

(** Updates of the user interface: a frame, an FPS figure, a debug line. *)
Definition ui_update (e : event) : bool :=
  match e with
  | Pixmap | Fps _ | DebugLine _ => true
  | _ => false
  end.

(** The window is being closed. *)
Definition closes (e : event) : bool :=
  match e with
  | AppQuit | Accept _ => true
  | _ => false
  end.

(** What happens after the first closing event of a trace. *)
Fixpoint after_close (tr : list (actor * event)) : list (actor * event) :=
  match tr with
  | [] => []
  | (a, e) :: rest => if closes e then rest else after_close rest
  end.

(** No update of the user interface, by any of the actors [watch] selects,
    after the window was closed. *)
Definition quiet_after_close (watch : actor -> bool) (tr : list (actor * event)) : bool :=
  forallb (fun ae => negb (watch (fst ae) && ui_update (snd ae))) (after_close tr).

Definition everyone (a : actor) : bool := true.

(** The GUI thread and the two worker threads, not the audio library. *)
Definition threads (a : actor) : bool :=
  match a with
  | By_callback => false
  | _ => true
  end.

End Run.

(** Sample answers and schedules for the evaluations below. *)
Module RunSamples.

Definition cv_ok : cv_answer :=
  {| dshow_opens := true; msmf_opens := true;
     prop_text := fun p => match p with
                           | CAP_PROP_FRAME_WIDTH => "1920.0"
                           | CAP_PROP_FRAME_HEIGHT => "1080.0"
                           | CAP_PROP_FPS => "60.0"
                           end;
     cap_is_opened := true; read_ret := true; fps_report := None |}.

(** Neither backend opens the device. *)
Definition cv_dead : cv_answer :=
  {| dshow_opens := false; msmf_opens := false;
     prop_text := fun _ => "0.0";
     cap_is_opened := false; read_ret := false; fps_report := None |}.

Definition au_ok : audio_answer :=
  {| rtmixer_is_none := false; open_error := None;
     start_error := None; exit_error := None |}.


Definition capture_launch : launch := mk_launch capture_app 0 3 "".

Definition rtmixer_launch : launch := mk_launch guiver_rtmixer 0 1 "wasapi".

(** After the window was closed while the video thread is inside its loop
    body: the threads and the handler take turns. *)
Definition winding_down : list choice :=
  [C_gui; C_video cv_ok; C_callback None; C_video cv_ok; C_video cv_ok;
   C_gui; C_gui; C_gui; C_gui; C_audio au_ok; C_gui; C_gui; C_gui; C_gui;
   C_gui; C_gui].

End RunSamples.

(** Properties of the calls a close handler still has to make, used to
    state what holds while it runs. *)
Module Handler.

Definition worker_eqb (a b : worker) : bool :=
  match a, b with
  | Video, Video | Audio, Audio => true
  | _, _ => false
  end.

(** A [wait()] on [w] comes before the window is closed. *)
Fixpoint waits_first (w : worker) (calls : list instr) : bool :=
  match calls with
  | [] => false
  | I_wait w' :: rest => worker_eqb w w' || waits_first w rest
  | I_app_quit :: _ => false
  | I_accept _ :: _ => false
  | _ :: rest => waits_first w rest
  end.

Definition says_nothing (calls : list instr) : bool :=
  forallb (fun i => match i with I_say _ => false | _ => true end) calls.

(** Nothing is said once the window is closed. *)
Fixpoint quiet_tail (calls : list instr) : bool :=
  match calls with
  | [] => true
  | I_app_quit :: rest => says_nothing rest
  | I_accept _ :: rest => says_nothing rest
  | _ :: rest => quiet_tail rest
  end.

End Handler.

(** What holds of the running application while a close handler runs:
    the stream of a sounddevice thread is on only inside the thread's loop;
    before the window is closed a [wait()] is still ahead for each thread
    that has not finished, and nothing is said after the closing call; once
    the window is closed both threads have finished and nothing more is
    said. *)
Module Invariant.
Import Run Handler.

Definition handler_ok (s : system) (calls : list instr) : Prop :=
  (finished s Video || waits_first Video calls) = true
  /\ (finished s Audio || waits_first Audio calls) = true
  /\ quiet_tail calls = true.

Definition inv (l : launch) (s : system) : Prop :=
  (launched l <> guiver_rtmixer -> stream_on (shared s) = true -> audio s = A_loop)
  /\ match gui s with
     | G_exited => True
     | G_events => closed s = false /\ windows s = Gui.shown (launched l)
     | G_handler calls =>
         if closed s
         then finished s Video = true /\ finished s Audio = true
              /\ says_nothing calls = true
         else handler_ok s calls
     end.

(** The event is no update of the user interface by a watched actor. *)
Definition quiet (watch : actor -> bool) (ae : actor * event) : bool :=
  negb (watch (fst ae) && ui_update (snd ae)).

(** What a step may do: once the window is closed, only quiet events;
    before, either no closing event, or the closing call alone. *)
Definition outcome_ok (watch : actor -> bool)
           (s : system) (a : actor) (evs : list event) (s' : system) : Prop :=
  if closed s
  then closed s' = true /\ Forall (fun e => quiet watch (a, e) = true) evs
  else (closed s' = false /\ Forall (fun e => closes e = false) evs)
       \/ (closed s' = true /\ exists e, evs = [e] /\ closes e = true).

End Invariant.

(** What a trace shows of the loops and of the capture backends. *)
Module Observe.

(** The backends [cv2.VideoCapture] was called with, in order. *)
Fixpoint attempts (evs : list event) : list backend :=
  match evs with
  | [] => []
  | VideoCapture _ b :: rest => b :: attempts rest
  | _ :: rest => attempts rest
  end.

Definition trace_attempts (tr : list (actor * event)) : list backend :=
  attempts (map snd tr).

(** A pass through the body of the video loop shows as a frame or as the
    [msleep(10)] of a failed read. *)
Definition video_pass (ae : actor * event) : bool :=
  match ae with
  | (By_video, Pixmap) | (By_video, Sleep) => true
  | _ => false
  end.

(** A pass through the body of an audio loop shows as its sleep. *)
Definition audio_pass (ae : actor * event) : bool :=
  match ae with
  | (By_audio, Sleep) => true
  | _ => false
  end.

Definition passes (pass : actor * event -> bool) (tr : list (actor * event)) : nat :=
  List.length (filter pass tr).

(** The passes the video thread can still make once its flag is cleared. *)
Definition passes_left (pc : video_pc) : nat :=
  match pc with
  | V_body => 1
  | _ => 0
  end.

(** The threads started so far. *)
Fixpoint starts (evs : list event) : list worker :=
  match evs with
  | [] => []
  | Start w :: rest => w :: starts rest
  | _ :: rest => starts rest
  end.

(** A script starts no thread, or one audio thread and then one video
    thread. *)
Definition none_or_both (evs : list event) : Prop :=
  starts evs = [] \/ starts evs = [Audio; Video].

End Observe.

(* ===================================================================== *)
(** * The four scripts *)
(* ===================================================================== *)

(** What the machine offers, and what the user answers. *)
Record machine : Type := mk_machine {
  video_devices : list string;        (* FilterGraph().get_input_devices() *)
  audio_devices : list sd_device;     (* sd.query_devices() *)
  audio_devices_again : list sd_device;
    (* capture_app: sd.query_devices() called a second time, after the prompts *)
  hostapis : list sd_hostapi;         (* sd.query_hostapis() *)
  rtmixer : option rtmixer_module;    (* the rtmixer module, if it imports *)
  cameras : list string               (* QMediaDevices.videoInputs() *)
}.

Record user : Type := mk_user {
  keyboard : list (option Z);         (* capture_app: int(input()) line by line *)
  video_pick : option nat;            (* guiver/main: the video dialog *)
  audio_pick : option nat             (* guiver/main: the audio dialog *)
}.

(** [for line in lines: print(line)] *)
Definition print_all (lines : list string) : M unit :=
  (map Print lines, Ret tt).

(** The script reaches its end (or [main] returns to it): the process
    exits with status 0. *)
Definition script_ends {A : Type} : M A := ([Exit 0%Z], SysExit 0%Z).

Module CaptureAppScript.
Local Open Scope m_scope.

(** [list_video_devices_with_names()] *)
Definition list_video_devices_with_names (m : machine) : M (list string) :=
  tell QueryVideoDevices ;;
  tell (Print (newline ++ "Video Devices:")%string) ;;
  print_all (numbered (video_devices m)) ;;
  match video_devices m with
  | [] => tell (Print "No video devices found.") ;; ret []
  | devices => ret devices
  end.

(** [list_audio_input_devices_filtered()], with what it prints. *)
Definition list_audio_input_devices_filtered (m : machine)
  : M (list sd_device * list string) :=
  tell QueryDevices ;;
  tell (Print (newline ++ "Audio Input Devices:")%string) ;;
  let '(filtered_devices, filtered_names) :=
    CaptureApp.filter_loop (audio_devices m) [] [] in
  match filtered_devices with
  | [] => tell (Print "No matching audio input devices found.") ;; ret ([], [])
  | _ :: _ =>
      print_all (numbered filtered_names) ;;
      ret (filtered_devices, filtered_names)
  end.

(** [main()], up to and including the call of [app.exec_()]; it returns
    what the threads were created with.  What follows is the running
    application of [Run]. *)
Definition main (m : machine) (u : user) : M launch :=
  devices <- list_video_devices_with_names m ;;
  match devices with
  | [] => tell (Print "No video devices detected. Exiting.") ;; script_ends
  | _ :: _ =>
      '(video_choice, stdin1) <-
        Prompt.prompt_selection (Z.of_nat (List.length devices)) "video" (keyboard u) ;;
      '(filtered_devices, filtered_names) <- list_audio_input_devices_filtered m ;;
      match filtered_devices with
      | [] =>
          tell (Print "No matching audio input devices detected. Exiting.") ;;
          script_ends
      | _ :: _ =>
          '(audio_choice_index, stdin2) <-
            Prompt.prompt_selection (Z.of_nat (List.length filtered_devices))
                                    "audio input" stdin1 ;;
          tell QueryDevices ;;
          match CaptureAppIndex.audio_choice_device_index
                  (audio_devices_again m) filtered_devices
                  (Z.to_nat audio_choice_index),
                nth_error devices (Z.to_nat video_choice),
                nth_error filtered_names (Z.to_nat audio_choice_index) with
          | Some audio_choice_device_index, Some video_name, Some audio_name =>
              tell (Print (newline ++ "Opening video device '" ++ video_name
                           ++ "' and audio device '" ++ audio_name ++ "'...")%string) ;;
              tell (Start Audio) ;;
              tell (Start Video) ;;
              tell (ShowWindow CaptureWindow) ;;
              tell Exec ;;
              ret (mk_launch capture_app (Z.to_nat video_choice)
                             audio_choice_device_index "")
          | None, _, _ => raise "ValueError"
          | _, _, _ => raise "IndexError"
          end
      end
  end.

End CaptureAppScript.

Module GuiverScript.
Local Open Scope m_scope.

(** [main()] of guiver/main.py, up to and including [app.exec_()]. *)
Definition main (m : machine) (u : user) : M launch :=
  tell (ShowWindow DebugWindow) ;;
  tell QueryVideoDevices ;;
  match video_devices m with
  | [] => tell (DebugLine "No video devices detected. Exiting.") ;; sys_exit 1%Z
  | _ :: _ =>
      video_choice <-
        Prompt.prompt_selection_gui (video_devices m) "video" (video_pick u) ;;
      tell QueryMixers ;;
      match GuiverAudio.list_rtmixer_devices_by_apis
              (rtmixer m) GuiverAudio.preferred_api_names with
      | AttributeError => raise "AttributeError"
      | Returns rt =>
      tell QueryDevices ;;
      tell QueryHostapis ;;
      match Guiver.list_audio_input_devices_filtered (audio_devices m) (hostapis m) with
      | None => raise "IndexError"
      | Some (fallback_devices, fallback_names, fallback_indices) =>
          let '(all_audio_names, device_source) :=
            GuiverAudio.combine_audio (GuiverAudio.rt_names rt) fallback_names in
          match all_audio_names with
          | [] =>
              tell (DebugLine "No audio input devices found. Exiting.") ;;
              sys_exit 1%Z
          | _ :: _ =>
              audio_choice <-
                Prompt.prompt_selection_gui all_audio_names "audio input"
                                            (audio_pick u) ;;
              match GuiverAudio.make_audio_thread device_source
                      (GuiverAudio.rt_indices rt) (GuiverAudio.rt_apis rt)
                      fallback_indices audio_choice,
                    nth_error (video_devices m) video_choice,
                    nth_error all_audio_names audio_choice with
              | Some audio_thread, Some video_name, Some audio_name =>
                  tell (DebugLine ("Opening video device '" ++ video_name
                                   ++ "' and audio device '" ++ audio_name
                                   ++ "'...")%string) ;;
                  tell (Start Audio) ;;
                  tell (Start Video) ;;
                  tell (ShowWindow CaptureWindow) ;;
                  tell Exec ;;
                  ret match audio_thread with
                      | GuiverAudio.AudioStreamRTMixer i api =>
                          mk_launch guiver_rtmixer video_choice i (api_name api)
                      | GuiverAudio.AudioStreamSD i =>
                          mk_launch guiver_sounddevice video_choice i ""
                      end
              | _, _, _ => raise "IndexError"
              end
          end
      end
      end
  end.

End GuiverScript.

Module AsioFinder.
Local Open Scope m_scope.

(** The second loop of asiofinder.py: the index of the first host API
    whose lower-cased name is 'asio'. *)
Fixpoint find_asio (apis : list (nat * sd_hostapi)) : option nat :=
  match apis with
  | [] => None
  | (i, hostapi) :: rest =>
      if String.eqb (Py.lower (hostapi_name hostapi)) "asio"
      then Some i else find_asio rest
  end.

(** The lines of the last loop: the devices of the ASIO host API. *)
Fixpoint asio_lines (asio_hostapi_index : nat) (devices : list (nat * sd_device))
  : list string :=
  match devices with
  | [] => []
  | (i, dev) :: rest =>
      if Nat.eqb (hostapi dev) asio_hostapi_index
      then ("  " ++ Py.str_of_nat i ++ ": " ++ name dev)%string
           :: asio_lines asio_hostapi_index rest
      else asio_lines asio_hostapi_index rest
  end.

(** asiofinder.py, the whole script. *)
Definition script (m : machine) : M unit :=
  tell (Print "Host APIs:") ;;
  tell QueryHostapis ;;
  print_all (numbered (map hostapi_name (hostapis m))) ;;
  tell QueryHostapis ;;
  match find_asio (Py.enumerate (hostapis m)) with
  | None =>
      tell (Print "No ASIO host API found on this system.") ;;
      script_ends
  | Some asio_hostapi_index =>
      tell (Print ("ASIO host API found at index "
                   ++ Py.str_of_nat asio_hostapi_index)%string) ;;
      tell (Print "Devices supporting ASIO:") ;;
      tell QueryDevices ;;
      print_all (asio_lines asio_hostapi_index (Py.enumerate (audio_devices m))) ;;
      script_ends
  end.

End AsioFinder.

Module Other.
Local Open Scope m_scope.

(** The classes of [PyQt5.QtMultimedia].  PyQt5 wraps Qt 5, where the
    cameras are listed by [QCameraInfo]; [QMediaDevices] is a class of
    Qt 6. *)
Definition QtMultimedia : list string :=
  ["QAbstractVideoBuffer"; "QAbstractVideoSurface"; "QAudio"; "QAudioBuffer";
   "QAudioDecoder"; "QAudioDeviceInfo"; "QAudioEncoderSettings"; "QAudioFormat";
   "QAudioInput"; "QAudioOutput"; "QAudioProbe"; "QAudioRecorder"; "QCamera";
   "QCameraExposure"; "QCameraFocus"; "QCameraFocusZone"; "QCameraImageCapture";
   "QCameraImageProcessing"; "QCameraInfo"; "QCameraViewfinderSettings";
   "QImageEncoderSettings"; "QMediaBindableInterface"; "QMediaContent";
   "QMediaControl"; "QMediaMetaData"; "QMediaObject"; "QMediaPlayer";
   "QMediaPlaylist"; "QMediaRecorder"; "QMediaResource"; "QMediaService";
   "QMediaTimeInterval"; "QMediaTimeRange"; "QMultimedia"; "QRadioData";
   "QRadioTuner"; "QSound"; "QSoundEffect"; "QVideoEncoderSettings";
   "QVideoFrame"; "QVideoProbe"; "QVideoSurfaceFormat"].

(** [from module import names]: [ImportError] when the module has not all
    of them. *)
Definition import_from (offered names : list string) : M unit :=
  if forallb (fun n => existsb (String.eqb n) offered) names
  then ret tt
  else raise "ImportError".

(** The block under [if __name__ == "__main__"] up to and including
    [app.exec_()]: [TestCamera.__init__], [window.show()]. *)
Definition main_block (m : machine) : M unit :=
  tell QueryCameras ;;
  match cameras m with
  | [] =>
      tell (Critical "Error" "No cameras found") ;;
      sys_exit 1%Z
  | _ :: _ =>
      tell CameraStart ;;
      tell (ShowWindow TestCamera) ;;
      tell Exec ;;
      ret tt
  end.

(** [TestCamera.camera_error(error, errorString)] *)
Definition camera_error (errorString : string) : M unit :=
  tell (Critical "Camera error" errorString) ;;
  sys_exit 1%Z.

(** other.py, the whole script: line 3 imports [QCamera] and
    [QMediaDevices] from [PyQt5.QtMultimedia]; the class and the main block
    come after it. *)
Definition script (m : machine) : M unit :=
  import_from QtMultimedia ["QCamera"; "QMediaDevices"] ;;
  main_block m.

End Other.

(** A sample machine and sample users for the evaluations below. *)
Module ScriptSamples.

Definition studio : machine :=
  {| video_devices := ["Integrated Camera"; "Game Capture HD60 S"];
     audio_devices := Samples.four_devices;
     audio_devices_again := Samples.four_devices;
     hostapis := RtSamples.hostapis;
     rtmixer := Some RtSamples.rtmixer;
     cameras := ["Integrated Camera"] |}.

(** The same machine without the rtmixer module. *)
Definition desk : machine :=
  {| video_devices := ["Integrated Camera"; "Game Capture HD60 S"];
     audio_devices := Samples.four_devices;
     audio_devices_again := Samples.four_devices;
     hostapis := RtSamples.hostapis;
     rtmixer := None;
     cameras := ["Integrated Camera"] |}.

(** The same machine with python-rtmixer installed. *)
Definition desk_with_rtmixer : machine :=
  {| video_devices := ["Integrated Camera"; "Game Capture HD60 S"];
     audio_devices := Samples.four_devices;
     audio_devices_again := Samples.four_devices;
     hostapis := RtSamples.hostapis;
     rtmixer := Some python_rtmixer;
     cameras := ["Integrated Camera"] |}.

(** Types "1" for the video device, then "x", then "0" for the audio
    device; picks the second row in each dialog. *)
Definition alice : user :=
  {| keyboard := [Some 1%Z; None; Some 0%Z];
     video_pick := Some 1; audio_pick := Some 1 |}.


End ScriptSamples.

(* ===================================================================== *)
(** * Whole runs of the scripts *)
(* ===================================================================== *)

Inductive script : Type := asiofinder | capture_app_py | guiver_main_py | other_py.

Module Whole.

(** The script up to its event loop: what it did, and what it launched
    when it got that far with worker threads. *)
Definition startup (sc : script) (m : machine) (u : user)
  : list event * option launch :=
  match sc with
  | asiofinder => (fst (AsioFinder.script m), None)
  | capture_app_py =>
      (fst (CaptureAppScript.main m u),
       match snd (CaptureAppScript.main m u) with
       | Ret l => Some l
       | _ => None
       end)
  | guiver_main_py =>
      (fst (GuiverScript.main m u),
       match snd (GuiverScript.main m u) with
       | Ret l => Some l
       | _ => None
       end)
  | other_py => (fst (Other.script m), None)
  end.

(** A whole run: the startup, then the running application under a
    schedule. *)
Definition run (sc : script) (m : machine) (u : user) (schedule : list choice)
  : list event :=
  match startup sc m u with
  | (tr, Some l) => tr ++ map snd (fst (Run.run l schedule (Run.init (launched l))))
  | (tr, None) => tr
  end.

(** The process has exited. *)
Definition exits (tr : list event) : bool :=
  existsb (fun e => match e with Exit _ => true | _ => false end) tr.



End Whole.

(* ===================================================================== *)
(** * The prompts as the user sees them *)
(* ===================================================================== *)

Module PromptTrace.

(** [input(f"Select {device_type} device number: ")] *)
Definition ask (device_type : string) : event :=
  Input ("Select " ++ device_type ++ " device number: ")%string.

(** What [prompt_selection] prints for a line it turns down: the [except
    ValueError] branch for a line that is no number, the [else] branch for a
    number out of range. *)
Definition complaint (line : option Z) : event :=
  match line with
  | None => Print "Invalid input. Please enter a number."
  | Some _ => Print "Invalid selection. Please enter one of the listed numbers."
  end.

(** The exchange with a user whose first lines are [skipped]: a prompt and
    a complaint for each of them, then one more prompt. *)
Definition exchange (device_type : string) (skipped : list (option Z)) : list event :=
  flat_map (fun line => [ask device_type; complaint line]) skipped
  ++ [ask device_type].

(** The [else] branch of [prompt_selection_gui]. *)
Definition dismissed (options : list string) (device_type : string) : M nat :=
  ([GetItem (numbered options);
    Critical "Error" ("No " ++ device_type ++ " device selected. Exiting.")%string;
    Exit 1%Z],
   SysExit 1%Z).

End PromptTrace.

(* ===================================================================== *)
(** * guiver/main.py: the rows of the rtmixer enumeration, API by API *)
(* ===================================================================== *)

Module RtEnumeration.

(** The rows one preferred API name contributes: the input devices of the
    mixer of the API it resolves to, in index order. *)
Definition rows_of_api (m : rtmixer_module) (api_nm : string) : list RtRows.row :=
  match GuiverAudio.get_rtmixer_api_by_name (Some m) api_nm with
  | Returns (Some api) =>
      map (fun e => (snd e, api_nm, fst e, api))
          (filter (fun e => (0 <? inputChannels (snd e))%Z)
                  (Py.enumerate (mixer_devices m api)))
  | _ => []
  end.

Definition rows (m : rtmixer_module) (preferred_api_names : list string)
  : list RtRows.row :=
  flat_map (rows_of_api m) preferred_api_names.

(** The four lists with the entries of [rows] appended, each to its own. *)
Definition extend (acc : GuiverAudio.rt_lists) (rows : list RtRows.row)
  : GuiverAudio.rt_lists :=
  GuiverAudio.mk_rt_lists
    (GuiverAudio.rt_devices acc ++ map RtRows.row_info rows)
    (GuiverAudio.rt_names acc
       ++ map (fun r => Guiver.display_name (rt_name (RtRows.row_info r))
                                            (RtRows.row_api_name r)) rows)
    (GuiverAudio.rt_indices acc ++ map RtRows.row_index rows)
    (GuiverAudio.rt_apis acc ++ map RtRows.row_api rows).

End RtEnumeration.

(* ===================================================================== *)
(** * guiver/main.py: the host API dictionary *)
(* ===================================================================== *)

Module HostapiDict.

(** A Python dict with string keys: its items in insertion order, no key
    twice. *)
Definition dict (V : Type) : Type := list (string * V).

(** [d[k] = v]: the value of a key the dict has is replaced where it
    stands, a new key goes to the end. *)
Fixpoint setitem {V : Type} (d : dict V) (k : string) (v : V) : dict V :=
  match d with
  | [] => [(k, v)]
  | (k', v') :: rest =>
      if String.eqb k' k then (k', v) :: rest else (k', v') :: setitem rest k v
  end.

(** [d.get(k)] *)
Fixpoint get {V : Type} (d : dict V) (k : string) : option V :=
  match d with
  | [] => None
  | (k', v) :: rest => if String.eqb k' k then Some v else get rest k
  end.

(** The comprehension [{h['name'].lower(): i for i, h in ...}], item by
    item. *)
Fixpoint comprehension (items : list (nat * sd_hostapi)) (d : dict nat) : dict nat :=
  match items with
  | [] => d
  | (i, h) :: rest => comprehension rest (setitem d (Py.lower (hostapi_name h)) i)
  end.

(** [get_hostapi_indices_sd()], as a function of what
    [sd.query_hostapis()] returns. *)
Definition get_hostapi_indices_sd (hostapis : list sd_hostapi) : dict nat :=
  comprehension (Py.enumerate hostapis) [].

End HostapiDict.

(* ===================================================================== *)
(** * The capture handle and the audio stream, as a run shows them *)
(* ===================================================================== *)

Module Protocol.

(** A resource of a thread: not yet opened, open, given back. *)
Inductive handle : Type := Unopened | Opened | Closed.

(** What an event of the video thread does to the capture handle; [None]
    when the event has no place there.  The two backend attempts come before
    the handle is open; [cap.set] is the first call on a capture that
    opened; a frame, an FPS figure or the [msleep] of a failed read needs the
    open capture; [cap.release()] ends it. *)
Definition capture_event (h : handle) (e : event) : option handle :=
  match e with
  | VideoCapture _ _ =>
      match h with Unopened => Some Unopened | _ => None end
  | CapSet _ _ =>
      match h with Closed => None | _ => Some Opened end
  | Pixmap | Fps _ | Sleep =>
      match h with Opened => Some Opened | _ => None end
  | CapRelease =>
      match h with Opened => Some Closed | _ => None end
  | _ => Some h
  end.

(** The capture handle along a trace: only the video thread touches it. *)
Fixpoint capture_trace (h : handle) (tr : list (actor * event)) : option handle :=
  match tr with
  | [] => Some h
  | (By_video, e) :: rest =>
      match capture_event h e with
      | Some h' => capture_trace h' rest
      | None => None
      end
  | _ :: rest => capture_trace h rest
  end.

(** What the video thread's position says of the handle. *)
Definition capture_at (pc : video_pc) (h : handle) : Prop :=
  match pc with
  | V_start => h = Unopened
  | V_test | V_body => h = Opened
  | V_finished => h <> Opened
  end.

(** What an event does to the sounddevice stream: the audio thread enters
    the [with] block once and leaves it once; the audio library calls the
    callback only in between. *)
Definition stream_event (h : handle) (ae : actor * event) : option handle :=
  match ae with
  | (By_audio, StreamOpen _) =>
      match h with Unopened => Some Opened | _ => None end
  | (By_audio, StreamClose) =>
      match h with Opened => Some Closed | _ => None end
  | (By_callback, _) =>
      match h with Opened => Some Opened | _ => None end
  | _ => Some h
  end.

Fixpoint stream_trace (h : handle) (tr : list (actor * event)) : option handle :=
  match tr with
  | [] => Some h
  | ae :: rest =>
      match stream_event h ae with
      | Some h' => stream_trace h' rest
      | None => None
      end
  end.

(** What the state of a sounddevice audio thread says of the stream. *)
Definition stream_at (s : system) (h : handle) : Prop :=
  mixer_set (shared s) = false
  /\ match audio s with
     | A_start => h = Unopened /\ stream_on (shared s) = false
     | A_made => False
     | A_loop => h = Opened /\ stream_on (shared s) = true
     | A_finished => h <> Opened /\ stream_on (shared s) = false
     end.

End Protocol.

(* ===================================================================== *)
(** * Closing: what the handler still has ahead *)
(* ===================================================================== *)

Module Closing.

(** The closing call is still ahead. *)
Definition quits_ahead (calls : list instr) : bool :=
  existsb (fun i => match i with I_app_quit => true | _ => false end) calls.

(** What holds of the GUI thread on the way to the exit: a handler that
    has not closed the window yet still has the closing call ahead, and the
    process exits only with the window closed and both threads ended. *)
Definition exit_inv (l : launch) (s : system) : Prop :=
  Invariant.inv l s
  /\ match gui s with
     | G_events => True
     | G_handler calls => closed s = true \/ quits_ahead calls = true
     | G_exited =>
         closed s = true
         /\ Run.finished s Video = true /\ Run.finished s Audio = true
     end.

(** Every [wait()] on a thread comes with the thread's [running] flag
    already cleared: [rv], [ra] are the flags as the calls find them. *)
Fixpoint clears_before_waits (rv ra : bool) (calls : list instr) : bool :=
  match calls with
  | [] => true
  | I_clear Video :: rest => clears_before_waits false ra rest
  | I_clear Audio :: rest => clears_before_waits rv false rest
  | I_wait Video :: rest => negb rv && clears_before_waits rv ra rest
  | I_wait Audio :: rest => negb ra && clears_before_waits rv ra rest
  | _ :: rest => clears_before_waits rv ra rest
  end.

(** What holds of the GUI thread in every state a run reaches, as far as
    the end of a close handler is concerned. *)
Definition progress_inv (l : launch) (s : system) : Prop :=
  match gui s with
  | G_events => windows s = Gui.shown (launched l)
  | G_handler calls =>
      List.length calls <= 14
      /\ clears_before_waits (running_video s) (running_audio s) calls = true
  | G_exited => True
  end.

(** A turn for everybody: the video thread twice, the audio thread three
    times, then the GUI thread. *)
Definition round (cv : cv_answer) (au : audio_answer) : list choice :=
  [C_video cv; C_video cv; C_audio au; C_audio au; C_audio au; C_gui].

Fixpoint rounds (answers : list (cv_answer * audio_answer)) : list choice :=
  match answers with
  | [] => []
  | (cv, au) :: rest => round cv au ++ rounds rest
  end.

End Closing.

(** A whole session of capture_app, from the first frame to the exit. *)
Module SessionSamples.

Definition session : list choice :=
  [C_video RunSamples.cv_ok; C_audio RunSamples.au_ok; C_video RunSamples.cv_ok;
   C_close CaptureWindow; C_gui; C_gui]
  ++ RunSamples.winding_down.

(** guiver/main with an rtmixer audio thread: the stream is started, a
    frame is shown, then the capture window is closed. *)
Definition late_close_start : list choice :=
  [C_audio RunSamples.au_ok; C_audio RunSamples.au_ok; C_video RunSamples.cv_ok].

End SessionSamples.

(** What a close handler asks for, counted. *)
Module HandlerCount.

(** How often the calls clear the [running] flag of thread [w]. *)
Definition clears (w : worker) (calls : list instr) : nat :=
  List.length
    (filter (fun i => match i with
                      | I_clear w' => Handler.worker_eqb w w'
                      | _ => false
                      end) calls).

(** How often the calls accept the close event of window [wd]. *)
Definition accepts (wd : widget) (calls : list instr) : nat :=
  List.length
    (filter (fun i => match i, wd with
                      | I_accept CaptureWindow, CaptureWindow
                      | I_accept DebugWindow, DebugWindow
                      | I_accept TestCamera, TestCamera => true
                      | _, _ => false
                      end) calls).

End HandlerCount.

(* ===================================================================== *)
(** * stop(): what a run shows once a flag is cleared *)
(* ===================================================================== *)

Module Stopping.

(** [stop()] of thread [w] clears the thread's [running] flag. *)
Definition clears_flag (w : worker) (ae : actor * event) : bool :=
  match ae with
  | (By_gui, ClearRunning w') => Handler.worker_eqb w w'
  | _ => false
  end.

(** The flag of [w] was cleared. *)
Definition cleared (w : worker) (tr : list (actor * event)) : bool :=
  existsb (clears_flag w) tr.

(** What happens after the flag of [w] is cleared for the first time. *)
Fixpoint after_clear (w : worker) (tr : list (actor * event))
  : list (actor * event) :=
  match tr with
  | [] => []
  | ae :: rest => if clears_flag w ae then rest else after_clear w rest
  end.

(** [wait()] on thread [w] has returned. *)
Definition joins (w : worker) (ae : actor * event) : bool :=
  match ae with
  | (By_gui, Joined w') => Handler.worker_eqb w w'
  | _ => false
  end.

(** The flag of a thread as a run leaves it. *)
Definition running (s : system) (w : worker) : bool :=
  match w with
  | Video => running_video s
  | Audio => running_audio s
  end.

(** A pass through the loop body of thread [w]. *)
Definition pass (w : worker) : actor * event -> bool :=
  match w with
  | Video => Observe.video_pass
  | Audio => Observe.audio_pass
  end.

(** The passes a thread can make once its flag is cleared: the video
    thread the one it may be in, the audio thread none. *)
Definition further (w : worker) : nat :=
  match w with
  | Video => 1
  | Audio => 0
  end.

(** The calls of [stop()] of thread [w]. *)
Definition stop (app : application) (w : worker) : list instr :=
  match w with
  | Video => Gui.VideoThread_stop
  | Audio => Gui.AudioThread_stop app
  end.

End Stopping.

(* ===================================================================== *)
(** * The pipeline of the description, as a run shows it *)
(* ===================================================================== *)

Module Pipeline.

(** A whole run with its actors: what a script does before its event loop
    is done by its main thread, the GUI thread. *)
Definition run (sc : script) (m : machine) (u : user) (schedule : list choice)
  : list (actor * event) :=
  match Whole.startup sc m u with
  | (tr, Some l) =>
      map (fun e => (By_gui, e)) tr
      ++ fst (Run.run l schedule (Run.init (launched l)))
  | (tr, None) => map (fun e => (By_gui, e)) tr
  end.

(** The stages the description gives to every script. *)
Inductive stage : Type :=
| S_list        (* list devices *)
| S_prompt      (* prompt the user *)
| S_handle      (* a handle is asked for: cv2.VideoCapture, sd.Stream, RtMixer, QCamera *)
| S_frames.     (* a frame is handed to the window *)

Definition stage_of (e : event) : option stage :=
  match e with
  | QueryVideoDevices | QueryDevices | QueryHostapis | QueryMixers | QueryCameras =>
      Some S_list
  | Input _ | GetItem _ => Some S_prompt
  | VideoCapture _ _ | StreamOpen _ | MixerOpen _ | CameraStart => Some S_handle
  | Pixmap => Some S_frames
  | _ => None
  end.

Fixpoint stages (tr : list (actor * event)) : list stage :=
  match tr with
  | [] => []
  | (_, e) :: rest =>
      match stage_of e with
      | Some st => st :: stages rest
      | None => stages rest
      end
  end.










End Pipeline.

(* ===================================================================== *)
(** * The shutdown steps, as a run shows them *)
(* ===================================================================== *)

Module ShutdownTrace.

(** The shutdown step an event of the GUI thread is, if it is one. *)
Definition step_of (ae : actor * event) : option Gui.shutdown_step :=
  match ae with
  | (By_gui, ClearRunning w) => Some (Gui.stop_thread w)
  | (By_gui, Joined w) => Some (Gui.join_thread w)
  | (By_gui, AppQuit) | (By_gui, Accept _) => Some Gui.close_window
  | _ => None
  end.

Fixpoint steps (tr : list (actor * event)) : list Gui.shutdown_step :=
  match tr with
  | [] => []
  | ae :: rest =>
      match step_of ae with
      | Some st => st :: steps rest
      | None => steps rest
      end
  end.

(** The place of a step in "stop video, join, stop audio, join, close
    window". *)
Definition rank (st : Gui.shutdown_step) : nat :=
  match st with
  | Gui.stop_thread Video => 0
  | Gui.join_thread Video => 1
  | Gui.stop_thread Audio => 2
  | Gui.join_thread Audio => 3
  | Gui.close_window => 4
  end.

(** No step comes after a later one; [r] is the place reached so far. *)
Fixpoint ordered_from (r : nat) (sts : list Gui.shutdown_step) : bool :=
  match sts with
  | [] => true
  | st :: rest => (r <=? rank st)%nat && ordered_from (rank st) rest
  end.

Definition in_order (tr : list (actor * event)) : bool :=
  ordered_from 0 (steps tr).

End ShutdownTrace.

(* ===================================================================== *)
(** * Facts about the Python primitives *)
(* ===================================================================== *)

Module PyFacts.

Lemma prefix_lower a : forall b,
  String.prefix a b = true -> String.prefix (Py.lower a) (Py.lower b) = true.
Proof.
  induction a as [|x a IH]; intros b H; [destruct b; reflexivity|].
  destruct b as [|y b]; simpl in *; [discriminate|].
  destruct (ascii_dec x y) as [->|]; [|discriminate].
  destruct (ascii_dec (Py.lower_ascii y) (Py.lower_ascii y)); [auto|congruence].
Qed.

Lemma str_in_lower sub : forall s,
  Py.str_in sub s = true -> Py.str_in (Py.lower sub) (Py.lower s) = true.
Proof.
  induction s as [|c s IH]; simpl; intros H.
  - apply (prefix_lower sub EmptyString H).
  - apply orb_true_iff in H. apply orb_true_iff. destruct H as [H|H].
    + left. apply (prefix_lower sub (String c s) H).
    + right. auto.
Qed.

Section IndexLemmas.
Context {A : Type} (eqb : A -> A -> bool).

(** [l.index(x)] returns the first position whose element equals [x]. *)
Lemma index_from_some i x l q :
  Py.index_from eqb i x l = Some q ->
  i <= q
  /\ (exists y, nth_error l (q - i) = Some y /\ eqb y x = true)
  /\ forall j y, j < q - i -> nth_error l j = Some y -> eqb y x = false.
Proof.
  revert i. induction l as [|y l IH]; simpl; intros i H; [discriminate|].
  destruct (eqb y x) eqn:E.
  - inversion H; subst. rewrite Nat.sub_diag. split; [lia|]. split.
    + exists y. auto.
    + intros j y' Hj. lia.
  - apply IH in H. destruct H as (Hle & Hn & Hf).
    split; [lia|]. replace (q - i) with (S (q - S i)) by lia.
    split; [exact Hn|]. intros [|j] y' Hj; simpl.
    + intros Hc. inversion Hc; subst. exact E.
    + apply Hf. lia.
Qed.

(** It raises only when no element equals [x]. *)
Lemma index_from_none i x l :
  Py.index_from eqb i x l = None <-> (forall y, In y l -> eqb y x = false).
Proof.
  revert i. induction l as [|y l IH]; simpl; intros i.
  - split; [intros _ y []|reflexivity].
  - destruct (eqb y x) eqn:E.
    + split; [discriminate|]. intros H. rewrite (H y) in E; [discriminate|auto].
    + rewrite IH. split.
      * intros H y' [<-|Hin]; auto.
      * intros H y' Hin. apply H. auto.
Qed.

End IndexLemmas.

Lemma enumerate_from_length {A} (l : list A) : forall i,
  List.length (Py.enumerate_from i l) = List.length l.
Proof. induction l as [|x l IH]; intros i; simpl; auto. Qed.

Lemma enumerate_from_nth {A} (l : list A) : forall i k x,
  nth_error (Py.enumerate_from i l) k = Some x ->
  fst x = i + k /\ nth_error l k = Some (snd x).
Proof.
  induction l as [|y l IH]; intros i [|k] x H; simpl in *; try discriminate.
  - inversion H; subst; simpl. split; [lia|reflexivity].
  - apply IH in H. destruct H as [H1 H2]. split; [lia|exact H2].
Qed.

Lemma enumerate_from_in {A} (l : list A) i p x :
  In (p, x) (Py.enumerate_from i l) -> i <= p /\ nth_error l (p - i) = Some x.
Proof.
  intros H. apply In_nth_error in H. destruct H as [k Hk].
  apply enumerate_from_nth in Hk. simpl in Hk. destruct Hk as [-> Hk].
  split; [lia|]. replace (i + k - i) with k by lia. exact Hk.
Qed.

End PyFacts.

(** Two entries that are equal have the same number. *)
Lemma sd_device_eqb_index a b : sd_device_eqb a b = true -> index a = index b.
Proof.
  unfold sd_device_eqb. rewrite !andb_true_iff. intros H.
  repeat match goal with H : _ /\ _ |- _ => destruct H end.
  now apply Nat.eqb_eq.
Qed.


(* ===================================================================== *)
(** * The two audio filters *)
(* ===================================================================== *)

Module FilterFacts.

Lemma capture_loop devices : forall fd fn,
  CaptureApp.filter_loop devices fd fn
  = (fd ++ filter CaptureApp.selected devices,
     fn ++ map name (filter CaptureApp.selected devices)).
Proof.
  induction devices as [|dev rest IH]; intros fd fn; simpl.
  - now rewrite !app_nil_r.
  - destruct (CaptureApp.selected dev); rewrite IH; simpl.
    + now rewrite <- !app_assoc.
    + reflexivity.
Qed.

(** capture_app keeps exactly the devices its test accepts, in order. *)
Lemma capture_filtered devices :
  CaptureApp.list_audio_input_devices_filtered devices
  = (filter CaptureApp.selected devices,
     map name (filter CaptureApp.selected devices)).
Proof.
  unfold CaptureApp.list_audio_input_devices_filtered.
  rewrite capture_loop. simpl.
  destruct (filter CaptureApp.selected devices); reflexivity.
Qed.

(** guiver/main's test is the one the description gives. *)
Lemma guiver_selected_spec dev : Guiver.selected dev = spec_selected dev.
Proof.
  unfold Guiver.selected, spec_selected. simpl.
  now rewrite orb_false_r, orb_assoc.
Qed.

(** Whatever capture_app keeps, guiver/main keeps too. *)
Lemma capture_selected_guiver dev :
  CaptureApp.selected dev = true -> Guiver.selected dev = true.
Proof.
  unfold CaptureApp.selected, Guiver.selected.
  rewrite !andb_true_iff, !orb_true_iff.
  intros [Hc [[H|H]|H]]; split; auto.
  left. right. apply (PyFacts.str_in_lower "avermedia" _ H).
Qed.

Lemma guiver_loop hostapis : forall devices fd fn fi fd' fn' fi',
  Guiver.filter_loop hostapis devices fd fn fi = Some (fd', fn', fi') ->
  exists rows : list (nat * sd_device * sd_hostapi),
    fd' = fd ++ map (fun r => snd (fst r)) rows
    /\ fn' = fn ++ map (fun r => Guiver.display_name (name (snd (fst r)))
                                                     (hostapi_name (snd r))) rows
    /\ fi' = fi ++ map (fun r => fst (fst r)) rows
    /\ map (fun r => fst r) rows
       = filter (fun e => Guiver.selected (snd e)) devices
    /\ Forall (fun r => nth_error hostapis (hostapi (snd (fst r))) = Some (snd r)) rows.
Proof.
  induction devices as [|[i dev] rest IH]; intros fd fn fi fd' fn' fi' H; simpl in H.
  - inversion H; subst. exists []. simpl. now rewrite !app_nil_r.
  - simpl. destruct (Guiver.selected dev) eqn:Es.
    + destruct (nth_error hostapis (hostapi dev)) as [h|] eqn:Eh; [|discriminate].
      apply IH in H. destruct H as (rows & -> & -> & -> & Hm & Hf).
      exists ((i, dev, h) :: rows). simpl. rewrite <- !app_assoc. simpl.
      repeat split; auto. now rewrite Hm.
    + apply IH in H. destruct H as (rows & -> & -> & -> & Hm & Hf).
      exists rows. auto.
Qed.

End FilterFacts.

(** C8 (evaluated on the code): on a device list holding one input device
    named "AVerMedia Live Gamer HD 2", which the description's test selects,
    capture_app's filter returns nothing while guiver/main's filter returns
    the device: the two functions are not equivalent, because capture_app
    tests 'avermedia' against the name as it is spelled. *)
Theorem filters_differ_on_AVerMedia :
  spec_selected Samples.averMedia_card = true
  /\ CaptureApp.list_audio_input_devices_filtered [Samples.averMedia_card] = ([], [])
  /\ Guiver.list_audio_input_devices_filtered
       [Samples.averMedia_card] [mk_sd_hostapi "MME"]
     = Some ([Samples.averMedia_card], ["AVerMedia Live Gamer HD 2 (MME)"], [0]).
Proof. repeat split; reflexivity. Qed.

(* ===================================================================== *)
(** * capture_app: the chosen row and the global index *)
(* ===================================================================== *)

Module IndexFacts.

Lemma kept_positions_nth devices : forall i k dev,
  nth_error (filter CaptureApp.selected devices) k = Some dev ->
  exists p, nth_error (CaptureAppIndex.kept_positions_from i devices) k = Some p
            /\ i <= p /\ nth_error devices (p - i) = Some dev.
Proof.
  induction devices as [|d rest IH]; intros i k dev H; simpl in *.
  - destruct k; discriminate.
  - destruct (CaptureApp.selected d).
    + destruct k as [|k]; simpl in *.
      * inversion H; subst. exists i. rewrite Nat.sub_diag. auto.
      * destruct (IH (S i) k dev H) as (p & Hp & Hle & Hn).
        exists p. split; [exact Hp|]. split; [lia|].
        replace (p - i) with (S (p - S i)) by lia. exact Hn.
    + destruct (IH (S i) k dev H) as (p & Hp & Hle & Hn).
      exists p. split; [exact Hp|]. split; [lia|].
      replace (p - i) with (S (p - S i)) by lia. exact Hn.
Qed.

(** What [all_devices.index(dev)] returns when [all_devices] is an
    enumeration: the number of [dev], if the entry there equals [dev]. *)
Lemma index_in_enumeration all_devices dev q :
  enumeration all_devices ->
  Py.index sd_device_eqb all_devices dev = Some q -> q = index dev.
Proof.
  intros He Hq. unfold Py.index in Hq.
  destruct (PyFacts.index_from_some sd_device_eqb 0 dev all_devices q Hq)
    as (_ & (y & Hy & Heq) & _).
  rewrite Nat.sub_0_r in Hy. apply sd_device_eqb_index in Heq.
  rewrite <- Heq. symmetry. apply (He q y Hy).
Qed.



(** The sample enumeration is one. *)
Lemma four_devices_enumeration : enumeration Samples.four_devices.
Proof.
  intros i dev H.
  do 4 (destruct i as [|i]; [inversion H; reflexivity|]).
  destruct i; discriminate.
Qed.

End IndexFacts.



(* ===================================================================== *)
(** * guiver/main: the combined audio list *)
(* ===================================================================== *)

Module CombineFacts.
Import GuiverAudio RtRows.

Lemma lists_of_rows_app rows r :
  lists_of_rows (rows ++ [r])
  = mk_rt_lists
      (rt_devices (lists_of_rows rows) ++ [row_info r])
      (rt_names (lists_of_rows rows)
         ++ [Guiver.display_name (rt_name (row_info r)) (row_api_name r)])
      (rt_indices (lists_of_rows rows) ++ [row_index r])
      (rt_apis (lists_of_rows rows) ++ [row_api r]).
Proof. unfold lists_of_rows. simpl. now rewrite !map_app. Qed.

Lemma device_loop_rows m preferred api_nm api :
  In api_nm preferred ->
  get_rtmixer_api_by_name (Some m) api_nm = Returns (Some api) ->
  forall infos rows,
    (forall i info, In (i, info) infos ->
                    nth_error (mixer_devices m api) i = Some info) ->
    Forall (row_ok m preferred) rows ->
    exists rows',
      device_loop api_nm api infos (lists_of_rows rows) = lists_of_rows rows'
      /\ Forall (row_ok m preferred) rows'.
Proof.
  intros Hin Hget. induction infos as [|[i info] rest IH]; intros rows Hinfos Hrows; simpl.
  - exists rows. auto.
  - assert (Hrest : forall i0 info0, In (i0, info0) rest ->
                                     nth_error (mixer_devices m api) i0 = Some info0)
      by (intros; apply Hinfos; right; assumption).
    destruct (0 <? inputChannels info)%Z eqn:Ec.
    + match goal with
      | |- context [device_loop _ _ _ ?acc] =>
          replace acc with (lists_of_rows (rows ++ [(info, api_nm, i, api)]))
            by (rewrite lists_of_rows_app; reflexivity)
      end.
      apply IH; [exact Hrest|].
      apply Forall_app. split; [exact Hrows|]. constructor; [|constructor].
      unfold row_ok; simpl. repeat split; auto.
      * apply Hinfos. left. reflexivity.
      * apply Z.ltb_lt. exact Ec.
    + apply IH; assumption.
Qed.

Lemma api_loop_rows m preferred : forall names rows rt,
  incl names preferred ->
  Forall (row_ok m preferred) rows ->
  api_loop m names (lists_of_rows rows) = Returns rt ->
  exists rows',
    rt = lists_of_rows rows' /\ Forall (row_ok m preferred) rows'.
Proof.
  induction names as [|nm rest IH]; intros rows rt Hincl Hrows Hrt;
    cbn [api_loop] in Hrt.
  - inversion Hrt; subst. exists rows. auto.
  - assert (Hrest : incl rest preferred)
      by (intros x Hx; apply Hincl; right; assumption).
    destruct (get_rtmixer_api_by_name (Some m) nm) as [[api|]|] eqn:Ef;
      [| |discriminate].
    + destruct (device_loop_rows m preferred nm api
                  (Hincl nm (or_introl eq_refl)) Ef
                  (Py.enumerate (mixer_devices m api)) rows)
        as (rows1 & Hrows1 & Hok1); auto.
      * intros i info Hi. apply PyFacts.enumerate_from_in in Hi.
        destruct Hi as [_ Hi]. now rewrite Nat.sub_0_r in Hi.
      * rewrite Hrows1 in Hrt. apply (IH rows1 rt Hrest Hok1 Hrt).
    + apply (IH rows rt); assumption.
Qed.

(** When the enumeration returns, its four lists are the columns of one
    list of rows, each row a real input device. *)
Lemma list_rtmixer_rows rtmixer preferred rt :
  list_rtmixer_devices_by_apis rtmixer preferred = Returns rt ->
  exists rows,
    rt = lists_of_rows rows
    /\ match rtmixer with
       | Some m => Forall (row_ok m preferred) rows
       | None => rows = []
       end.
Proof.
  destruct rtmixer as [m|]; simpl; intros Hrt.
  - apply (api_loop_rows m preferred preferred [] rt); auto.
    + apply incl_refl.
  - inversion Hrt; subst. exists []. split; reflexivity.
Qed.

Lemma mark_loop_closed suffix source : forall names all_names sources,
  mark_loop names suffix source all_names sources
  = (all_names ++ map (fun nm => (nm ++ suffix)%string) names,
     sources ++ map (fun _ => source) names).
Proof.
  induction names as [|nm rest IH]; intros all_names sources; simpl.
  - now rewrite !app_nil_r.
  - rewrite IH, <- !app_assoc. reflexivity.
Qed.

Lemma combine_audio_closed rtmixer_names fallback_names :
  combine_audio rtmixer_names fallback_names
  = (map (fun nm => (nm ++ " [RtMixer]")%string) rtmixer_names
       ++ map (fun nm => (nm ++ " [SoundDevice]")%string) fallback_names,
     map (fun _ => "rtmixer") rtmixer_names
       ++ map (fun _ => "sounddevice") fallback_names).
Proof.
  unfold combine_audio. rewrite mark_loop_closed. simpl.
  now rewrite mark_loop_closed.
Qed.

Lemma nth_error_const {A B} (l : list A) (c : B) i :
  i < List.length l -> nth_error (map (fun _ => c) l) i = Some c.
Proof.
  revert i. induction l as [|x l IH]; intros [|i] H; simpl in *; try lia; auto.
  apply IH. lia.
Qed.

Lemma nth_error_const_inv {A B} (l : list A) (c d : B) i :
  nth_error (map (fun _ => c) l) i = Some d -> d = c /\ i < List.length l.
Proof.
  revert i. induction l as [|x l IH]; intros [|i] H; simpl in *; try discriminate.
  - inversion H. split; [reflexivity|lia].
  - apply IH in H. destruct H. split; [assumption|lia].
Qed.

End CombineFacts.

(** C9: in guiver/main the combined audio list stays aligned.  The name list
    and the source list have the same length, the rtmixer rows come first and
    are marked 'rtmixer', the others are marked 'sounddevice'.  For a chosen
    row marked 'sounddevice', [audio_choice - len(rtmixer_indices)] is a valid
    subscript of [fallback_indices] and the thread gets the global index of
    the sounddevice device whose name the row displays; for a chosen row
    marked 'rtmixer', [rtmixer_indices[audio_choice]] and
    [rtmixer_apis[audio_choice]] exist and are the mixer index and the API of
    the device whose name the row displays. *)
Theorem combined_audio_lists_aligned :
  forall (rtmixer : option rtmixer_module)
         (devices : list sd_device) (hostapis : list sd_hostapi)
         (fallback_devices : list sd_device) (fallback_names : list string)
         (fallback_indices : list nat)
         (rt : GuiverAudio.rt_lists)
         (all_audio_names device_source : list string)
         (audio_choice : nat),
    GuiverAudio.list_rtmixer_devices_by_apis rtmixer
      GuiverAudio.preferred_api_names = Returns rt ->
    Guiver.list_audio_input_devices_filtered devices hostapis
    = Some (fallback_devices, fallback_names, fallback_indices) ->
    GuiverAudio.combine_audio (GuiverAudio.rt_names rt) fallback_names
    = (all_audio_names, device_source) ->
    audio_choice < List.length all_audio_names ->
    List.length all_audio_names = List.length device_source
    /\ (forall i, i < List.length (GuiverAudio.rt_names rt) ->
                  nth_error device_source i = Some "rtmixer")
    /\ (forall i, List.length (GuiverAudio.rt_names rt) <= i < List.length device_source ->
                  nth_error device_source i = Some "sounddevice")
    /\ (nth_error device_source audio_choice = Some "sounddevice" ->
        (0 <= Z.of_nat audio_choice - Z.of_nat (List.length (GuiverAudio.rt_indices rt))
         < Z.of_nat (List.length fallback_indices))%Z
        /\ exists global_index dev h,
            GuiverAudio.make_audio_thread device_source
              (GuiverAudio.rt_indices rt) (GuiverAudio.rt_apis rt)
              fallback_indices audio_choice
            = Some (GuiverAudio.AudioStreamSD global_index)
            /\ nth_error fallback_indices
                 (audio_choice - List.length (GuiverAudio.rt_indices rt))
               = Some global_index
            /\ nth_error devices global_index = Some dev
            /\ nth_error hostapis (hostapi dev) = Some h
            /\ nth_error all_audio_names audio_choice
               = Some (Guiver.display_name (name dev) (hostapi_name h)
                         ++ " [SoundDevice]")%string)
    /\ (nth_error device_source audio_choice = Some "rtmixer" ->
        audio_choice < List.length (GuiverAudio.rt_indices rt)
        /\ audio_choice < List.length (GuiverAudio.rt_apis rt)
        /\ exists mixer_index api info api_nm m,
            rtmixer = Some m
            /\ GuiverAudio.make_audio_thread device_source
                 (GuiverAudio.rt_indices rt) (GuiverAudio.rt_apis rt)
                 fallback_indices audio_choice
               = Some (GuiverAudio.AudioStreamRTMixer mixer_index api)
            /\ nth_error (GuiverAudio.rt_indices rt) audio_choice = Some mixer_index
            /\ nth_error (GuiverAudio.rt_apis rt) audio_choice = Some api
            /\ GuiverAudio.get_rtmixer_api_by_name rtmixer api_nm
               = Returns (Some api)
            /\ nth_error (mixer_devices m api) mixer_index = Some info
            /\ nth_error all_audio_names audio_choice
               = Some (Guiver.display_name (rt_name info) api_nm
                         ++ " [RtMixer]")%string).
Proof.
  intros rtmixer devices hostapis fd fn fi rt names sources c Hrt Hfb Hcomb Hc.
  destruct (CombineFacts.list_rtmixer_rows rtmixer GuiverAudio.preferred_api_names
              rt Hrt)
    as (rows & Hrows & Hok).
  subst rt. clear Hrt.
  unfold Guiver.list_audio_input_devices_filtered in Hfb.
  apply FilterFacts.guiver_loop in Hfb.
  destruct Hfb as (frows & -> & -> & -> & Hm & Hf). cbn [app] in *.
  rewrite CombineFacts.combine_audio_closed in Hcomb.
  inversion Hcomb; subst names sources; clear Hcomb.
  unfold RtRows.lists_of_rows in *. simpl GuiverAudio.rt_names in *.
  simpl GuiverAudio.rt_indices. simpl GuiverAudio.rt_apis.
  rewrite !length_app, !length_map in *.
  split; [reflexivity|].
  split.
  { intros i Hi. rewrite nth_error_app1 by (rewrite !length_map; lia).
    apply (CombineFacts.nth_error_const (map _ rows)). rewrite length_map. lia. }
  split.
  { intros i Hi. rewrite nth_error_app2 by (rewrite !length_map; lia).
    rewrite (CombineFacts.nth_error_const (map _ frows)); [reflexivity|].
    rewrite !length_map. lia. }
  split.
  - intros Hsrc.
    assert (Hge : List.length rows <= c).
    { destruct (Nat.le_gt_cases (List.length rows) c) as [|Hlt]; [assumption|].
      rewrite nth_error_app1 in Hsrc by (rewrite !length_map; lia).
      apply CombineFacts.nth_error_const_inv in Hsrc. destruct Hsrc; discriminate. }
    split; [lia|].
    destruct (nth_error frows (c - List.length rows)) as [[[gi dev] h]|] eqn:Er;
      [|apply nth_error_None in Er; lia].
    exists gi, dev, h.
    assert (Hgi : nth_error (map (fun r : nat * sd_device * sd_hostapi => fst (fst r)) frows)
                            (c - List.length rows) = Some gi)
      by (rewrite nth_error_map, Er; reflexivity).
    split.
    { unfold GuiverAudio.make_audio_thread. rewrite Hsrc. simpl String.eqb.
      rewrite length_map. unfold GuiverAudio.subscript.
      destruct (0 <=? Z.of_nat c - Z.of_nat (List.length rows))%Z eqn:E0;
        [|apply Z.leb_gt in E0; lia].
      replace (Z.to_nat (Z.of_nat c - Z.of_nat (List.length rows)))
        with (c - List.length rows) by lia.
      rewrite ?app_nil_l. now rewrite Hgi. }
    split; [exact Hgi|].
    assert (Hin : In (gi, dev) (filter (fun e => Guiver.selected (snd e))
                                       (Py.enumerate devices))).
    { rewrite <- Hm. apply in_map_iff. exists (gi, dev, h). split; [reflexivity|].
      eapply nth_error_In; exact Er. }
    apply filter_In in Hin. destruct Hin as [Hin _].
    apply PyFacts.enumerate_from_in in Hin. destruct Hin as [_ Hin].
    rewrite Nat.sub_0_r in Hin.
    split; [exact Hin|].
    split.
    { rewrite Forall_forall in Hf. apply (Hf (gi, dev, h)).
      eapply nth_error_In; exact Er. }
    rewrite nth_error_app2 by (rewrite !length_map; lia).
    rewrite !length_map, !nth_error_map, Er. reflexivity.
  - intros Hsrc.
    assert (Hlt : c < List.length rows).
    { destruct (Nat.le_gt_cases (List.length rows) c) as [Hge|]; [|assumption].
      rewrite nth_error_app2 in Hsrc by (rewrite !length_map; lia).
      apply CombineFacts.nth_error_const_inv in Hsrc. destruct Hsrc; discriminate. }
    split; [lia|]. split; [lia|].
    destruct (nth_error rows c) as [[[[info api_nm] i] api]|] eqn:Er;
      [|apply nth_error_None in Er; lia].
    destruct rtmixer as [m|]; [|subst rows; destruct c; discriminate].
    rewrite Forall_forall in Hok.
    destruct (Hok (info, api_nm, i, api) (nth_error_In _ _ Er)) as (_ & Hget & Hdev & _).
    unfold RtRows.row_api_name, RtRows.row_api, RtRows.row_index, RtRows.row_info in *.
    simpl in Hget, Hdev.
    assert (Hi : nth_error (map RtRows.row_index rows) c = Some i)
      by (rewrite nth_error_map, Er; reflexivity).
    assert (Ha : nth_error (map RtRows.row_api rows) c = Some api)
      by (rewrite nth_error_map, Er; reflexivity).
    exists i, api, info, api_nm, m.
    split; [reflexivity|].
    split.
    { unfold GuiverAudio.make_audio_thread. rewrite Hsrc. simpl String.eqb.
      unfold RtRows.row_index, RtRows.row_api in Hi, Ha. now rewrite Hi, Ha. }
    split; [exact Hi|]. split; [exact Ha|].
    split; [exact Hget|]. split; [exact Hdev|].
    rewrite nth_error_app1 by (rewrite !length_map; lia).
    rewrite !nth_error_map, Er. reflexivity.
Qed.

(** The statement at the sample machine.  Without the rtmixer module the
    dialog has the three sounddevice rows, and the third one is the device of
    global index 3.  With a module that offers the host APIs the code asks
    for, one rtmixer row comes before them, and the third row of the dialog
    is the device of global index 2. *)
Lemma combined_audio_lists_aligned_witness :
  (GuiverAudio.list_rtmixer_devices_by_apis None GuiverAudio.preferred_api_names
   = Returns (GuiverAudio.mk_rt_lists [] [] [] [])
   /\ Guiver.list_audio_input_devices_filtered Samples.four_devices RtSamples.hostapis
      = Some ([Samples.averMedia_card; Samples.twin_in; Samples.evga_card],
              ["AVerMedia Live Gamer HD 2 (MME)"; "Elgato Wave (MME)";
               "EVGA XR1 (Windows WASAPI)"],
              [0; 2; 3])
   /\ GuiverAudio.combine_audio []
        ["AVerMedia Live Gamer HD 2 (MME)"; "Elgato Wave (MME)";
         "EVGA XR1 (Windows WASAPI)"]
      = (["AVerMedia Live Gamer HD 2 (MME) [SoundDevice]";
          "Elgato Wave (MME) [SoundDevice]";
          "EVGA XR1 (Windows WASAPI) [SoundDevice]"],
         ["sounddevice"; "sounddevice"; "sounddevice"])
   /\ 2 < 3
   /\ GuiverAudio.make_audio_thread
        ["sounddevice"; "sounddevice"; "sounddevice"] [] [] [0; 2; 3] 2
      = Some (GuiverAudio.AudioStreamSD 3))
  /\ GuiverAudio.list_rtmixer_devices_by_apis (Some RtSamples.rtmixer)
       GuiverAudio.preferred_api_names
     = Returns (GuiverAudio.mk_rt_lists [mk_rt_info "Line In" 2] ["Line In (WASAPI)"]
                                        [1] [RtSamples.wasapi])
  /\ GuiverAudio.combine_audio
       ["Line In (WASAPI)"]
       ["AVerMedia Live Gamer HD 2 (MME)"; "Elgato Wave (MME)";
        "EVGA XR1 (Windows WASAPI)"]
     = (["Line In (WASAPI) [RtMixer]";
         "AVerMedia Live Gamer HD 2 (MME) [SoundDevice]";
         "Elgato Wave (MME) [SoundDevice]";
         "EVGA XR1 (Windows WASAPI) [SoundDevice]"],
        ["rtmixer"; "sounddevice"; "sounddevice"; "sounddevice"])
  /\ 2 < 4
  /\ GuiverAudio.make_audio_thread
       ["rtmixer"; "sounddevice"; "sounddevice"; "sounddevice"]
       [1] [RtSamples.wasapi] [0; 2; 3] 2
     = Some (GuiverAudio.AudioStreamSD 2).
Proof.
  split.
  { split; [reflexivity|]. split; [reflexivity|]. split; [reflexivity|].
    split; [lia|].
    destruct (combined_audio_lists_aligned
                None Samples.four_devices RtSamples.hostapis
                [Samples.averMedia_card; Samples.twin_in; Samples.evga_card]
                ["AVerMedia Live Gamer HD 2 (MME)"; "Elgato Wave (MME)";
                 "EVGA XR1 (Windows WASAPI)"]
                [0; 2; 3]
                (GuiverAudio.mk_rt_lists [] [] [] [])
                ["AVerMedia Live Gamer HD 2 (MME) [SoundDevice]";
                 "Elgato Wave (MME) [SoundDevice]";
                 "EVGA XR1 (Windows WASAPI) [SoundDevice]"]
                ["sounddevice"; "sounddevice"; "sounddevice"]
                2 eq_refl eq_refl eq_refl)
      as (_ & _ & _ & Hsd & _).
    - simpl. lia.
    - destruct (Hsd eq_refl) as (_ & gi & dev & h & Hmk & Hgi & _).
      simpl in Hgi. inversion Hgi; subst gi. exact Hmk. }
  split; [reflexivity|]. split; [reflexivity|]. split; [lia|].
  destruct (combined_audio_lists_aligned
              (Some RtSamples.rtmixer) Samples.four_devices RtSamples.hostapis
              [Samples.averMedia_card; Samples.twin_in; Samples.evga_card]
              ["AVerMedia Live Gamer HD 2 (MME)"; "Elgato Wave (MME)";
               "EVGA XR1 (Windows WASAPI)"]
              [0; 2; 3]
              (GuiverAudio.mk_rt_lists [mk_rt_info "Line In" 2] ["Line In (WASAPI)"]
                                       [1] [RtSamples.wasapi])
              ["Line In (WASAPI) [RtMixer]";
               "AVerMedia Live Gamer HD 2 (MME) [SoundDevice]";
               "Elgato Wave (MME) [SoundDevice]";
               "EVGA XR1 (Windows WASAPI) [SoundDevice]"]
              ["rtmixer"; "sounddevice"; "sounddevice"; "sounddevice"]
              2 eq_refl eq_refl eq_refl)
    as (_ & _ & _ & Hsd & _).
  - simpl. lia.
  - destruct (Hsd eq_refl) as (_ & gi & dev & h & Hmk & Hgi & _).
    simpl in Hgi. inversion Hgi; subst gi. exact Hmk.
Defined.

(* ===================================================================== *)
(** * The selection prompts *)
(* ===================================================================== *)

Module PromptFacts.
Import Prompt.

Lemma to_uint_nonnil n : Nat.to_uint n <> Nil.
Proof.
  rewrite <- (DecimalNat.Unsigned.of_to n) at 1.
  rewrite DecimalNat.Unsigned.to_of. apply DecimalFacts.unorm_nonnil.
Qed.

(** [int(str(n)) == n] *)
Lemma int_of_str_of_nat n : Py.int_of_str (Py.str_of_nat n) = Some n.
Proof.
  unfold Py.int_of_str, Py.str_of_nat.
  rewrite NilZero.usu by apply to_uint_nonnil.
  now rewrite DecimalNat.Unsigned.of_to.
Qed.

Lemma split_head_digits d rest :
  Py.split_head ":" (NilEmpty.string_of_uint d ++ String ":" rest)
  = NilEmpty.string_of_uint d.
Proof.
  induction d; simpl; try rewrite IHd; reflexivity.
Qed.

(** [(str(n) + ": " + name).split(":")[0] == str(n)], whatever the name. *)
Lemma split_head_numbered n nm :
  Py.split_head ":" (Py.str_of_nat n ++ ": " ++ nm) = Py.str_of_nat n.
Proof.
  unfold Py.str_of_nat, NilZero.string_of_uint.
  pose proof (to_uint_nonnil n) as Hn.
  destruct (Nat.to_uint n) eqn:E; try congruence;
    rewrite <- E; apply (split_head_digits (Nat.to_uint n)).
Qed.

Lemma numbered_nth options k :
  k < List.length options ->
  exists nm, nth_error options k = Some nm
             /\ nth k (numbered options) "" = (Py.str_of_nat k ++ ": " ++ nm)%string.
Proof.
  intros Hk. unfold numbered.
  destruct (nth_error (Py.enumerate options) k) as [[i nm]|] eqn:E.
  - destruct (PyFacts.enumerate_from_nth options 0 k (i, nm) E) as [Hi Hn].
    simpl in Hi, Hn. subst i. exists nm. split; [exact Hn|].
    apply nth_error_nth. rewrite nth_error_map, E. reflexivity.
  - exfalso. apply nth_error_None in E.
    unfold Py.enumerate in E. rewrite PyFacts.enumerate_from_length in E. lia.
Qed.

Lemma numbered_length options : List.length (numbered options) = List.length options.
Proof.
  unfold numbered, Py.enumerate. rewrite length_map.
  apply PyFacts.enumerate_from_length.
Qed.

Lemma str_of_nat_nonempty n nm :
  String.eqb (Py.str_of_nat n ++ ": " ++ nm) "" = false.
Proof.
  unfold Py.str_of_nat, NilZero.string_of_uint.
  pose proof (to_uint_nonnil n).
  destruct (Nat.to_uint n); try congruence; reflexivity.
Qed.

(** The dialog prompt returns the row the user accepted. *)
Lemma prompt_selection_gui_accepts options device_type k :
  k < List.length options ->
  prompt_selection_gui options device_type (Some k)
  = ([GetItem (numbered options)], Ret k).
Proof.
  intros Hk. destruct (numbered_nth options k Hk) as (nm & _ & Hitem).
  unfold prompt_selection_gui, getItem. rewrite Hitem.
  rewrite str_of_nat_nonempty, split_head_numbered, int_of_str_of_nat.
  reflexivity.
Qed.

(** Anything else ends the process. *)
Lemma prompt_selection_gui_rejects options device_type answer :
  (forall k, answer = Some k -> List.length options <= k) ->
  prompt_selection_gui options device_type answer
  = ([GetItem (numbered options);
      Critical "Error" ("No " ++ device_type ++ " device selected. Exiting.")%string;
      Exit 1%Z],
     SysExit 1%Z).
Proof.
  intros H. unfold prompt_selection_gui, getItem.
  destruct answer as [k|]; [|reflexivity].
  rewrite nth_overflow by (rewrite numbered_length; auto). reflexivity.
Qed.

Lemma prompt_selection_returns max_index device_type : forall stdin tr choice rest,
  prompt_selection max_index device_type stdin = (tr, Ret (choice, rest)) ->
  (0 <= choice < max_index)%Z
  /\ exists skipped, stdin = skipped ++ Some choice :: rest
                     /\ Forall (Prompt.turned_down max_index) skipped.
Proof.
  induction stdin as [|[z|] stdin IH]; intros tr choice rest H; simpl in H.
  - discriminate.
  - destruct ((0 <=? z) && (z <? max_index))%Z eqn:E.
    + inversion H; subst. apply andb_true_iff in E. destruct E as [E1 E2].
      apply Z.leb_le in E1. apply Z.ltb_lt in E2. split; [lia|].
      exists []. split; [reflexivity|constructor].
    + destruct (prompt_selection max_index device_type stdin) as [tr' [[c r]|e|code]] eqn:Ep;
        simpl in H; inversion H; subst.
      destruct (IH _ _ _ eq_refl) as (Hr & skipped & -> & Hs).
      split; [exact Hr|]. exists (Some z :: skipped). split; [reflexivity|].
      constructor; [|exact Hs]. simpl. intros Hz.
      apply andb_false_iff in E. destruct E as [E|E];
        [apply Z.leb_gt in E|apply Z.ltb_ge in E]; lia.
    - destruct (prompt_selection max_index device_type stdin) as [tr' [[c r]|e|code]] eqn:Ep;
        simpl in H; inversion H; subst.
      destruct (IH _ _ _ eq_refl) as (Hr & skipped & -> & Hs).
      split; [exact Hr|]. exists (None :: skipped). split; [reflexivity|].
      constructor; [exact I|exact Hs].
Qed.

Lemma prompt_selection_finds max_index device_type : forall skipped choice rest,
  Forall (Prompt.turned_down max_index) skipped ->
  (0 <= choice < max_index)%Z ->
  exists tr, prompt_selection max_index device_type (skipped ++ Some choice :: rest)
             = (tr, Ret (choice, rest)).
Proof.
  induction skipped as [|[z|] skipped IH]; intros choice rest Hs Hc; simpl.
  - assert (E : ((0 <=? choice) && (choice <? max_index))%Z = true).
    { apply andb_true_iff. split; [apply Z.leb_le|apply Z.ltb_lt]; lia. }
    rewrite E. eexists. reflexivity.
  - inversion Hs as [|? ? Hz Hs']; subst. simpl in Hz.
    assert (E : ((0 <=? z) && (z <? max_index))%Z = false).
    { apply andb_false_iff.
      destruct (Z.leb_spec 0 z); [right; apply Z.ltb_ge; lia|left; reflexivity]. }
    rewrite E. destruct (IH choice rest Hs' Hc) as [tr ->]. eexists. reflexivity.
  - inversion Hs as [|? ? Hz Hs']; subst.
    destruct (IH choice rest Hs' Hc) as [tr ->]. eexists. reflexivity.
Qed.

End PromptFacts.

(** C4: for every list of devices put before the user, whichever of the two
    selection prompts returns (the console prompt of capture_app, the dialog
    prompt of guiver/main), the index it returns is one of the listed rows,
    [0 <= i < n]; lines that are not numbers or are out of range are never
    returned. *)
Theorem device_prompt_in_range :
  forall (options : list string) (device_type : string)
         (stdin : list (option Z)) (answer : option nat)
         (tr : list event) (i : Z),
    (exists rest,
        Prompt.prompt_selection (Z.of_nat (List.length options)) device_type stdin
        = (tr, Ret (i, rest)))
    \/ (exists k,
           Prompt.prompt_selection_gui options device_type answer = (tr, Ret k)
           /\ i = Z.of_nat k) ->
    (0 <= i < Z.of_nat (List.length options))%Z.
Proof.
  intros options device_type stdin answer tr i [[rest H]|(k & H & ->)].
  - apply PromptFacts.prompt_selection_returns in H. tauto.
  - assert (Hk : k < List.length options); [|lia].
    destruct answer as [k'|].
    + destruct (Nat.lt_ge_cases k' (List.length options)) as [Hlt|Hge].
      * rewrite (PromptFacts.prompt_selection_gui_accepts _ _ _ Hlt) in H.
        inversion H; subst. exact Hlt.
      * rewrite PromptFacts.prompt_selection_gui_rejects in H; [discriminate|].
        intros k0 E. inversion E; subst. exact Hge.
    + rewrite PromptFacts.prompt_selection_gui_rejects in H; [discriminate|].
      intros k0 E. discriminate.
Qed.

(** The statement at a list of three devices, the user typing "x", "5" and
    then "2" at the console. *)
Lemma device_prompt_in_range_witness :
  Prompt.prompt_selection 3 "video" [None; Some 5%Z; Some 2%Z; Some 0%Z]
  = ([Input "Select video device number: ";
      Print "Invalid input. Please enter a number.";
      Input "Select video device number: ";
      Print "Invalid selection. Please enter one of the listed numbers.";
      Input "Select video device number: "],
     Ret (2%Z, [Some 0%Z]))
  /\ (0 <= 2 < Z.of_nat (List.length ["cam A"; "cam B"; "cam C"]))%Z.
Proof.
  split; [reflexivity|].
  apply (device_prompt_in_range ["cam A"; "cam B"; "cam C"] "video"
           [None; Some 5%Z; Some 2%Z; Some 0%Z] None
           [Input "Select video device number: ";
            Print "Invalid input. Please enter a number.";
            Input "Select video device number: ";
            Print "Invalid selection. Please enter one of the listed numbers.";
            Input "Select video device number: "] 2%Z).
  left. exists [Some 0%Z]. reflexivity.
Defined.

(* ===================================================================== *)
(** * The running application *)
(* ===================================================================== *)

Module StepFacts.

Lemma report_not_closing app line : Run.closes (report app line) = false.
Proof. destruct app; reflexivity. Qed.

Ltac not_closing :=
  repeat first
    [ apply Forall_nil
    | apply Forall_cons; [first [apply report_not_closing | reflexivity]|]
    | apply Forall_app; split ].

(** The worker threads and the callback never close a window. *)
Lemma video_step_events l running cv pc :
  Forall (fun e => Run.closes e = false) (fst (VideoThread.step l running cv pc)).
Proof.
  destruct pc; unfold VideoThread.step.
  - unfold VideoThread.open.
    destruct (dshow_opens cv), (msmf_opens cv); cbv beta iota zeta; cbn [fst];
      not_closing.
  - unfold VideoThread.test.
    destruct (running && cap_is_opened cv); cbn [fst]; not_closing.
  - unfold VideoThread.body, VideoThread.fps_events.
    destruct (read_ret cv); cbn [fst]; not_closing.
    destruct (launched l), (fps_report cv) as [[? []]|]; not_closing.
  - apply Forall_nil.
Qed.

Lemma audio_step_events l running au pc sh :
  Forall (fun e => Run.closes e = false)
         (fst (fst (AudioThread.step l running au pc sh))).
Proof.
  unfold AudioThread.step, AudioThread.step_sounddevice, AudioThread.step_rtmixer.
  destruct (launched l), pc, (rtmixer_is_none au), (open_error au),
    (start_error au), (exit_error au), running, (stream_on sh);
    cbn [fst andb]; not_closing.
Qed.

Lemma callback_events app status :
  Forall (fun e => Run.closes e = false) (AudioThread.callback app status).
Proof. destruct app, status; simpl; repeat constructor. Qed.

(** In the sounddevice classes the stream is on only while the thread is in
    its loop. *)
Lemma sounddevice_stream l running au pc sh :
  launched l <> guiver_rtmixer ->
  (stream_on sh = true -> pc = A_loop) ->
  stream_on (snd (AudioThread.step l running au pc sh)) = true ->
  snd (fst (AudioThread.step l running au pc sh)) = A_loop.
Proof.
  unfold AudioThread.step, AudioThread.step_sounddevice.
  intros Hl Hs.
  destruct (launched l); try congruence;
    destruct pc, (open_error au), running; cbn [fst snd stream_on];
      auto; try discriminate; intros H; specialize (Hs H); discriminate.
Qed.

(** The close handlers do not depend on the fuel once it is 3. *)
Lemma close_fuel n app wd :
  Gui.close (3 + n) app wd (Gui.shown app) = Gui.close 3 app wd (Gui.shown app).
Proof. destruct app, wd, n; reflexivity. Qed.

End StepFacts.

Module Shutdown.
Import Run Handler.

Section Invariant.
Variable l : launch.
Variable watch : actor -> bool.

(** Either the stream lives inside the audio thread's [run] (the
    sounddevice classes), or the callback is not among the watched actors. *)
Hypothesis scope : launched l <> guiver_rtmixer \/ watch By_callback = false.

Local Abbreviation handler_ok := Invariant.handler_ok.
Local Abbreviation inv := (Invariant.inv l).
Local Abbreviation quiet := (Invariant.quiet watch).
Local Abbreviation outcome_ok := (Invariant.outcome_ok watch).

Lemma inv_init : inv (init (launched l)).
Proof. split; simpl; [discriminate|auto]. Qed.

Lemma close_event_ok wd calls ws :
  Gui.is_visible (Gui.shown (launched l)) wd = true ->
  Gui.close 3 (launched l) wd (Gui.shown (launched l)) = (calls, ws) ->
  waits_first Video calls = true /\ waits_first Audio calls = true
  /\ quiet_tail calls = true.
Proof.
  destruct (launched l), wd; simpl; intros Hv H; try discriminate;
    inversion H; subst; repeat split; reflexivity.
Qed.

Lemma step_video cv s a evs s' :
  inv s -> step l (C_video cv) s = Some (a, evs, s') ->
  inv s' /\ outcome_ok s a evs s'.
Proof.
  destruct s as [rv ra v au sh g ws cl]. unfold step, inv, outcome_ok.
  cbn -[VideoThread.step]. intros [Hs Hg] H.
  assert (Hstep : exists pc',
             v <> V_finished
             /\ a = By_video /\ evs = fst (VideoThread.step l rv cv v)
             /\ s' = mk_system rv ra pc' au sh g ws cl /\ g <> G_exited).
  { destruct g; try discriminate;
      destruct v; try discriminate;
        match type of H with
        | context [VideoThread.step ?a ?b ?c ?d] =>
            destruct (VideoThread.step a b c d) as [evs0 pc'] eqn:E
        end; inversion H; subst; exists pc'; repeat split; discriminate. }
  destruct Hstep as (pc' & Hv & -> & -> & -> & Hgx). clear H.
  pose proof (StepFacts.video_step_events l rv cv v) as Hev.
  cbn. split; [split; [exact Hs|]|].
  - destruct g as [|calls|]; [exact Hg| |congruence].
    destruct cl.
    + destruct Hg as (Hf & _). cbn in Hf. destruct v; congruence.
    + destruct Hg as (H1 & H2 & H3). unfold handler_ok. cbn in *.
      repeat split; auto.
      destruct v; try congruence; cbn in H1; rewrite H1; apply orb_true_r.
  - destruct cl; [|left; auto].
    destruct g as [|calls|]; [destruct Hg; discriminate| |congruence].
    destruct Hg as (Hf & _). cbn in Hf. destruct v; congruence.
Qed.

Lemma step_audio au s a evs s' :
  inv s -> step l (C_audio au) s = Some (a, evs, s') ->
  inv s' /\ outcome_ok s a evs s'.
Proof.
  destruct s as [rv ra v pc sh g ws cl]. unfold step, inv, outcome_ok.
  cbn -[AudioThread.step]. intros [Hs Hg] H.
  assert (Hstep : pc <> A_finished
                  /\ a = By_audio
                  /\ evs = fst (fst (AudioThread.step l ra au pc sh))
                  /\ s' = mk_system rv ra v
                             (snd (fst (AudioThread.step l ra au pc sh)))
                             (snd (AudioThread.step l ra au pc sh)) g ws cl
                  /\ g <> G_exited).
  { destruct g; try discriminate;
      destruct pc; try discriminate;
        match type of H with
        | context [AudioThread.step ?a ?b ?c ?d ?e] =>
            destruct (AudioThread.step a b c d e) as [[evs0 pc'] sh'] eqn:E
        end; inversion H; subst; repeat split; discriminate. }
  destruct Hstep as (Hpc & -> & -> & -> & Hgx). clear H.
  pose proof (StepFacts.audio_step_events l ra au pc sh) as Hev.
  cbn -[AudioThread.step]. split; [split|].
  - intros Hl. apply StepFacts.sounddevice_stream; auto.
  - destruct g as [|calls|]; [exact Hg| |congruence].
    destruct cl.
    + destruct Hg as (_ & Hf & _). cbn in Hf. destruct pc; congruence.
    + destruct Hg as (H1 & H2 & H3). unfold handler_ok. cbn -[AudioThread.step] in *.
      repeat split; auto.
      destruct pc; try congruence; cbn in H2; rewrite H2; apply orb_true_r.
  - destruct cl; [|left; auto].
    destruct g as [|calls|]; [destruct Hg; discriminate| |congruence].
    destruct Hg as (_ & Hf & _). cbn in Hf. destruct pc; congruence.
Qed.

Lemma step_callback status s a evs s' :
  inv s -> step l (C_callback status) s = Some (a, evs, s') ->
  inv s' /\ outcome_ok s a evs s'.
Proof.
  destruct s as [rv ra v pc sh g ws cl]. unfold step, inv, outcome_ok. cbn.
  intros [Hs Hg] H.
  assert (Hstep : stream_on sh = true /\ a = By_callback
                  /\ evs = AudioThread.callback (launched l) status
                  /\ s' = mk_system rv ra v pc sh g ws cl /\ g <> G_exited).
  { destruct g; try discriminate; destruct (stream_on sh); try discriminate;
      inversion H; subst; repeat split; discriminate. }
  destruct Hstep as (Hon & -> & -> & -> & Hgx). clear H.
  cbn. split; [split; assumption|].
  destruct cl; [|left; split; [reflexivity|apply StepFacts.callback_events]].
  split; [reflexivity|].
  destruct scope as [Hl|Hw].
  - destruct g as [|calls|]; [destruct Hg; discriminate| |congruence].
    destruct Hg as (_ & Hf & _). cbn in Hf.
    specialize (Hs Hl Hon). subst pc. discriminate.
  - apply Forall_forall. intros e _. unfold quiet. cbn. now rewrite Hw.
Qed.

Lemma step_stream_stops s a evs s' :
  inv s -> step l C_stream_stops s = Some (a, evs, s') ->
  inv s' /\ outcome_ok s a evs s'.
Proof.
  destruct s as [rv ra v pc sh g ws cl]. unfold step, inv, outcome_ok. cbn.
  intros [Hs Hg] H.
  assert (Hstep : launched l = guiver_rtmixer /\ a = By_callback /\ evs = []
                  /\ s' = mk_system rv ra v pc
                             (mk_audio_shared (mixer_set sh) false) g ws cl).
  { destruct g; try discriminate; destruct (launched l); try discriminate;
      destruct (stream_on sh); try discriminate;
        inversion H; subst; repeat split. }
  destruct Hstep as (Hl & -> & -> & ->). clear H.
  cbn. split; [split|].
  - intros; discriminate.
  - exact Hg.
  - destruct cl; [split; [reflexivity|constructor]|left; split; [reflexivity|constructor]].
Qed.

Lemma step_close wd s a evs s' :
  inv s -> step l (C_close wd) s = Some (a, evs, s') ->
  inv s' /\ outcome_ok s a evs s'.
Proof.
  destruct s as [rv ra v pc sh g ws cl]. unfold step, inv, outcome_ok.
  cbn -[Gui.close Gui.is_visible].
  intros [Hs Hg] H.
  destruct g as [|calls|]; try discriminate.
  destruct Hg as [-> ->].
  destruct (Gui.is_visible (Gui.shown (launched l)) wd) eqn:Hv; [|discriminate].
  destruct (Gui.close 3 (launched l) wd (Gui.shown (launched l))) as [calls ws'] eqn:Ec.
  inversion H; subst; clear H.
  destruct (close_event_ok wd calls ws' Hv Ec) as (Hw1 & Hw2 & Hw3).
  cbn. split; [split; [exact Hs|]|left; split; [reflexivity|constructor]].
  unfold handler_ok. rewrite Hw1, Hw2, !orb_true_r. auto.
Qed.

Lemma quiet_not_update a e : ui_update e = false -> quiet (a, e) = true.
Proof. intros H. unfold quiet. cbn. rewrite H. now rewrite andb_false_r. Qed.

Ltac all_quiet :=
  repeat first
    [ apply Forall_nil
    | apply Forall_cons;
      [first [apply quiet_not_update; reflexivity | reflexivity]|] ].

Lemma waits_after_join (s : system) w w0 rest :
  finished s w = true ->
  (finished s w0 || waits_first w0 (I_wait w :: rest)) = true ->
  (finished s w0 || waits_first w0 rest) = true.
Proof.
  intros Hf H. destruct (finished s w0) eqn:E; [reflexivity|].
  cbn in H. destruct w0, w; cbn in H; auto; congruence.
Qed.

Lemma step_gui s a evs s' :
  inv s -> step l C_gui s = Some (a, evs, s') ->
  inv s' /\ outcome_ok s a evs s'.
Proof.
  destruct s as [rv ra v pc sh g ws cl]. unfold step, inv, outcome_ok. cbn.
  intros [Hs Hg] H.
  destruct g as [|[|i rest]|]; try discriminate.
  - inversion H; subst; clear H. cbn. split; [split; [exact Hs|exact I]|].
    destruct cl.
    + split; [reflexivity|]. all_quiet.
    + left. split; [reflexivity|]. all_quiet.
  - destruct (call (launched l) i rest
                   (mk_system rv ra v pc sh (G_handler (i :: rest)) ws cl))
      as [[evs0 s0]|] eqn:Ec; [|discriminate].
    inversion H; subst; clear H.
    destruct i as [line|w| |w|w| |wd]; cbn in Ec.
    + (* I_say *)
      inversion Ec; subst; clear Ec. cbn.
      split; [split; [exact Hs|]|].
      * destruct cl; [destruct Hg as (_ & _ & Hq); discriminate|exact Hg].
      * destruct cl; [destruct Hg as (_ & _ & Hq); discriminate|].
        left. split; [reflexivity|].
        constructor; [apply StepFacts.report_not_closing|constructor].
    + (* I_clear *)
      destruct w; inversion Ec; subst; clear Ec; cbn;
        (split; [split; [exact Hs|exact Hg]|]);
        (destruct cl; [split; [reflexivity|all_quiet]
                      |left; split; [reflexivity|all_quiet]]).
    + (* I_stop_stream *)
      destruct (mixer_set sh && stream_on sh); inversion Ec; subst; clear Ec; cbn;
        (split; [split; [try exact Hs; intros; discriminate|exact Hg]|]);
        (destruct cl; [split; [reflexivity|all_quiet]
                      |left; split; [reflexivity|all_quiet]]).
    + (* I_quit *)
      inversion Ec; subst; clear Ec. cbn.
      split; [split; [exact Hs|exact Hg]|].
      destruct cl; [split; [reflexivity|all_quiet]
                   |left; split; [reflexivity|all_quiet]].
    + (* I_wait *)
      destruct (finished (mk_system rv ra v pc sh (G_handler (I_wait w :: rest)) ws cl) w)
        eqn:Ef; [|discriminate].
      inversion Ec; subst; clear Ec. cbn.
      split; [split; [exact Hs|]|].
      * destruct cl; [exact Hg|].
        destruct Hg as (H1 & H2 & H3). unfold handler_ok.
        split; [|split].
        -- apply (waits_after_join _ w Video rest Ef H1).
        -- apply (waits_after_join _ w Audio rest Ef H2).
        -- exact H3.
      * destruct cl; [split; [reflexivity|all_quiet]
                     |left; split; [reflexivity|all_quiet]].
    + (* I_app_quit *)
      inversion Ec; subst; clear Ec. cbn.
      split; [split; [exact Hs|]|].
      * destruct cl; [exact Hg|].
        destruct Hg as (H1 & H2 & H3). cbn in H1, H2, H3.
        rewrite orb_false_r in H1, H2. auto.
      * destruct cl; [split; [reflexivity|all_quiet]|].
        right. split; [reflexivity|]. exists AppQuit. auto.
    + (* I_accept *)
      inversion Ec; subst; clear Ec. cbn.
      split; [split; [exact Hs|]|].
      * destruct cl; [exact Hg|].
        destruct Hg as (H1 & H2 & H3). cbn in H1, H2, H3.
        rewrite orb_false_r in H1, H2. auto.
      * destruct cl; [split; [reflexivity|all_quiet]|].
        right. split; [reflexivity|]. exists (Accept wd). auto.
Qed.

(** Every step keeps the invariant; before the window is closed it either
    does not close it or is the closing call itself, afterwards it makes no
    update of the user interface. *)
Lemma step_inv c s a evs s' :
  inv s -> step l c s = Some (a, evs, s') ->
  inv s' /\ outcome_ok s a evs s'.
Proof.
  destruct c.
  - apply step_video.
  - apply step_audio.
  - apply step_callback.
  - apply step_stream_stops.
  - apply step_close.
  - apply step_gui.
Qed.

Lemma quiet_once_closed schedule : forall s,
  inv s -> closed s = true ->
  forallb quiet (fst (run l schedule s)) = true.
Proof.
  induction schedule as [|c rest IH]; intros s Hi Hc; cbn; [reflexivity|].
  destruct (step l c s) as [[[a evs] s']|] eqn:E; [|auto].
  destruct (step_inv c s a evs s' Hi E) as [Hi' Ho].
  unfold outcome_ok in Ho. rewrite Hc in Ho. destruct Ho as [Hc' Hq].
  specialize (IH s' Hi' Hc').
  destruct (run l rest s') as [tr s'']. cbn in *.
  rewrite forallb_app, IH, andb_true_r.
  apply forallb_forall. intros [a' e] Hin. apply in_map_iff in Hin.
  destruct Hin as (e0 & He & Hin). inversion He; subst.
  rewrite Forall_forall in Hq. auto.
Qed.

Lemma after_close_skip a evs tr :
  Forall (fun e => closes e = false) evs ->
  after_close (map (fun e => (a, e)) evs ++ tr) = after_close tr.
Proof.
  induction 1 as [|e evs He _ IH]; cbn; [reflexivity|]. now rewrite He.
Qed.

(** From any state the invariant holds in, whatever the schedule, no
    watched actor updates the user interface after the window was closed. *)
Lemma quiet_after_close_inv schedule : forall s,
  inv s -> closed s = false ->
  quiet_after_close watch (fst (run l schedule s)) = true.
Proof.
  induction schedule as [|c rest IH]; intros s Hi Hc; cbn; [reflexivity|].
  destruct (step l c s) as [[[a evs] s']|] eqn:E; [|auto].
  destruct (step_inv c s a evs s' Hi E) as [Hi' Ho].
  unfold outcome_ok in Ho. rewrite Hc in Ho.
  destruct Ho as [[Hc' Hn]|(Hc' & e & -> & He)].
  - specialize (IH s' Hi' Hc'). destruct (run l rest s') as [tr s'']. cbn in *.
    unfold quiet_after_close. now rewrite after_close_skip.
  - pose proof (quiet_once_closed rest s' Hi' Hc') as Hq.
    destruct (run l rest s') as [tr s'']. cbn in *.
    unfold quiet_after_close. cbn. rewrite He. exact Hq.
Qed.

End Invariant.
End Shutdown.

(** X10: for a close event on either window, the handler stops the video
    thread, joins it, stops the audio thread, joins it, and only then closes
    the window. *)
Lemma shutdown_order app wd :
  Gui.is_visible (Gui.shown app) wd = true ->
  Gui.squash (Gui.shutdown_steps (Gui.close_event app wd))
  = [Gui.stop_thread Video; Gui.join_thread Video;
     Gui.stop_thread Audio; Gui.join_thread Audio; Gui.close_window].
Proof. destruct app, wd; simpl; intros H; try discriminate; reflexivity. Qed.

(** X11: under every schedule, neither the GUI thread nor a worker thread
    updates the user interface after the window was closed. *)
Lemma threads_quiet_after_close l schedule :
  Run.quiet_after_close Run.threads
    (fst (Run.run l schedule (Run.init (launched l)))) = true.
Proof.
  apply Shutdown.quiet_after_close_inv.
  - right. reflexivity.
  - apply Shutdown.inv_init.
  - reflexivity.
Qed.

(** X12: with a sounddevice audio thread (capture_app, or guiver/main with
    AudioStreamSD), under every schedule nobody, the stream callback
    included, updates the user interface after the window was closed: the
    stream is closed before the audio thread's [run] returns. *)
Lemma sounddevice_quiet_after_close l schedule :
  launched l <> guiver_rtmixer ->
  Run.quiet_after_close Run.everyone
    (fst (Run.run l schedule (Run.init (launched l)))) = true.
Proof.
  intros Hl. apply Shutdown.quiet_after_close_inv.
  - left. exact Hl.
  - apply Shutdown.inv_init.
  - reflexivity.
Qed.

(* ===================================================================== *)
(** * The shape of a step, and what the loops show *)
(* ===================================================================== *)

Module ShapeFacts.
Import Run Observe.

Lemma step_video_shape l cv s a evs s' :
  step l (C_video cv) s = Some (a, evs, s') ->
  gui s <> G_exited /\ video s <> V_finished /\ a = By_video
  /\ evs = fst (VideoThread.step l (running_video s) cv (video s))
  /\ s' = with_video s (snd (VideoThread.step l (running_video s) cv (video s))).
Proof.
  destruct s as [rv ra v pc sh g ws cl]. unfold step, with_video.
  cbn -[VideoThread.step]. intros H.
  destruct g; try discriminate; destruct v; try discriminate;
    match type of H with
    | context [VideoThread.step ?a ?b ?c ?d] =>
        destruct (VideoThread.step a b c d) as [evs0 pc'] eqn:E
    end; inversion H; subst; repeat split; discriminate.
Qed.

Lemma step_video_some l cv s :
  gui s <> G_exited -> video s <> V_finished ->
  step l (C_video cv) s
  = Some (By_video, fst (VideoThread.step l (running_video s) cv (video s)),
          with_video s (snd (VideoThread.step l (running_video s) cv (video s)))).
Proof.
  destruct s as [rv ra v pc sh g ws cl]. unfold step, with_video.
  cbn -[VideoThread.step]. intros Hg Hv.
  destruct g; try congruence; destruct v; try congruence;
    match goal with
    | |- context [VideoThread.step ?a ?b ?c ?d] =>
        destruct (VideoThread.step a b c d) as [evs0 pc'] eqn:E
    end; reflexivity.
Qed.

Lemma step_audio_shape l au s a evs s' :
  step l (C_audio au) s = Some (a, evs, s') ->
  gui s <> G_exited /\ audio s <> A_finished /\ a = By_audio
  /\ evs = fst (fst (AudioThread.step l (running_audio s) au (audio s) (shared s)))
  /\ s' = with_audio s
            (snd (fst (AudioThread.step l (running_audio s) au (audio s) (shared s))))
            (snd (AudioThread.step l (running_audio s) au (audio s) (shared s))).
Proof.
  destruct s as [rv ra v pc sh g ws cl]. unfold step, with_audio.
  cbn -[AudioThread.step]. intros H.
  destruct g; try discriminate; destruct pc; try discriminate;
    match type of H with
    | context [AudioThread.step ?a ?b ?c ?d ?e] =>
        destruct (AudioThread.step a b c d e) as [[evs0 pc'] sh'] eqn:E
    end; inversion H; subst; repeat split; discriminate.
Qed.

Lemma step_audio_some l au s :
  gui s <> G_exited -> audio s <> A_finished ->
  step l (C_audio au) s
  = Some (By_audio,
          fst (fst (AudioThread.step l (running_audio s) au (audio s) (shared s))),
          with_audio s
            (snd (fst (AudioThread.step l (running_audio s) au (audio s) (shared s))))
            (snd (AudioThread.step l (running_audio s) au (audio s) (shared s)))).
Proof.
  destruct s as [rv ra v pc sh g ws cl]. unfold step, with_audio.
  cbn -[AudioThread.step]. intros Hg Hv.
  destruct g; try congruence; destruct pc; try congruence;
    match goal with
    | |- context [AudioThread.step ?a ?b ?c ?d ?e] =>
        destruct (AudioThread.step a b c d e) as [[evs0 pc'] sh'] eqn:E
    end; reflexivity.
Qed.

(** What a step of somebody else leaves alone: the positions of the two
    threads; and nobody ever sets a [running] flag again. *)
Lemma step_other l c s a evs s' :
  step l c s = Some (a, evs, s') ->
  (running_video s = false -> running_video s' = false)
  /\ (running_audio s = false -> running_audio s' = false)
  /\ ((forall cv, c <> C_video cv) -> video s' = video s /\ a <> By_video)
  /\ ((forall au, c <> C_audio au) -> audio s' = audio s /\ a <> By_audio).
Proof.
  intros H. destruct c as [cv|au|st| |wd|].
  - apply step_video_shape in H. destruct H as (_ & _ & -> & _ & ->). cbn.
    split; [auto|]. split; [auto|]. split.
    + intros Hc. now destruct (Hc cv).
    + intros _. split; [reflexivity|discriminate].
  - apply step_audio_shape in H. destruct H as (_ & _ & -> & _ & ->). cbn.
    split; [auto|]. split; [auto|]. split.
    + intros _. split; [reflexivity|discriminate].
    + intros Hc. now destruct (Hc au).
  - destruct s as [rv ra v pc sh g ws cl]. unfold step in H. cbn in H.
    destruct g; try discriminate; destruct (stream_on sh); try discriminate;
      inversion H; subst; cbn; repeat split; auto; discriminate.
  - destruct s as [rv ra v pc sh g ws cl]. unfold step in H. cbn in H.
    destruct g; try discriminate; destruct (launched l); try discriminate;
      destruct (stream_on sh); try discriminate;
        inversion H; subst; cbn; repeat split; auto; discriminate.
  - destruct s as [rv ra v pc sh g ws cl]. unfold step in H.
    cbn -[Gui.close Gui.is_visible] in H.
    destruct g; try discriminate.
    destruct (Gui.is_visible ws wd); try discriminate.
    destruct (Gui.close 3 (launched l) wd ws) as [calls ws'].
    inversion H; subst; cbn; repeat split; auto; discriminate.
  - destruct s as [rv ra v pc sh g ws cl]. unfold step in H. cbn in H.
    destruct g as [|[|i rest]|]; try discriminate.
    + inversion H; subst; cbn; repeat split; auto; discriminate.
    + destruct i as [line|[]| |w|[]| |wd]; cbn in H;
        try destruct (mixer_set sh && stream_on sh);
        try destruct v; try destruct pc; try discriminate;
          inversion H; subst; cbn; repeat split; auto; discriminate.
Qed.

End ShapeFacts.

Module LoopFacts.
Import Run Observe ShapeFacts.

Lemma passes_app pass tr1 tr2 :
  passes pass (tr1 ++ tr2) = passes pass tr1 + passes pass tr2.
Proof. unfold passes. now rewrite filter_app, length_app. Qed.

Lemma passes_other pass a evs :
  (forall e, pass (a, e) = false) ->
  passes pass (map (fun e => (a, e)) evs) = 0.
Proof.
  intros H. unfold passes. induction evs as [|e evs IH]; cbn; [reflexivity|].
  now rewrite H.
Qed.

Lemma video_pass_only a e : a <> By_video -> video_pass (a, e) = false.
Proof. destruct a; cbn; congruence. Qed.

Lemma audio_pass_only a e : a <> By_audio -> audio_pass (a, e) = false.
Proof. destruct a; cbn; congruence. Qed.

Lemma video_pass_report app line : video_pass (By_video, report app line) = false.
Proof. destruct app; reflexivity. Qed.

Lemma audio_pass_report app line : audio_pass (By_audio, report app line) = false.
Proof. destruct app; reflexivity. Qed.

Lemma video_step_cleared l cv pc :
  passes video_pass
         (map (fun e => (By_video, e)) (fst (VideoThread.step l false cv pc)))
  + passes_left (snd (VideoThread.step l false cv pc))
  <= passes_left pc.
Proof.
  destruct pc; unfold VideoThread.step.
  - unfold VideoThread.open.
    destruct (launched l) eqn:El, (dshow_opens cv), (msmf_opens cv);
      cbv beta iota zeta; rewrite ?El; unfold passes, report;
        cbv [fst snd passes_left List.app map filter video_pass List.length Nat.add];
        lia.
  - unfold VideoThread.test.
    destruct (launched l); unfold passes, report;
      cbv [andb fst snd passes_left List.app map filter video_pass List.length Nat.add];
      lia.
  - unfold VideoThread.body, VideoThread.fps_events.
    destruct (read_ret cv); cbn [fst snd passes_left]; [|cbn; lia].
    destruct (launched l), (fps_report cv) as [[? []]|]; cbn; lia.
  - cbn. lia.
Qed.

Lemma audio_step_cleared l au pc sh :
  passes audio_pass
         (map (fun e => (By_audio, e))
              (fst (fst (AudioThread.step l false au pc sh))))
  = 0.
Proof.
  unfold AudioThread.step, AudioThread.step_sounddevice, AudioThread.step_rtmixer.
  destruct (launched l), pc, (rtmixer_is_none au), (open_error au),
    (start_error au), (exit_error au); unfold passes, report;
    cbv [fst snd andb List.app map filter audio_pass List.length]; reflexivity.
Qed.

(** Nobody sets a [running] flag again. *)
Lemma run_keeps_cleared l schedule : forall s,
  (running_video s = false -> running_video (snd (run l schedule s)) = false)
  /\ (running_audio s = false -> running_audio (snd (run l schedule s)) = false).
Proof.
  induction schedule as [|c rest IH]; intros s; cbn; [auto|].
  destruct (step l c s) as [[[a evs] s']|] eqn:E; [|apply IH].
  destruct (step_other l c s a evs s' E) as (Hv & Ha & _).
  destruct (IH s') as [IHv IHa].
  destruct (run l rest s') as [tr s'']. cbn in *. auto.
Qed.

(** Once the video flag is cleared, at most the pass in progress is
    completed. *)
Lemma video_passes_cleared l schedule : forall s,
  running_video s = false ->
  passes video_pass (fst (run l schedule s)) <= passes_left (video s).
Proof.
  induction schedule as [|c rest IH]; intros s Hr; cbn [run]; [cbn; lia|].
  destruct (step l c s) as [[[a evs] s']|] eqn:E; [|auto].
  destruct (step_other l c s a evs s' E) as (Hv & _ & Ho & _).
  specialize (IH s' (Hv Hr)).
  destruct (run l rest s') as [tr s''] eqn:Er. cbn [fst snd] in *.
  rewrite passes_app.
  destruct c as [cv| | | | |];
    try (destruct Ho as [Hsame Hne]; [intros; discriminate|];
         rewrite passes_other by (intros; apply video_pass_only; exact Hne);
         rewrite <- Hsame; exact IH).
  apply step_video_shape in E. destruct E as (_ & _ & -> & -> & ->).
  rewrite Hr in *. cbn in IH.
  pose proof (video_step_cleared l cv (video s)). lia.
Qed.

Lemma audio_passes_cleared l schedule : forall s,
  running_audio s = false ->
  passes audio_pass (fst (run l schedule s)) = 0.
Proof.
  induction schedule as [|c rest IH]; intros s Hr; cbn [run]; [reflexivity|].
  destruct (step l c s) as [[[a evs] s']|] eqn:E; [|auto].
  destruct (step_other l c s a evs s' E) as (_ & Ha & _ & Ho).
  specialize (IH s' (Ha Hr)).
  destruct (run l rest s') as [tr s''] eqn:Er. cbn [fst snd] in *.
  rewrite passes_app, IH, Nat.add_0_r.
  destruct c as [|au| | | |];
    try (destruct Ho as [_ Hne]; [intros; discriminate|];
         apply passes_other; intros; apply audio_pass_only; exact Hne).
  apply step_audio_shape in E. destruct E as (_ & _ & -> & -> & ->).
  rewrite Hr. apply audio_step_cleared.
Qed.

End LoopFacts.

(* ===================================================================== *)
(** * The two capture backends *)
(* ===================================================================== *)

Module OpenFacts.
Import Run Observe ShapeFacts.

Lemma attempts_app evs1 evs2 :
  attempts (evs1 ++ evs2) = attempts evs1 ++ attempts evs2.
Proof.
  induction evs1 as [|e evs1 IH]; cbn; [reflexivity|].
  destruct e; cbn; rewrite ?IH; reflexivity.
Qed.

Lemma attempts_report app line : attempts [report app line] = [].
Proof. destruct app; reflexivity. Qed.

Lemma attempts_open l cv :
  attempts (fst (VideoThread.open l cv))
  = if dshow_opens cv then [CAP_DSHOW] else [CAP_DSHOW; CAP_MSMF].
Proof.
  unfold VideoThread.open.
  destruct (launched l), (dshow_opens cv), (msmf_opens cv); reflexivity.
Qed.

(** Past the opening, the video thread never calls [cv2.VideoCapture]
    again and never goes back to the opening. *)
Lemma attempts_later l running cv pc :
  pc <> V_start ->
  attempts (fst (VideoThread.step l running cv pc)) = []
  /\ snd (VideoThread.step l running cv pc) <> V_start.
Proof.
  intros Hpc. destruct pc; [congruence| | |]; unfold VideoThread.step.
  - unfold VideoThread.test.
    destruct (launched l), (running && cap_is_opened cv); cbn; split;
      (reflexivity || discriminate).
  - unfold VideoThread.body, VideoThread.fps_events.
    destruct (launched l), (read_ret cv), (fps_report cv) as [[? []]|]; cbn; split;
      (reflexivity || discriminate).
  - cbn. split; [reflexivity|discriminate].
Qed.

Lemma attempts_audio l running au pc sh :
  attempts (fst (fst (AudioThread.step l running au pc sh))) = [].
Proof.
  unfold AudioThread.step, AudioThread.step_sounddevice, AudioThread.step_rtmixer.
  destruct (launched l), pc, (rtmixer_is_none au), (open_error au),
    (start_error au), (exit_error au), running, (stream_on sh); reflexivity.
Qed.

(** Only the video thread opens capture devices. *)
Lemma attempts_others l c s a evs s' :
  step l c s = Some (a, evs, s') ->
  (forall cv, c <> C_video cv) ->
  attempts evs = [].
Proof.
  intros H Hc. destruct c as [cv|au|st| |wd|].
  - now destruct (Hc cv).
  - apply step_audio_shape in H. destruct H as (_ & _ & _ & -> & _).
    apply attempts_audio.
  - destruct s as [rv ra v pc sh g ws cl]. unfold step in H. cbn in H.
    destruct g; try discriminate; destruct (stream_on sh); try discriminate;
      inversion H; subst; destruct (launched l), st; reflexivity.
  - destruct s as [rv ra v pc sh g ws cl]. unfold step in H. cbn in H.
    destruct g; try discriminate; destruct (launched l); try discriminate;
      destruct (stream_on sh); try discriminate; inversion H; subst; reflexivity.
  - destruct s as [rv ra v pc sh g ws cl]. unfold step in H.
    cbn -[Gui.close Gui.is_visible] in H.
    destruct g; try discriminate.
    destruct (Gui.is_visible ws wd); try discriminate.
    destruct (Gui.close 3 (launched l) wd ws) as [calls ws'].
    inversion H; subst; reflexivity.
  - destruct s as [rv ra v pc sh g ws cl]. unfold step in H. cbn in H.
    destruct g as [|[|i rest]|]; try discriminate.
    + inversion H; subst; reflexivity.
    + destruct i as [line|[]| |w|[]| |wd]; cbn in H;
        try destruct (mixer_set sh && stream_on sh);
        try destruct v; try destruct pc; try discriminate;
          inversion H; subst; try reflexivity; apply attempts_report.
Qed.

Lemma trace_attempts_step a evs tr :
  trace_attempts (map (fun e => (a, e)) evs ++ tr)
  = attempts evs ++ trace_attempts tr.
Proof.
  unfold trace_attempts. rewrite map_app, map_map, attempts_app. cbn.
  now rewrite map_id.
Qed.

Lemma no_attempts_later l schedule : forall s,
  video s <> V_start -> trace_attempts (fst (run l schedule s)) = [].
Proof.
  induction schedule as [|c rest IH]; intros s Hv; cbn [run]; [reflexivity|].
  destruct (step l c s) as [[[a evs] s']|] eqn:E; [|auto].
  assert (Hs' : attempts evs = [] /\ video s' <> V_start).
  { destruct c as [cv| | | | |];
      try (split; [eapply attempts_others; [exact E|intros; discriminate]|];
           destruct (step_other l _ s a evs s' E) as (_ & _ & Ho & _);
           destruct Ho as [-> _]; [intros; discriminate|exact Hv]).
    apply step_video_shape in E. destruct E as (_ & _ & _ & -> & ->). cbn.
    apply attempts_later. exact Hv. }
  destruct Hs' as [He Hv']. specialize (IH s' Hv').
  destruct (run l rest s') as [tr s'']. cbn [fst] in *.
  now rewrite trace_attempts_step, He, IH.
Qed.

(** In a whole run the capture device is opened by one pass through the
    opening of [VideoThread.run], or not at all. *)
Lemma attempts_of_run l schedule : forall s,
  video s = V_start ->
  trace_attempts (fst (run l schedule s)) = []
  \/ exists cv, trace_attempts (fst (run l schedule s))
                = attempts (fst (VideoThread.open l cv)).
Proof.
  induction schedule as [|c rest IH]; intros s Hv; cbn [run]; [left; reflexivity|].
  destruct (step l c s) as [[[a evs] s']|] eqn:E; [|auto].
  destruct c as [cv| | | | |];
    try (assert (He : attempts evs = [])
           by (eapply attempts_others; [exact E|intros; discriminate]);
         destruct (step_other l _ s a evs s' E) as (_ & _ & Ho & _);
         destruct Ho as [Hsame _]; [intros; discriminate|];
         rewrite <- Hsame in Hv; specialize (IH s' Hv);
         destruct (run l rest s') as [tr s'']; cbn [fst] in *;
         rewrite trace_attempts_step, He; exact IH).
  apply step_video_shape in E. destruct E as (_ & _ & _ & -> & ->).
  rewrite Hv. cbn [VideoThread.step].
  pose proof (no_attempts_later l rest
                (with_video s (snd (VideoThread.open l cv)))) as Hl.
  destruct (run l rest (with_video s (snd (VideoThread.open l cv)))) as [tr s''].
  cbn [fst] in *. right. exists cv.
  rewrite trace_attempts_step, Hl, app_nil_r; [reflexivity|].
  cbn. unfold VideoThread.open.
  destruct (dshow_opens cv), (msmf_opens cv); cbn; discriminate.
Qed.

End OpenFacts.

(** C3: opening the capture handle makes at most two backend attempts.  The
    opening of [VideoThread.run] calls CAP_DSHOW first and CAP_MSMF only when
    the first handle is not opened; when neither opens, [run] returns; past
    the opening no step of the thread calls [cv2.VideoCapture] or comes back
    to the opening; so over a whole run of the application, under any
    schedule, the attempts are none, [CAP_DSHOW], or [CAP_DSHOW; CAP_MSMF]. *)
Theorem two_backend_attempts :
  forall (l : launch) (cv : cv_answer) (schedule : list choice),
    Observe.attempts (fst (VideoThread.open l cv))
    = (if dshow_opens cv then [CAP_DSHOW] else [CAP_DSHOW; CAP_MSMF])
    /\ (snd (VideoThread.open l cv) = V_finished
        <-> dshow_opens cv = false /\ msmf_opens cv = false)
    /\ (forall running cv' pc,
           pc <> V_start ->
           Observe.attempts (fst (VideoThread.step l running cv' pc)) = []
           /\ snd (VideoThread.step l running cv' pc) <> V_start)
    /\ (Observe.trace_attempts (fst (Run.run l schedule (Run.init (launched l)))) = []
        \/ exists cv0,
            Observe.trace_attempts (fst (Run.run l schedule (Run.init (launched l))))
            = if dshow_opens cv0 then [CAP_DSHOW] else [CAP_DSHOW; CAP_MSMF])
    /\ List.length
         (Observe.trace_attempts (fst (Run.run l schedule (Run.init (launched l)))))
       <= 2.
Proof.
  intros l cv schedule.
  split; [apply OpenFacts.attempts_open|].
  split.
  { unfold VideoThread.open.
    destruct (dshow_opens cv), (msmf_opens cv); cbn; split;
      try discriminate; try (intros [? ?]; discriminate); auto. }
  split; [intros; now apply OpenFacts.attempts_later|].
  assert (H : Observe.trace_attempts (fst (Run.run l schedule (Run.init (launched l)))) = []
              \/ exists cv0,
                  Observe.trace_attempts
                    (fst (Run.run l schedule (Run.init (launched l))))
                  = if dshow_opens cv0 then [CAP_DSHOW] else [CAP_DSHOW; CAP_MSMF]).
  { destruct (OpenFacts.attempts_of_run l schedule (Run.init (launched l)) eq_refl)
      as [H|[cv0 H]]; [left; exact H|right].
    exists cv0. rewrite H. apply OpenFacts.attempts_open. }
  split; [exact H|].
  destruct H as [->|[cv0 ->]]; [cbn; lia|].
  destruct (dshow_opens cv0); cbn; lia.
Qed.

(** The statement at capture_app with a device neither backend opens. *)
Lemma two_backend_attempts_witness :
  Observe.trace_attempts
    (fst (Run.run RunSamples.capture_launch
                  [C_video RunSamples.cv_dead; C_audio RunSamples.au_ok;
                   C_video RunSamples.cv_ok]
                  (Run.init capture_app)))
  = [CAP_DSHOW; CAP_MSMF]
  /\ V_test <> V_start
  /\ Observe.attempts
       (fst (VideoThread.step RunSamples.capture_launch true RunSamples.cv_ok V_test))
     = [].
Proof.
  split; [reflexivity|].
  destruct (two_backend_attempts RunSamples.capture_launch RunSamples.cv_dead [])
    as (_ & _ & Hlater & _).
  assert (Hne : V_test <> V_start) by discriminate.
  split; [exact Hne|]. apply (Hlater true RunSamples.cv_ok V_test Hne).
Defined.

(* ===================================================================== *)
(** * The scripts: threads started, stages, errors *)
(* ===================================================================== *)

Module MFacts.

Lemma bind_fst {A B} (c : M A) (k : A -> M B) :
  fst (bind c k)
  = fst c ++ match snd c with
             | Ret a => fst (k a)
             | _ => []
             end.
Proof.
  destruct c as [tr [a|e|n]]; cbn; rewrite ?app_nil_r; try reflexivity.
  destruct (k a); reflexivity.
Qed.

Lemma bind_snd {A B} (c : M A) (k : A -> M B) :
  snd (bind c k)
  = match snd c with
    | Ret a => snd (k a)
    | Raise e => Raise e
    | SysExit n => SysExit n
    end.
Proof.
  destruct c as [tr [a|e|n]]; cbn; try reflexivity.
  destruct (k a); reflexivity.
Qed.

End MFacts.

Module StartFacts.
Import Observe.

Lemma starts_app evs1 evs2 : starts (evs1 ++ evs2) = starts evs1 ++ starts evs2.
Proof.
  induction evs1 as [|e evs1 IH]; cbn; [reflexivity|].
  destruct e; cbn; rewrite ?IH; reflexivity.
Qed.

Lemma starts_bind {A B} (c : M A) (k : A -> M B) :
  starts (fst (bind c k))
  = starts (fst c) ++ match snd c with
                      | Ret a => starts (fst (k a))
                      | _ => []
                      end.
Proof.
  rewrite MFacts.bind_fst, starts_app. destruct (snd c); reflexivity.
Qed.

Lemma starts_prints lines : starts (map Print lines) = [].
Proof. induction lines; cbn; auto. Qed.

Lemma starts_prompt max_index device_type stdin :
  starts (fst (Prompt.prompt_selection max_index device_type stdin)) = [].
Proof.
  induction stdin as [|[z|] stdin IH]; cbn; [reflexivity| |].
  - destruct ((0 <=? z) && (z <? max_index))%Z; [reflexivity|].
    destruct (Prompt.prompt_selection max_index device_type stdin) as [tr o].
    cbn in *. destruct o; exact IH.
  - destruct (Prompt.prompt_selection max_index device_type stdin) as [tr o].
    cbn in *. destruct o; exact IH.
Qed.

Lemma starts_prompt_gui options device_type answer :
  starts (fst (Prompt.prompt_selection_gui options device_type answer)) = [].
Proof.
  unfold Prompt.prompt_selection_gui. cbn.
  destruct (Prompt.getItem (numbered options) answer) as [item ok].
  destruct (ok && negb (String.eqb item "")); [|reflexivity].
  destruct (Py.int_of_str (Py.split_head ":" item)); reflexivity.
Qed.

Lemma starts_list_video m :
  starts (fst (CaptureAppScript.list_video_devices_with_names m)) = [].
Proof.
  unfold CaptureAppScript.list_video_devices_with_names, print_all.
  rewrite !starts_bind. cbn [tell fst snd starts app].
  rewrite starts_prints. destruct (video_devices m); reflexivity.
Qed.

Lemma starts_list_audio m :
  starts (fst (CaptureAppScript.list_audio_input_devices_filtered m)) = [].
Proof.
  unfold CaptureAppScript.list_audio_input_devices_filtered, print_all.
  rewrite !starts_bind. cbn [tell fst snd starts app].
  destruct (CaptureApp.filter_loop (audio_devices m) [] []) as [[|d fd] fn];
    [reflexivity|].
  rewrite !starts_bind. cbn [tell fst snd starts app].
  rewrite starts_prints. reflexivity.
Qed.

Lemma capture_app_starts m u : none_or_both (fst (CaptureAppScript.main m u)).
Proof.
  unfold none_or_both, CaptureAppScript.main.
  rewrite starts_bind, starts_list_video. cbn [app].
  destruct (snd (CaptureAppScript.list_video_devices_with_names m))
    as [[|d devices]| |]; try (left; reflexivity).
  rewrite starts_bind, starts_prompt. cbn [app].
  destruct (snd (Prompt.prompt_selection _ "video" (keyboard u)))
    as [[video_choice stdin1]| |]; try (left; reflexivity).
  rewrite starts_bind, starts_list_audio. cbn [app].
  destruct (snd (CaptureAppScript.list_audio_input_devices_filtered m))
    as [[[|fd0 fd] fn]| |]; try (left; reflexivity).
  rewrite starts_bind, starts_prompt. cbn [app].
  destruct (snd (Prompt.prompt_selection _ "audio input" stdin1))
    as [[audio_choice stdin2]| |]; try (left; reflexivity).
  rewrite starts_bind. cbn [tell fst snd starts app].
  destruct (CaptureAppIndex.audio_choice_device_index (audio_devices_again m)
              (fd0 :: fd) (Z.to_nat audio_choice));
    destruct (nth_error (d :: devices) (Z.to_nat video_choice));
    destruct (nth_error fn (Z.to_nat audio_choice));
    cbn; auto.
Qed.

Lemma guiver_starts m u : none_or_both (fst (GuiverScript.main m u)).
Proof.
  unfold none_or_both, GuiverScript.main.
  destruct (video_devices m) as [|v vs]; [left; reflexivity|].
  rewrite !starts_bind. cbn [tell fst snd starts app].
  rewrite starts_prompt_gui. cbn [app].
  destruct (snd (Prompt.prompt_selection_gui (v :: vs) "video" (video_pick u)))
    as [video_choice| |]; try (left; reflexivity).
  rewrite !starts_bind. cbn [tell fst snd starts app].
  destruct (GuiverAudio.list_rtmixer_devices_by_apis _ _) as [rt|];
    [|left; reflexivity].
  rewrite !starts_bind. cbn [tell fst snd starts app].
  destruct (Guiver.list_audio_input_devices_filtered _ _) as [[[fd fn] fi]|];
    [|left; reflexivity].
  destruct (GuiverAudio.combine_audio _ fn) as [[|n0 names] sources];
    [left; reflexivity|].
  rewrite starts_bind, starts_prompt_gui. cbn [app].
  destruct (snd (Prompt.prompt_selection_gui (n0 :: names) "audio input" (audio_pick u)))
    as [audio_choice| |]; try (left; reflexivity).
  match goal with
  | |- context [GuiverAudio.make_audio_thread ?a ?b ?c ?d ?e] =>
      destruct (GuiverAudio.make_audio_thread a b c d e)
  end;
    destruct (nth_error (v :: vs) video_choice);
    destruct (nth_error (n0 :: names) audio_choice);
    cbn; auto.
Qed.

End StartFacts.

Module SpawnFacts.
Import Run Observe ShapeFacts StartFacts.

Lemma starts_report app line : starts [report app line] = [].
Proof. destruct app; reflexivity. Qed.

Lemma starts_video l running cv pc :
  starts (fst (VideoThread.step l running cv pc)) = [].
Proof.
  destruct pc; unfold VideoThread.step.
  - unfold VideoThread.open.
    destruct (launched l), (dshow_opens cv), (msmf_opens cv); reflexivity.
  - unfold VideoThread.test.
    destruct (launched l), (running && cap_is_opened cv); reflexivity.
  - unfold VideoThread.body, VideoThread.fps_events.
    destruct (launched l), (read_ret cv), (fps_report cv) as [[? []]|]; reflexivity.
  - reflexivity.
Qed.

Lemma starts_audio l running au pc sh :
  starts (fst (fst (AudioThread.step l running au pc sh))) = [].
Proof.
  unfold AudioThread.step, AudioThread.step_sounddevice, AudioThread.step_rtmixer.
  destruct (launched l), pc, (rtmixer_is_none au), (open_error au),
    (start_error au), (exit_error au), running, (stream_on sh); reflexivity.
Qed.

(** The running application starts no thread. *)
Lemma starts_step l c s a evs s' :
  step l c s = Some (a, evs, s') -> starts evs = [].
Proof.
  intros H. destruct c as [cv|au|st| |wd|].
  - apply step_video_shape in H. destruct H as (_ & _ & _ & -> & _).
    apply starts_video.
  - apply step_audio_shape in H. destruct H as (_ & _ & _ & -> & _).
    apply starts_audio.
  - destruct s as [rv ra v pc sh g ws cl]. unfold step in H. cbn in H.
    destruct g; try discriminate; destruct (stream_on sh); try discriminate;
      inversion H; subst; destruct (launched l), st; reflexivity.
  - destruct s as [rv ra v pc sh g ws cl]. unfold step in H. cbn in H.
    destruct g; try discriminate; destruct (launched l); try discriminate;
      destruct (stream_on sh); try discriminate; inversion H; subst; reflexivity.
  - destruct s as [rv ra v pc sh g ws cl]. unfold step in H.
    cbn -[Gui.close Gui.is_visible] in H.
    destruct g; try discriminate.
    destruct (Gui.is_visible ws wd); try discriminate.
    destruct (Gui.close 3 (launched l) wd ws) as [calls ws'].
    inversion H; subst; reflexivity.
  - destruct s as [rv ra v pc sh g ws cl]. unfold step in H. cbn in H.
    destruct g as [|[|i rest]|]; try discriminate.
    + inversion H; subst; reflexivity.
    + destruct i as [line|[]| |w|[]| |wd]; cbn in H;
        try destruct (mixer_set sh && stream_on sh);
        try destruct v; try destruct pc; try discriminate;
          inversion H; subst; try reflexivity; apply starts_report.
Qed.

Lemma starts_run l schedule : forall s,
  starts (map snd (fst (run l schedule s))) = [].
Proof.
  induction schedule as [|c rest IH]; intros s; cbn [run]; [reflexivity|].
  destruct (step l c s) as [[[a evs] s']|] eqn:E; [|apply IH].
  specialize (IH s'). destruct (run l rest s') as [tr s'']. cbn [fst] in *.
  rewrite map_app, map_map, starts_app, IH, app_nil_r. cbn.
  rewrite map_id. eapply starts_step. exact E.
Qed.

Lemma starts_asiofinder m : starts (fst (AsioFinder.script m)) = [].
Proof.
  unfold AsioFinder.script, print_all, script_ends.
  rewrite !starts_bind. cbn [tell fst snd starts app].
  rewrite starts_prints.
  destruct (AsioFinder.find_asio (Py.enumerate (hostapis m))); cbn; [|reflexivity].
  rewrite !starts_app, starts_prints. reflexivity.
Qed.

Lemma starts_other m : starts (fst (Other.script m)) = [].
Proof. reflexivity. Qed.

(** Over a whole run, no thread is started, or one audio thread and then
    one video thread. *)
Lemma starts_whole sc m u schedule : none_or_both (Whole.run sc m u schedule).
Proof.
  unfold none_or_both, Whole.run, Whole.startup.
  destruct sc.
  - left. apply starts_asiofinder.
  - pose proof (capture_app_starts m u) as H.
    destruct (snd (CaptureAppScript.main m u)); try exact H.
    rewrite starts_app, starts_run, app_nil_r. exact H.
  - pose proof (guiver_starts m u) as H.
    destruct (snd (GuiverScript.main m u)); try exact H.
    rewrite starts_app, starts_run, app_nil_r. exact H.
  - left. apply starts_other.
Qed.

(** What has been started at some point of a run is a prefix of what is
    started over the whole run. *)
Lemma starts_firstn n : forall tr,
  exists k, starts (firstn n tr) = firstn k (starts tr).
Proof.
  induction n as [|n IH]; intros tr; [exists 0; reflexivity|].
  destruct tr as [|e tr]; [exists 0; reflexivity|].
  destruct (IH tr) as [k Hk]. cbn [firstn].
  destruct e; cbn [starts]; try (exists k; exact Hk).
  exists (S k). cbn. now rewrite Hk.
Qed.

End SpawnFacts.

(** C6: at every point of a run of any of the four scripts, at most two
    worker threads have been started: none, or the audio thread, or the audio
    thread and the video thread, one of each. *)
Theorem at_most_two_workers :
  forall (sc : script) (m : machine) (u : user) (schedule : list choice) (n : nat),
    List.length (Observe.starts (firstn n (Whole.run sc m u schedule))) <= 2
    /\ (Observe.starts (firstn n (Whole.run sc m u schedule)) = []
        \/ Observe.starts (firstn n (Whole.run sc m u schedule)) = [Audio]
        \/ Observe.starts (firstn n (Whole.run sc m u schedule)) = [Audio; Video]).
Proof.
  intros sc m u schedule n.
  destruct (SpawnFacts.starts_firstn n (Whole.run sc m u schedule)) as [k ->].
  destruct (SpawnFacts.starts_whole sc m u schedule) as [-> | ->].
  - rewrite firstn_nil. cbn. split; [lia|auto].
  - destruct k as [|[|k]]; cbn; rewrite ?firstn_nil; cbn; (split; [lia|auto]).
Qed.

Module ErrorFacts.
Import Whole.



Lemma list_video_ret m :
  snd (CaptureAppScript.list_video_devices_with_names m) = Ret (video_devices m).
Proof.
  unfold CaptureAppScript.list_video_devices_with_names, print_all.
  rewrite !MFacts.bind_snd. cbn. destruct (video_devices m); reflexivity.
Qed.

Lemma list_audio_ret m :
  snd (CaptureAppScript.list_audio_input_devices_filtered m)
  = Ret (CaptureApp.list_audio_input_devices_filtered (audio_devices m)).
Proof.
  unfold CaptureAppScript.list_audio_input_devices_filtered,
    CaptureApp.list_audio_input_devices_filtered, print_all.
  rewrite !MFacts.bind_snd. cbn.
  destruct (CaptureApp.filter_loop (audio_devices m) [] []) as [[|d fd] fn];
    reflexivity.
Qed.





End ErrorFacts.

Module KeepRunning.
Import Run Whole ShapeFacts.

Lemma exits_app tr1 tr2 : exits (tr1 ++ tr2) = exits tr1 || exits tr2.
Proof. unfold exits. apply existsb_app. Qed.

Lemma exits_report app line : exits [report app line] = false.
Proof. destruct app; reflexivity. Qed.

Lemma exits_video l running cv pc :
  exits (fst (VideoThread.step l running cv pc)) = false.
Proof.
  destruct pc; unfold VideoThread.step.
  - unfold VideoThread.open.
    destruct (launched l), (dshow_opens cv), (msmf_opens cv); reflexivity.
  - unfold VideoThread.test.
    destruct (launched l), (running && cap_is_opened cv); reflexivity.
  - unfold VideoThread.body, VideoThread.fps_events.
    destruct (launched l), (read_ret cv), (fps_report cv) as [[? []]|]; reflexivity.
  - reflexivity.
Qed.

Lemma exits_audio l running au pc sh :
  exits (fst (fst (AudioThread.step l running au pc sh))) = false.
Proof.
  unfold AudioThread.step, AudioThread.step_sounddevice, AudioThread.step_rtmixer.
  destruct (launched l), pc, (rtmixer_is_none au), (open_error au),
    (start_error au), (exit_error au), running, (stream_on sh); reflexivity.
Qed.

(** While the event loop waits, no step that is not a close event ends the
    process or leaves the loop. *)
Lemma step_in_loop l c s a evs s' :
  gui s = G_events -> (forall wd, c <> C_close wd) ->
  step l c s = Some (a, evs, s') ->
  gui s' = G_events /\ exits evs = false.
Proof.
  intros Hg Hc H. destruct c as [cv|au|st| |wd|].
  - apply step_video_shape in H. destruct H as (_ & _ & _ & -> & ->).
    split; [exact Hg|apply exits_video].
  - apply step_audio_shape in H. destruct H as (_ & _ & _ & -> & ->).
    split; [exact Hg|apply exits_audio].
  - destruct s as [rv ra v pc sh g ws cl]. unfold step in H. cbn in *. subst g.
    destruct (stream_on sh); try discriminate.
    inversion H; subst. split; [reflexivity|].
    destruct (launched l), st; reflexivity.
  - destruct s as [rv ra v pc sh g ws cl]. unfold step in H. cbn in *. subst g.
    destruct (launched l); try discriminate;
      destruct (stream_on sh); try discriminate; inversion H; subst; auto.
  - now destruct (Hc wd).
  - destruct s as [rv ra v pc sh g ws cl]. unfold step in H. cbn in *. subst g.
    discriminate.
Qed.




End KeepRunning.

Module NoDevices.





End NoDevices.


(* ===================================================================== *)
(** * The two audio filters, in full *)
(* ===================================================================== *)

Module EnumFacts.

(** The positions [enumerate] gives are the positions in the list. *)
Lemma enumerate_from_nth_error {A} (l : list A) : forall i k,
  nth_error (Py.enumerate_from i l) k
  = option_map (fun x => (i + k, x)) (nth_error l k).
Proof.
  induction l as [|x l IH]; intros i [|k]; simpl; try reflexivity.
  - now rewrite Nat.add_0_r.
  - rewrite IH. destruct (nth_error l k); simpl; [|reflexivity].
    now rewrite Nat.add_succ_r.
Qed.

Lemma enumerate_from_in_iff {A} (l : list A) : forall i p x,
  In (p, x) (Py.enumerate_from i l) <-> i <= p /\ nth_error l (p - i) = Some x.
Proof.
  induction l as [|y l IH]; intros i p x; simpl.
  - split; [tauto|]. intros [_ H]. destruct (p - i); discriminate.
  - rewrite IH. split.
    + intros [H|[Hle Hn]].
      * inversion H; subst. rewrite Nat.sub_diag. split; [lia|reflexivity].
      * split; [lia|]. replace (p - i) with (S (p - S i)) by lia. exact Hn.
    + intros [Hle Hn]. destruct (Nat.eq_dec p i) as [->|Hne].
      * rewrite Nat.sub_diag in Hn. simpl in Hn. inversion Hn. now left.
      * right. split; [lia|].
        replace (p - i) with (S (p - S i)) in Hn by lia. exact Hn.
Qed.

(** The positions of the entries a test keeps grow strictly. *)
Lemma kept_positions_lower_bound {A} (p : nat * A -> bool) (l : list A) : forall i,
  Forall (fun q => i <= q) (map fst (filter p (Py.enumerate_from i l))).
Proof.
  induction l as [|x l IH]; intros i; simpl; [constructor|].
  assert (Hf : Forall (fun q => i <= q)
                      (map fst (filter p (Py.enumerate_from (S i) l)))).
  { eapply Forall_impl; [|apply (IH (S i))]. simpl. intros; lia. }
  destruct (p (i, x)); simpl; [constructor; [lia|exact Hf]|exact Hf].
Qed.

Lemma kept_positions_increasing {A} (p : nat * A -> bool) (l : list A) :
  forall i k k' q q',
    k < k' ->
    nth_error (map fst (filter p (Py.enumerate_from i l))) k = Some q ->
    nth_error (map fst (filter p (Py.enumerate_from i l))) k' = Some q' ->
    q < q'.
Proof.
  induction l as [|x l IH]; intros i k k' q q' Hlt Hk Hk'; simpl in Hk, Hk'.
  - destruct k; discriminate.
  - destruct (p (i, x)); [|eapply IH; eauto].
    simpl in Hk, Hk'. destruct k' as [|k']; [lia|]. simpl in Hk'.
    destruct k as [|k]; simpl in Hk.
    + inversion Hk; subst.
      pose proof (kept_positions_lower_bound p l (S q)) as Hf.
      rewrite Forall_forall in Hf. apply nth_error_In in Hk'.
      apply Hf in Hk'. lia.
    + eapply IH; [|exact Hk|exact Hk']. lia.
Qed.

(** When the loop of guiver/main's filter fails, and only then, a device it
    keeps names a host API that does not exist. *)
Lemma guiver_loop_none hostapis : forall devices fd fn fi,
  Guiver.filter_loop hostapis devices fd fn fi = None
  <-> exists i dev, In (i, dev) devices /\ Guiver.selected dev = true
                    /\ nth_error hostapis (hostapi dev) = None.
Proof.
  induction devices as [|[i dev] rest IH]; intros fd fn fi; simpl.
  - split; [discriminate|]. intros (i & dev & [] & _).
  - destruct (Guiver.selected dev) eqn:Es.
    + destruct (nth_error hostapis (hostapi dev)) as [h|] eqn:Eh.
      * rewrite IH. split.
        -- intros (j & d & Hin & Hs & Hn). exists j, d. auto.
        -- intros (j & d & [Heq|Hin] & Hs & Hn).
           ++ inversion Heq; subst. congruence.
           ++ exists j, d. auto.
      * split; [|reflexivity]. intros _. exists i, dev. auto.
    + rewrite IH. split.
      * intros (j & d & Hin & Hs & Hn). exists j, d. auto.
      * intros (j & d & [Heq|Hin] & Hs & Hn).
        -- inversion Heq; subst. congruence.
        -- exists j, d. auto.
Qed.

Lemma filter_snd_enumerate {A} (p : A -> bool) (l : list A) : forall i,
  map snd (filter (fun e => p (snd e)) (Py.enumerate_from i l)) = filter p l.
Proof.
  induction l as [|x l IH]; intros i; simpl; [reflexivity|].
  destruct (p x); simpl; now rewrite IH.
Qed.

(** guiver/main keeps exactly the devices its test accepts, in order. *)
Lemma guiver_filtered_devices devices hostapis fd fn fi :
  Guiver.list_audio_input_devices_filtered devices hostapis = Some (fd, fn, fi) ->
  fd = filter Guiver.selected devices.
Proof.
  intros H. apply FilterFacts.guiver_loop in H.
  destruct H as (rows & -> & _ & _ & Hm & _). rewrite !app_nil_l.
  rewrite <- (filter_snd_enumerate Guiver.selected devices 0).
  unfold Py.enumerate in Hm. rewrite <- Hm, map_map. reflexivity.
Qed.

End EnumFacts.

(** X1: capture_app's [list_audio_input_devices_filtered] returns two
    lists of the same length, the kept devices in the order of
    [sd.query_devices()] and their names row by row.  A device is kept
    exactly when it is in the enumeration, has an input channel, and its name
    holds 'elgato' or 'evga' in any case or 'avermedia' in lower case. *)
Theorem capture_filter_characterised :
  forall (devices : list sd_device),
    fst (CaptureApp.list_audio_input_devices_filtered devices)
    = filter CaptureApp.selected devices
    /\ snd (CaptureApp.list_audio_input_devices_filtered devices)
       = map name (fst (CaptureApp.list_audio_input_devices_filtered devices))
    /\ List.length (snd (CaptureApp.list_audio_input_devices_filtered devices))
       = List.length (fst (CaptureApp.list_audio_input_devices_filtered devices))
    /\ (forall dev,
           In dev (fst (CaptureApp.list_audio_input_devices_filtered devices))
           <-> In dev devices
               /\ (0 < max_input_channels dev)%Z
               /\ (Py.str_in "elgato" (Py.lower (name dev)) = true
                   \/ Py.str_in "avermedia" (name dev) = true
                   \/ Py.str_in "evga" (Py.lower (name dev)) = true))
    /\ (forall k dev,
           nth_error (fst (CaptureApp.list_audio_input_devices_filtered devices)) k
           = Some dev ->
           nth_error (snd (CaptureApp.list_audio_input_devices_filtered devices)) k
           = Some (name dev)).
Proof.
  intros devices. rewrite FilterFacts.capture_filtered. cbn [fst snd].
  split; [reflexivity|]. split; [reflexivity|].
  split; [now rewrite List.length_map|]. split.
  - intros dev. rewrite filter_In. unfold CaptureApp.selected.
    rewrite andb_true_iff, !orb_true_iff, Z.ltb_lt. tauto.
  - intros k dev H. rewrite nth_error_map, H. reflexivity.
Qed.

(** X2: guiver/main's [list_audio_input_devices_filtered] raises
    IndexError exactly when a device it keeps names a host API that
    [sd.query_hostapis()] does not have.  Otherwise its three lists have the
    same length; row by row they hold a kept device, its position in
    [sd.query_devices()] and its name followed by the host API's; the
    positions grow strictly, and every device the test accepts has its
    row. *)
Theorem guiver_filter_characterised :
  forall (devices : list sd_device) (hostapis : list sd_hostapi),
    (Guiver.list_audio_input_devices_filtered devices hostapis = None
     <-> exists dev, In dev devices /\ Guiver.selected dev = true
                     /\ List.length hostapis <= hostapi dev)
    /\ forall fd fn fi,
        Guiver.list_audio_input_devices_filtered devices hostapis = Some (fd, fn, fi) ->
        fd = filter Guiver.selected devices
        /\ List.length fn = List.length fd
        /\ List.length fi = List.length fd
        /\ (forall k dev,
               nth_error fd k = Some dev ->
               exists i h,
                 nth_error fi k = Some i
                 /\ nth_error devices i = Some dev
                 /\ nth_error hostapis (hostapi dev) = Some h
                 /\ nth_error fn k
                    = Some (Guiver.display_name (name dev) (hostapi_name h)))
        /\ (forall k k' i i',
               k < k' -> nth_error fi k = Some i -> nth_error fi k' = Some i' ->
               i < i')
        /\ (forall i dev,
               nth_error devices i = Some dev -> Guiver.selected dev = true ->
               In i fi).
Proof.
  intros devices hostapis. unfold Guiver.list_audio_input_devices_filtered. split.
  - rewrite EnumFacts.guiver_loop_none. split.
    + intros (i & dev & Hin & Hs & Hn). exists dev.
      apply EnumFacts.enumerate_from_in_iff in Hin. destruct Hin as [_ Hin].
      apply nth_error_In in Hin. apply nth_error_None in Hn. auto.
    + intros (dev & Hin & Hs & Hn). apply In_nth_error in Hin.
      destruct Hin as [i Hi]. exists i, dev. split; [|split; [exact Hs|]].
      * apply EnumFacts.enumerate_from_in_iff. rewrite Nat.sub_0_r.
        split; [lia|exact Hi].
      * now apply nth_error_None.
  - intros fd fn fi H. apply FilterFacts.guiver_loop in H.
    destruct H as (rows & -> & -> & -> & Hm & Hf). rewrite !app_nil_l.
    assert (Hfd : map (fun r : nat * sd_device * sd_hostapi => snd (fst r)) rows
                  = filter Guiver.selected devices).
    { rewrite <- (EnumFacts.filter_snd_enumerate Guiver.selected devices 0).
      unfold Py.enumerate in Hm. rewrite <- Hm, map_map. reflexivity. }
    assert (Hfi : map (fun r : nat * sd_device * sd_hostapi => fst (fst r)) rows
                  = map fst (filter (fun e => Guiver.selected (snd e))
                                    (Py.enumerate devices))).
    { rewrite <- Hm, map_map. reflexivity. }
    split; [exact Hfd|]. split; [now rewrite !List.length_map|].
    split; [now rewrite !List.length_map|]. split; [|split].
    + intros k dev Hk. rewrite nth_error_map in Hk.
      destruct (nth_error rows k) as [[[i d] h]|] eqn:Er; [|discriminate].
      cbn in Hk. inversion Hk; subst d. exists i, h.
      rewrite !nth_error_map, Er. cbn. split; [reflexivity|].
      assert (Hin : In (i, dev) (filter (fun e => Guiver.selected (snd e))
                                        (Py.enumerate devices))).
      { rewrite <- Hm. apply in_map_iff. exists (i, dev, h).
        split; [reflexivity|]. eapply nth_error_In; eauto. }
      apply filter_In in Hin. destruct Hin as [Hin _].
      apply EnumFacts.enumerate_from_in_iff in Hin. rewrite Nat.sub_0_r in Hin.
      split; [apply Hin|]. split; [|reflexivity].
      rewrite Forall_forall in Hf. apply (Hf (i, dev, h)).
      eapply nth_error_In; eauto.
    + rewrite Hfi. apply EnumFacts.kept_positions_increasing.
    + intros i dev Hi Hs. rewrite Hfi. apply in_map_iff. exists (i, dev).
      split; [reflexivity|]. apply filter_In. split; [|exact Hs].
      apply EnumFacts.enumerate_from_in_iff. rewrite Nat.sub_0_r.
      split; [lia|exact Hi].
Qed.

(** X3: whatever capture_app's filter keeps, guiver/main's keeps too; a
    device only guiver/main keeps is one whose name holds 'avermedia' with
    an upper-case letter, and neither 'elgato' nor 'evga'; on an enumeration
    without such a name the two filters keep the same devices. *)
Theorem capture_filter_within_guiver_filter :
  forall (devices : list sd_device) (hostapis : list sd_hostapi)
         (fd : list sd_device) (fn : list string) (fi : list nat),
    Guiver.list_audio_input_devices_filtered devices hostapis = Some (fd, fn, fi) ->
    incl (fst (CaptureApp.list_audio_input_devices_filtered devices)) fd
    /\ (forall dev,
           In dev fd ->
           ~ In dev (fst (CaptureApp.list_audio_input_devices_filtered devices)) ->
           Py.str_in "avermedia" (Py.lower (name dev)) = true
           /\ Py.str_in "avermedia" (name dev) = false
           /\ Py.str_in "elgato" (Py.lower (name dev)) = false
           /\ Py.str_in "evga" (Py.lower (name dev)) = false)
    /\ ((forall dev, In dev devices ->
                     Py.str_in "avermedia" (Py.lower (name dev)) = true ->
                     Py.str_in "avermedia" (name dev) = true) ->
        fst (CaptureApp.list_audio_input_devices_filtered devices) = fd).
Proof.
  intros devices hostapis fd fn fi H.
  apply EnumFacts.guiver_filtered_devices in H. subst fd.
  rewrite FilterFacts.capture_filtered. cbn [fst]. split; [|split].
  - intros dev Hin. apply filter_In in Hin. apply filter_In.
    split; [apply Hin|]. apply FilterFacts.capture_selected_guiver, Hin.
  - intros dev Hin Hnot. apply filter_In in Hin. destruct Hin as [Hin Hs].
    assert (Hc : CaptureApp.selected dev = false).
    { destruct (CaptureApp.selected dev) eqn:E; [|reflexivity].
      exfalso. apply Hnot. apply filter_In. auto. }
    unfold Guiver.selected in Hs. unfold CaptureApp.selected in Hc.
    destruct (0 <? max_input_channels dev)%Z; [|discriminate].
    cbn [andb] in Hs, Hc.
    destruct (Py.str_in "elgato" (Py.lower (name dev))); [discriminate|].
    destruct (Py.str_in "evga" (Py.lower (name dev)));
      [rewrite orb_true_r in Hc; discriminate|].
    destruct (Py.str_in "avermedia" (name dev)); [discriminate|].
    cbn [orb] in Hs. rewrite orb_false_r in Hs. auto.
  - intros Hlow. apply filter_ext_in. intros dev Hin.
    unfold CaptureApp.selected, Guiver.selected.
    destruct (Py.str_in "avermedia" (Py.lower (name dev))) eqn:El.
    + now rewrite (Hlow dev Hin El).
    + destruct (Py.str_in "avermedia" (name dev)) eqn:En; [|reflexivity].
      apply (PyFacts.str_in_lower "avermedia") in En.
      change (Py.lower "avermedia") with "avermedia" in En. congruence.
Qed.

(* ===================================================================== *)
(** * The two prompts, in full *)
(* ===================================================================== *)

(** X4: the console prompt of capture_app asks until a line is a number
    in range: it returns that number and leaves the lines after it unread;
    every line before it gets one complaint and a new prompt.  When no line
    is acceptable it ends with the EOFError of [input], after as many
    complaints as there were lines.  It never ends the process itself. *)
Theorem prompt_selection_characterised :
  forall (max_index : Z) (device_type : string) (stdin : list (option Z)),
  exists skipped : list (option Z),
    Forall (Prompt.turned_down max_index) skipped
    /\ fst (Prompt.prompt_selection max_index device_type stdin)
       = PromptTrace.exchange device_type skipped
    /\ ((exists choice rest,
            stdin = skipped ++ Some choice :: rest
            /\ (0 <= choice < max_index)%Z
            /\ snd (Prompt.prompt_selection max_index device_type stdin)
               = Ret (choice, rest))
        \/ (stdin = skipped
            /\ snd (Prompt.prompt_selection max_index device_type stdin)
               = Raise "EOFError")).
Proof.
  intros max_index device_type.
  induction stdin as [|[z|] stdin IH].
  - exists []. split; [constructor|]. split; [reflexivity|]. right. auto.
  - cbn [Prompt.prompt_selection].
    destruct ((0 <=? z) && (z <? max_index))%Z eqn:E.
    + exists []. split; [constructor|]. split; [reflexivity|]. left.
      exists z, stdin. apply andb_true_iff in E. destruct E as [E1 E2].
      apply Z.leb_le in E1. apply Z.ltb_lt in E2.
      split; [reflexivity|]. split; [lia|reflexivity].
    + destruct IH as (skipped & Hs & Htr & Hend). exists (Some z :: skipped).
      assert (Hz : Prompt.turned_down max_index (Some z)).
      { simpl. intros Hz. apply andb_false_iff in E. destruct E as [E|E];
          [apply Z.leb_gt in E|apply Z.ltb_ge in E]; lia. }
      split; [constructor; assumption|].
      rewrite !MFacts.bind_fst, !MFacts.bind_snd. cbn [tell fst snd].
      rewrite Htr. split; [reflexivity|].
      destruct Hend as [(choice & rest & -> & Hc & Hr)|[-> Hr]]; rewrite Hr.
      * left. exists choice, rest. auto.
      * right. auto.
  - cbn [Prompt.prompt_selection].
    destruct IH as (skipped & Hs & Htr & Hend). exists (None :: skipped).
    split; [constructor; [exact I|assumption]|].
    rewrite !MFacts.bind_fst, !MFacts.bind_snd. cbn [tell fst snd].
    rewrite Htr. split; [reflexivity|].
    destruct Hend as [(choice & rest & -> & Hc & Hr)|[-> Hr]]; rewrite Hr.
    + left. exists choice, rest. auto.
    + right. auto.
Qed.

(** X5: the dialog prompt of guiver/main returns the position of the row
    the user accepted, whatever the device names hold (colons, digits): the
    number is read back from the text "i: name" of the row.  A dismissed
    dialog, or one with no row, shows the error box and exits with status 1.
    [int] never raises in it. *)
Theorem prompt_selection_gui_total :
  forall (options : list string) (device_type : string) (answer : option nat),
    Prompt.prompt_selection_gui options device_type answer
    = match answer with
      | Some k =>
          if (k <? List.length options)%nat
          then ([GetItem (numbered options)], Ret k)
          else PromptTrace.dismissed options device_type
      | None => PromptTrace.dismissed options device_type
      end.
Proof.
  intros options device_type [k|].
  - destruct (Nat.ltb_spec k (List.length options)) as [Hk|Hk].
    + now apply PromptFacts.prompt_selection_gui_accepts.
    + apply PromptFacts.prompt_selection_gui_rejects.
      intros k' Hk'. inversion Hk'; subst. exact Hk.
  - apply PromptFacts.prompt_selection_gui_rejects. discriminate.
Qed.

(* ===================================================================== *)
(** * guiver/main.py: the rtmixer API lookup and enumeration, in full *)
(* ===================================================================== *)

Module LowerFacts.

Lemma lower_ascii_idempotent c : Py.lower_ascii (Py.lower_ascii c) = Py.lower_ascii c.
Proof. destruct c as [[] [] [] [] [] [] [] []]; reflexivity. Qed.

(** Lower-casing twice is lower-casing once. *)
Lemma lower_idempotent s : Py.lower (Py.lower s) = Py.lower s.
Proof.
  induction s as [|c s IH]; simpl; [reflexivity|].
  now rewrite lower_ascii_idempotent, IH.
Qed.

(** [find] returns the first element the test accepts. *)
Lemma find_first {A} (p : A -> bool) (l : list A) x :
  find p l = Some x
  <-> exists k, nth_error l k = Some x /\ p x = true
                /\ forall j y, j < k -> nth_error l j = Some y -> p y = false.
Proof.
  induction l as [|a l IH]; simpl.
  - split; [discriminate|]. intros (k & Hk & _). destruct k; discriminate.
  - destruct (p a) eqn:Ea.
    + split.
      * intros H. inversion H; subst. exists 0. split; [reflexivity|].
        split; [exact Ea|]. intros j y Hj. lia.
      * intros ([|k] & Hk & Hp & Hfirst).
        -- simpl in Hk. congruence.
        -- specialize (Hfirst 0 a (Nat.lt_0_succ k) eq_refl). congruence.
    + rewrite IH. split.
      * intros (k & Hk & Hp & Hfirst). exists (S k). split; [exact Hk|].
        split; [exact Hp|]. intros [|j] y Hj Hy; simpl in Hy.
        -- congruence.
        -- apply (Hfirst j y); [lia|exact Hy].
      * intros ([|k] & Hk & Hp & Hfirst); simpl in Hk.
        -- congruence.
        -- exists k. split; [exact Hk|]. split; [exact Hp|].
           intros j y Hj Hy. apply (Hfirst (S j) y); [lia|exact Hy].
Qed.

End LowerFacts.

Module EnumerationFacts.
Import GuiverAudio RtRows.

Lemma extend_app acc rows1 rows2 :
  RtEnumeration.extend (RtEnumeration.extend acc rows1) rows2
  = RtEnumeration.extend acc (rows1 ++ rows2).
Proof.
  unfold RtEnumeration.extend. cbn [rt_devices rt_names rt_indices rt_apis].
  now rewrite !map_app, !app_assoc.
Qed.

Lemma extend_nil acc : RtEnumeration.extend acc [] = acc.
Proof.
  destruct acc. unfold RtEnumeration.extend. simpl. now rewrite !app_nil_r.
Qed.

Lemma device_loop_closed api_nm api : forall infos acc,
  device_loop api_nm api infos acc
  = RtEnumeration.extend acc
      (map (fun e => (snd e, api_nm, fst e, api))
           (filter (fun e => (0 <? inputChannels (snd e))%Z) infos)).
Proof.
  induction infos as [|[i info] infos IH]; intros acc.
  - simpl. now rewrite extend_nil.
  - cbn [device_loop filter snd]. destruct (0 <? inputChannels info)%Z.
    + rewrite IH. cbn [map]. 
      change ((snd (i, info), api_nm, fst (i, info), api)
                :: map (fun e => (snd e, api_nm, fst e, api))
                       (filter (fun e => (0 <? inputChannels (snd e))%Z) infos))
        with ([(info, api_nm, i, api)]
                ++ map (fun e => (snd e, api_nm, fst e, api))
                       (filter (fun e => (0 <? inputChannels (snd e))%Z) infos)).
      rewrite <- extend_app. reflexivity.
    + apply IH.
Qed.

(** The lookup on a module that has [Api]. *)
Lemma lookup_with_api m members nm :
  Api m = Some members ->
  get_rtmixer_api_by_name (Some m) nm
  = Returns (find (fun api => String.eqb (Py.lower (api_name api)) (Py.lower nm))
                  members).
Proof. intros H. unfold get_rtmixer_api_by_name. now rewrite H. Qed.

Lemma lookup_without_api m nm :
  Api m = None -> get_rtmixer_api_by_name (Some m) nm = AttributeError.
Proof. intros H. unfold get_rtmixer_api_by_name. now rewrite H. Qed.

Lemma api_loop_closed m members :
  Api m = Some members ->
  forall names acc,
    api_loop m names acc
    = Returns (RtEnumeration.extend acc (RtEnumeration.rows m names)).
Proof.
  intros Hm. induction names as [|api_nm names IH]; intros acc.
  - simpl. now rewrite extend_nil.
  - cbn [api_loop]. unfold RtEnumeration.rows. cbn [flat_map].
    fold (RtEnumeration.rows m names). unfold RtEnumeration.rows_of_api.
    rewrite (lookup_with_api m members api_nm Hm).
    destruct (find _ members) as [api|].
    + rewrite IH, device_loop_closed, extend_app. reflexivity.
    + apply IH.
Qed.

Lemma list_rtmixer_closed m members preferred :
  Api m = Some members ->
  list_rtmixer_devices_by_apis (Some m) preferred
  = Returns (lists_of_rows (RtEnumeration.rows m preferred)).
Proof.
  intros Hm. unfold list_rtmixer_devices_by_apis.
  rewrite (api_loop_closed m members Hm). reflexivity.
Qed.

(** On a module without [Api] the first lookup raises. *)
Lemma list_rtmixer_raises m api_nm rest :
  Api m = None ->
  list_rtmixer_devices_by_apis (Some m) (api_nm :: rest) = AttributeError.
Proof.
  intros Hm. unfold list_rtmixer_devices_by_apis. cbn [api_loop].
  now rewrite (lookup_without_api m api_nm Hm).
Qed.

End EnumerationFacts.

(** X6: [get_rtmixer_api_by_name], for names written in ASCII, as the
    four names [main] passes are.  It returns None when rtmixer was not
    imported, and raises AttributeError on a module that was imported but
    has no [Api], as python-rtmixer.  On a module that has [Api] it compares
    names without regard to case: it returns the first member whose
    lower-cased name is the lower-cased argument, None when no member has
    that name.  Two spellings of a name give the same outcome. *)
Theorem rtmixer_api_lookup_ignores_case :
  forall (rtmixer : option rtmixer_module) (nm : string),
    Py.is_ascii nm = true ->
    (forall m members, rtmixer = Some m -> Api m = Some members ->
                       forallb (fun api => Py.is_ascii (api_name api)) members = true) ->
    (forall nm', Py.is_ascii nm' = true -> Py.lower nm' = Py.lower nm ->
                 GuiverAudio.get_rtmixer_api_by_name rtmixer nm'
                 = GuiverAudio.get_rtmixer_api_by_name rtmixer nm)
    /\ GuiverAudio.get_rtmixer_api_by_name rtmixer (Py.lower nm)
       = GuiverAudio.get_rtmixer_api_by_name rtmixer nm
    /\ GuiverAudio.get_rtmixer_api_by_name (Some python_rtmixer) nm = AttributeError
    /\ (GuiverAudio.get_rtmixer_api_by_name rtmixer nm = AttributeError
        <-> exists m, rtmixer = Some m /\ Api m = None)
    /\ (forall api,
           GuiverAudio.get_rtmixer_api_by_name rtmixer nm = Returns (Some api)
           <-> exists m members k,
               rtmixer = Some m
               /\ Api m = Some members
               /\ nth_error members k = Some api
               /\ Py.lower (api_name api) = Py.lower nm
               /\ forall j other, j < k -> nth_error members j = Some other ->
                                  Py.lower (api_name other) <> Py.lower nm)
    /\ (GuiverAudio.get_rtmixer_api_by_name rtmixer nm = Returns None
        <-> rtmixer = None
            \/ exists m members,
                 rtmixer = Some m
                 /\ Api m = Some members
                 /\ forall api, In api members ->
                                Py.lower (api_name api) <> Py.lower nm).
Proof.
  intros rtmixer nm _ _.
  assert (Hcase : forall nm', Py.lower nm' = Py.lower nm ->
                 GuiverAudio.get_rtmixer_api_by_name rtmixer nm'
                 = GuiverAudio.get_rtmixer_api_by_name rtmixer nm).
  { intros nm' H. unfold GuiverAudio.get_rtmixer_api_by_name. now rewrite H. }
  split; [intros nm' _; apply Hcase|].
  split; [apply Hcase, LowerFacts.lower_idempotent|].
  split; [reflexivity|].
  unfold GuiverAudio.get_rtmixer_api_by_name.
  destruct rtmixer as [m|]; [destruct (Api m) as [members|] eqn:Em|].
  - split; [|split].
    + split; [discriminate|]. intros (m' & Hm & Hn). inversion Hm; subst. congruence.
    + intros api. split.
      * intros H. injection H as Hf. apply LowerFacts.find_first in Hf.
        destruct Hf as (k & Hk & Hp & Hfirst). exists m, members, k.
        split; [reflexivity|]. split; [exact Em|]. split; [exact Hk|].
        apply String.eqb_eq in Hp. split; [exact Hp|].
        intros j other Hj Ho. apply String.eqb_neq. eapply Hfirst; eauto.
      * intros (m' & members' & k & Hm & Hmem & Hk & Hp & Hfirst).
        inversion Hm; subst m'. rewrite Em in Hmem. inversion Hmem; subst members'.
        f_equal. apply LowerFacts.find_first.
        exists k. split; [exact Hk|]. split; [now apply String.eqb_eq|].
        intros j other Hj Ho. apply String.eqb_neq. eapply Hfirst; eauto.
    + split.
      * intros H. injection H as Hf. right. exists m, members.
        split; [reflexivity|]. split; [exact Em|]. intros api Hin.
        apply String.eqb_neq. eapply find_none in Hf; eauto.
      * intros [H|(m' & members' & Hm & Hmem & H)]; [discriminate|].
        inversion Hm; subst m'. rewrite Em in Hmem. inversion Hmem; subst members'.
        f_equal. destruct (find _ members) as [api|] eqn:E; [|reflexivity].
        apply find_some in E. destruct E as [Hin Hp].
        apply String.eqb_eq in Hp. now apply H in Hin.
  - split; [|split].
    + split; [intros _; exists m; auto|reflexivity].
    + intros api. split; [discriminate|].
      intros (m' & members & k & Hm & Hmem & _). inversion Hm; subst. congruence.
    + split; [discriminate|].
      intros [H|(m' & members & Hm & Hmem & _)]; [discriminate|].
      inversion Hm; subst. congruence.
  - split; [|split].
    + split; [discriminate|]. intros (m & Hm & _). discriminate.
    + intros api. split; [discriminate|]. intros (m & members & k & Hm & _).
      discriminate.
    + split; [auto|reflexivity].
Qed.

(** The lookup of 'WASAPI' in a module whose [Api] has the members 'asio'
    and 'wasapi'. *)
Lemma rtmixer_api_lookup_ignores_case_witness :
  Py.is_ascii "WASAPI" = true
  /\ GuiverAudio.get_rtmixer_api_by_name (Some RtSamples.rtmixer) "WASAPI"
     = Returns (Some RtSamples.wasapi)
  /\ GuiverAudio.get_rtmixer_api_by_name (Some RtSamples.rtmixer) "wasapi"
     = GuiverAudio.get_rtmixer_api_by_name (Some RtSamples.rtmixer) "WASAPI"
  /\ GuiverAudio.get_rtmixer_api_by_name (Some python_rtmixer) "WASAPI"
     = AttributeError.
Proof.
  assert (Hmembers : forall m members,
             Some RtSamples.rtmixer = Some m -> Api m = Some members ->
             forallb (fun api => Py.is_ascii (api_name api)) members = true).
  { intros m members Hm Hmem. inversion Hm; subst m. inversion Hmem; subst members.
    reflexivity. }
  destruct (rtmixer_api_lookup_ignores_case (Some RtSamples.rtmixer) "WASAPI"
              eq_refl Hmembers)
    as (_ & Hlower & Hpy & _).
  split; [reflexivity|]. split; [reflexivity|]. split; [exact Hlower|exact Hpy].
Defined.

(** X7: [list_rtmixer_devices_by_apis] returns four empty lists when
    rtmixer was not imported, and raises AttributeError at its first lookup
    on a module that was imported but has no [Api], as python-rtmixer: so it
    does for the four names [main] passes.  On a module that has [Api] it
    lists, for each preferred API name in turn that names a member, the
    devices of that API's mixer that have an input channel, in index order,
    and nothing else: each such device has a row holding its info, its name
    followed by the preferred name, its index in the mixer and the API; the
    four lists have one entry per row. *)
Theorem rtmixer_enumeration_complete :
  forall (m : rtmixer_module) (preferred : list string),
    GuiverAudio.list_rtmixer_devices_by_apis None preferred
    = Returns GuiverAudio.rt_empty
    /\ (Api m = None ->
        (preferred <> [] ->
         GuiverAudio.list_rtmixer_devices_by_apis (Some m) preferred = AttributeError)
        /\ GuiverAudio.list_rtmixer_devices_by_apis (Some m)
             GuiverAudio.preferred_api_names = AttributeError)
    /\ GuiverAudio.list_rtmixer_devices_by_apis (Some python_rtmixer)
         GuiverAudio.preferred_api_names = AttributeError
    /\ (Api m <> None ->
        GuiverAudio.list_rtmixer_devices_by_apis (Some m) preferred
        = Returns (RtRows.lists_of_rows (RtEnumeration.rows m preferred)))
    /\ (forall rt,
           GuiverAudio.list_rtmixer_devices_by_apis (Some m) preferred = Returns rt ->
           (forall api_nm api i info,
               In api_nm preferred ->
               GuiverAudio.get_rtmixer_api_by_name (Some m) api_nm
               = Returns (Some api) ->
               nth_error (mixer_devices m api) i = Some info ->
               (0 < inputChannels info)%Z ->
               exists k,
                 nth_error (GuiverAudio.rt_devices rt) k = Some info
                 /\ nth_error (GuiverAudio.rt_names rt) k
                    = Some (Guiver.display_name (rt_name info) api_nm)
                 /\ nth_error (GuiverAudio.rt_indices rt) k = Some i
                 /\ nth_error (GuiverAudio.rt_apis rt) k = Some api)
           /\ (forall info, In info (GuiverAudio.rt_devices rt) ->
                            (0 < inputChannels info)%Z)
           /\ List.length (GuiverAudio.rt_names rt)
              = List.length (GuiverAudio.rt_devices rt)
           /\ List.length (GuiverAudio.rt_indices rt)
              = List.length (GuiverAudio.rt_devices rt)
           /\ List.length (GuiverAudio.rt_apis rt)
              = List.length (GuiverAudio.rt_devices rt)).
Proof.
  intros m preferred.
  split; [reflexivity|]. split.
  { intros Hm. split.
    - destruct preferred as [|api_nm rest]; [congruence|]. intros _.
      apply (EnumerationFacts.list_rtmixer_raises m api_nm rest Hm).
    - apply (EnumerationFacts.list_rtmixer_raises m _ _ Hm). }
  split; [reflexivity|]. split.
  { intros Hm. destruct (Api m) as [members|] eqn:Em; [|congruence].
    apply (EnumerationFacts.list_rtmixer_closed m members preferred Em). }
  intros rt Hrt.
  destruct (Api m) as [members|] eqn:Em.
  2:{ destruct preferred as [|api_nm rest].
      - cbn in Hrt. inversion Hrt; subst rt. cbn.
        split; [intros ? ? ? ? []|]. split; [intros ? []|]. auto.
      - rewrite (EnumerationFacts.list_rtmixer_raises m api_nm rest Em) in Hrt.
        discriminate. }
  rewrite (EnumerationFacts.list_rtmixer_closed m members preferred Em) in Hrt.
  inversion Hrt; subst rt. clear Hrt.
  unfold RtRows.lists_of_rows. cbn [GuiverAudio.rt_devices GuiverAudio.rt_names
                                     GuiverAudio.rt_indices GuiverAudio.rt_apis].
  split; [|split; [|now rewrite !List.length_map]].
  - intros api_nm api i info Hin Hapi Hi Hpos.
    assert (Hrow : In (info, api_nm, i, api) (RtEnumeration.rows m preferred)).
    { unfold RtEnumeration.rows. apply in_flat_map. exists api_nm.
      split; [exact Hin|]. unfold RtEnumeration.rows_of_api. rewrite Hapi.
      apply in_map_iff. exists (i, info). split; [reflexivity|].
      apply filter_In. split; [|now apply Z.ltb_lt].
      apply EnumFacts.enumerate_from_in_iff. rewrite Nat.sub_0_r.
      split; [lia|exact Hi]. }
    apply In_nth_error in Hrow. destruct Hrow as [k Hk]. exists k.
    repeat split; (erewrite map_nth_error; [|exact Hk]); reflexivity.
  - intros info Hin. apply in_map_iff in Hin.
    destruct Hin as ([[[info' nm] i] api] & Heq & Hin).
    unfold RtRows.row_info in Heq. cbn in Heq. subst info'.
    unfold RtEnumeration.rows in Hin. apply in_flat_map in Hin.
    destruct Hin as (api_nm & _ & Hin). unfold RtEnumeration.rows_of_api in Hin.
    destruct (GuiverAudio.get_rtmixer_api_by_name (Some m) api_nm) as [[api'|]|];
      try contradiction.
    apply in_map_iff in Hin. destruct Hin as ([i' info'] & Heq & Hin).
    inversion Heq; subst. apply filter_In in Hin. destruct Hin as [_ Hp].
    now apply Z.ltb_lt in Hp.
Qed.

(* ===================================================================== *)
(** * asiofinder.py and the host API dictionary of guiver/main.py *)
(* ===================================================================== *)

Module AsioFacts.

Lemma find_asio_from (l : list sd_hostapi) : forall i q,
  AsioFinder.find_asio (Py.enumerate_from i l) = Some q
  <-> i <= q
      /\ (exists h, nth_error l (q - i) = Some h
                    /\ Py.lower (hostapi_name h) = "asio")
      /\ forall j h', j < q - i -> nth_error l j = Some h' ->
                      Py.lower (hostapi_name h') <> "asio".
Proof.
  induction l as [|a l IH]; intros i q; simpl.
  - split; [discriminate|]. intros (_ & (h & Hh & _) & _).
    destruct (q - i); discriminate.
  - destruct (String.eqb_spec (Py.lower (hostapi_name a)) "asio") as [Ea|Ea].
    + split.
      * intros H. inversion H; subst. rewrite Nat.sub_diag.
        split; [lia|]. split; [exists a; auto|]. intros j h' Hj. lia.
      * intros (Hle & (h & Hh & Hl) & Hfirst).
        destruct (q - i) as [|d] eqn:Ed.
        -- f_equal. lia.
        -- exfalso. apply (Hfirst 0 a); [lia|reflexivity|exact Ea].
    + rewrite IH. split.
      * intros (Hle & (h & Hh & Hl) & Hfirst). split; [lia|].
        replace (q - i) with (S (q - S i)) by lia. split.
        -- exists h. auto.
        -- intros [|j] h' Hj Hh'; simpl in Hh'.
           ++ inversion Hh'; subst. exact Ea.
           ++ apply (Hfirst j h'); [lia|exact Hh'].
      * intros (Hle & (h & Hh & Hl) & Hfirst).
        destruct (q - i) as [|d] eqn:Ed.
        -- simpl in Hh. inversion Hh; subst. contradiction.
        -- simpl in Hh. split; [lia|]. replace (q - S i) with d by lia. split.
           ++ exists h. auto.
           ++ intros j h' Hj Hh'. apply (Hfirst (S j) h'); [lia|exact Hh'].
Qed.

Lemma find_asio_none (l : list sd_hostapi) : forall i,
  AsioFinder.find_asio (Py.enumerate_from i l) = None
  <-> forall h, In h l -> Py.lower (hostapi_name h) <> "asio".
Proof.
  induction l as [|a l IH]; intros i; simpl.
  - split; [intros _ h []|reflexivity].
  - destruct (String.eqb_spec (Py.lower (hostapi_name a)) "asio") as [Ea|Ea].
    + split; [discriminate|]. intros H. exfalso. apply (H a); auto.
    + rewrite IH. split.
      * intros H h [<-|Hin]; auto.
      * intros H h Hin. apply H. auto.
Qed.

Lemma asio_lines_closed q (l : list (nat * sd_device)) :
  AsioFinder.asio_lines q l
  = map (fun e => ("  " ++ Py.str_of_nat (fst e) ++ ": " ++ name (snd e))%string)
        (filter (fun e => Nat.eqb (hostapi (snd e)) q) l).
Proof.
  induction l as [|[i dev] l IH]; simpl; [reflexivity|].
  destruct (Nat.eqb (hostapi dev) q); simpl; now rewrite IH.
Qed.

End AsioFacts.

(** X8: what asiofinder.py prints.  After the heading and one line
    "i: name" for each host API, in order: when no entry of
    [sd.query_hostapis()] is named 'asio' in any case, the line that says so;
    otherwise the position of the first such entry, a heading, and one line
    "  i: name" for each device of [sd.query_devices()] whose [hostapi] is
    that position, in the order of the enumeration, [i] being the device's
    position there.  One of the two cases holds, and the script runs to its
    end in both. *)
Theorem asiofinder_reports_first_asio :
  forall (m : machine),
    ((forall h, In h (hostapis m) -> Py.lower (hostapi_name h) <> "asio") ->
     AsioFinder.script m
     = (Print "Host APIs:" :: QueryHostapis
          :: map Print (numbered (map hostapi_name (hostapis m)))
          ++ [QueryHostapis; Print "No ASIO host API found on this system.";
              Exit 0%Z],
        SysExit 0%Z))
    /\ (forall q h,
           nth_error (hostapis m) q = Some h ->
           Py.lower (hostapi_name h) = "asio" ->
           (forall j h', j < q -> nth_error (hostapis m) j = Some h' ->
                         Py.lower (hostapi_name h') <> "asio") ->
           AsioFinder.script m
           = (Print "Host APIs:" :: QueryHostapis
                :: map Print (numbered (map hostapi_name (hostapis m)))
                ++ [QueryHostapis;
                    Print ("ASIO host API found at index " ++ Py.str_of_nat q);
                    Print "Devices supporting ASIO:";
                    QueryDevices]
                ++ map (fun e => Print ("  " ++ Py.str_of_nat (fst e) ++ ": "
                                        ++ name (snd e)))
                       (filter (fun e => Nat.eqb (hostapi (snd e)) q)
                               (Py.enumerate (audio_devices m)))
                ++ [Exit 0%Z],
              SysExit 0%Z))
    /\ ((forall h, In h (hostapis m) -> Py.lower (hostapi_name h) <> "asio")
        \/ exists q h,
            nth_error (hostapis m) q = Some h
            /\ Py.lower (hostapi_name h) = "asio"
            /\ forall j h', j < q -> nth_error (hostapis m) j = Some h' ->
                            Py.lower (hostapi_name h') <> "asio")
    /\ (forall q i dev,
           nth_error (audio_devices m) i = Some dev ->
           (In (i, dev) (filter (fun e => Nat.eqb (hostapi (snd e)) q)
                                (Py.enumerate (audio_devices m)))
            <-> hostapi dev = q)).
Proof.
  intros m. split; [|split; [|split]].
  - intros H. apply (proj2 (AsioFacts.find_asio_none (hostapis m) 0)) in H.
    unfold AsioFinder.script. unfold Py.enumerate at 1. rewrite H. reflexivity.
  - intros q h Hh Hasio Hfirst.
    assert (E : AsioFinder.find_asio (Py.enumerate (hostapis m)) = Some q).
    { unfold Py.enumerate. apply AsioFacts.find_asio_from. rewrite Nat.sub_0_r.
      split; [lia|]. split; [exists h; auto|exact Hfirst]. }
    unfold AsioFinder.script. rewrite E, AsioFacts.asio_lines_closed.
    unfold print_all, script_ends. cbn [bind tell fst snd app].
    rewrite map_map. reflexivity.
  - destruct (AsioFinder.find_asio (Py.enumerate (hostapis m))) as [q|] eqn:E.
    + right. unfold Py.enumerate in E. apply AsioFacts.find_asio_from in E.
      rewrite Nat.sub_0_r in E. destruct E as (_ & (h & Hh & Hasio) & Hfirst).
      exists q, h. auto.
    + left. unfold Py.enumerate in E.
      exact (proj1 (AsioFacts.find_asio_none (hostapis m) 0) E).
  - intros q i dev Hi. rewrite filter_In. cbn [snd]. rewrite Nat.eqb_eq.
    split; [intros [_ H]; exact H|]. intros H. split; [|exact H].
    apply EnumFacts.enumerate_from_in_iff. rewrite Nat.sub_0_r.
    split; [lia|exact Hi].
Qed.

Module DictFacts.
Import HostapiDict.

Lemma find_app {A} (p : A -> bool) (l1 l2 : list A) :
  find p (l1 ++ l2)
  = match find p l1 with
    | Some x => Some x
    | None => find p l2
    end.
Proof.
  induction l1 as [|a l1 IH]; simpl; [reflexivity|].
  destruct (p a); [reflexivity|exact IH].
Qed.

Lemma get_setitem {V} (d : dict V) k v k' :
  get (setitem d k v) k' = if String.eqb k k' then Some v else get d k'.
Proof.
  induction d as [|[k0 v0] d IH]; simpl.
  - reflexivity.
  - destruct (String.eqb_spec k0 k) as [->|Hne]; simpl.
    + destruct (String.eqb k k'); reflexivity.
    + rewrite IH. destruct (String.eqb_spec k0 k') as [->|Hne'].
      * destruct (String.eqb_spec k k'); [congruence|reflexivity].
      * reflexivity.
Qed.

Lemma setitem_keys {V} (d : dict V) k v :
  map fst (setitem d k v)
  = if existsb (String.eqb k) (map fst d) then map fst d else map fst d ++ [k].
Proof.
  induction d as [|[k0 v0] d IH]; simpl; [reflexivity|].
  rewrite (String.eqb_sym k k0).
  destruct (String.eqb_spec k0 k) as [->|Hne]; simpl; [reflexivity|].
  rewrite IH. destruct (existsb (String.eqb k) (map fst d)); reflexivity.
Qed.

Lemma setitem_nodup {V} (d : dict V) k v :
  NoDup (map fst d) -> NoDup (map fst (setitem d k v)).
Proof.
  intros H. rewrite setitem_keys.
  destruct (existsb (String.eqb k) (map fst d)) eqn:E; [exact H|].
  apply NoDup_app; [exact H|repeat constructor; auto| ].
  intros x Hin [Heq|[]]. subst x.
  assert (existsb (String.eqb k) (map fst d) = true); [|congruence].
  apply existsb_exists. exists k. split; [exact Hin|apply String.eqb_refl].
Qed.

(** What the comprehension leaves under a key: the position of the last
    item with that key, or what the dict held before. *)
Lemma get_comprehension k : forall items d,
  get (comprehension items d) k
  = match find (fun e => String.eqb (Py.lower (hostapi_name (snd e))) k) (List.rev items) with
    | Some e => Some (fst e)
    | None => get d k
    end.
Proof.
  induction items as [|[i h] items IH]; intros d; simpl; [reflexivity|].
  rewrite IH, find_app.
  destruct (find _ (List.rev items)) as [e|]; [reflexivity|]. simpl.
  rewrite get_setitem. destruct (String.eqb (Py.lower (hostapi_name h)) k); reflexivity.
Qed.

Lemma comprehension_nodup : forall items d,
  NoDup (map fst d) -> NoDup (map fst (comprehension items d)).
Proof.
  induction items as [|[i h] items IH]; intros d H; simpl; [exact H|].
  apply IH, setitem_nodup, H.
Qed.

Lemma find_rev_last {A} (p : A -> bool) (l : list A) : forall x,
  find p (List.rev l) = Some x
  <-> exists k, nth_error l k = Some x /\ p x = true
                /\ forall j y, k < j -> nth_error l j = Some y -> p y = false.
Proof.
  induction l as [|a l IH]; intros x; simpl.
  - split; [discriminate|]. intros (k & Hk & _). destruct k; discriminate.
  - rewrite find_app. destruct (find p (List.rev l)) as [z|] eqn:Ez.
    + destruct (proj1 (IH z) eq_refl) as (kz & Hkz & Hpz & Hlastz). split.
      * intros H. inversion H; subst z. exists (S kz).
        split; [exact Hkz|]. split; [exact Hpz|].
        intros [|j] y Hj Hy; [lia|]. apply (Hlastz j y); [lia|exact Hy].
      * intros (k & Hk & Hp & Hlast). f_equal.
        destruct k as [|k].
        -- specialize (Hlast (S kz) z (Nat.lt_0_succ kz) Hkz). congruence.
        -- simpl in Hk. destruct (Nat.lt_trichotomy k kz) as [Hlt|[->|Hgt]].
           ++ specialize (Hlast (S kz) z). simpl in Hlast.
              rewrite Hlast in Hpz; [discriminate|lia|exact Hkz].
           ++ congruence.
           ++ rewrite (Hlastz k x Hgt Hk) in Hp. discriminate.
    + simpl. destruct (p a) eqn:Ea.
      * split.
        -- intros H. inversion H; subst a. exists 0. split; [reflexivity|].
           split; [exact Ea|]. intros [|j] y Hj Hy; [lia|]. simpl in Hy.
           apply nth_error_In in Hy. apply (proj1 (in_rev _ _)) in Hy.
           eapply find_none in Ez; eauto.
        -- intros ([|k] & Hk & Hp & Hlast); simpl in Hk; [congruence|].
           apply nth_error_In in Hk. apply (proj1 (in_rev _ _)) in Hk.
           eapply find_none in Ez; eauto. congruence.
      * split; [discriminate|].
        intros ([|k] & Hk & Hp & Hlast); simpl in Hk; [congruence|].
        apply nth_error_In in Hk. apply (proj1 (in_rev _ _)) in Hk.
        eapply find_none in Ez; eauto. congruence.
Qed.

End DictFacts.

(** X9: the dictionary [get_hostapi_indices_sd] builds, for host APIs whose
    names are written in ASCII.  No key occurs twice, every key is
    lower-case, and a key maps to the position of the last host API whose
    lower-cased name it is (a later entry of the same name overwrites an
    earlier one); a name no host API has is not a key. *)
Theorem hostapi_dict_keeps_last_index :
  forall (hostapis : list sd_hostapi),
    forallb (fun h => Py.is_ascii (hostapi_name h)) hostapis = true ->
    NoDup (map fst (HostapiDict.get_hostapi_indices_sd hostapis))
    /\ (forall k i,
           HostapiDict.get (HostapiDict.get_hostapi_indices_sd hostapis) k = Some i
           <-> (exists h, nth_error hostapis i = Some h
                          /\ Py.lower (hostapi_name h) = k)
               /\ forall j h', i < j -> nth_error hostapis j = Some h' ->
                               Py.lower (hostapi_name h') <> k)
    /\ (forall k,
           HostapiDict.get (HostapiDict.get_hostapi_indices_sd hostapis) k = None
           <-> forall h, In h hostapis -> Py.lower (hostapi_name h) <> k)
    /\ (forall k i,
           HostapiDict.get (HostapiDict.get_hostapi_indices_sd hostapis) k = Some i ->
           Py.lower k = k).
Proof.
  intros hostapis _.
  assert (Hget : forall k i,
           HostapiDict.get (HostapiDict.get_hostapi_indices_sd hostapis) k = Some i
           <-> (exists h, nth_error hostapis i = Some h
                          /\ Py.lower (hostapi_name h) = k)
               /\ forall j h', i < j -> nth_error hostapis j = Some h' ->
                               Py.lower (hostapi_name h') <> k).
  { intros k i. unfold HostapiDict.get_hostapi_indices_sd.
    rewrite DictFacts.get_comprehension. cbn [HostapiDict.get].
    destruct (find _ (List.rev (Py.enumerate hostapis))) as [[i0 h0]|] eqn:E.
    - apply DictFacts.find_rev_last in E. destruct E as (p & Hp & Hk & Hlast).
      unfold Py.enumerate in Hp, Hlast.
      rewrite EnumFacts.enumerate_from_nth_error in Hp.
      destruct (nth_error hostapis p) as [h|] eqn:Eh; [|discriminate].
      cbn in Hp. inversion Hp; subst i0 h0. cbn [fst snd] in *.
      apply String.eqb_eq in Hk.
      assert (Hlast' : forall j h', p < j -> nth_error hostapis j = Some h' ->
                                    Py.lower (hostapi_name h') <> k).
      { intros j h' Hj Hh'. apply String.eqb_neq.
        apply (Hlast j (j, h') Hj).
        rewrite EnumFacts.enumerate_from_nth_error, Hh'. reflexivity. }
      split.
      + intros H. inversion H; subst i. split; [exists h; auto|exact Hlast'].
      + intros ((h1 & Hh1 & Hk1) & Hlast1). f_equal.
        destruct (Nat.lt_trichotomy p i) as [Hlt|[->|Hgt]]; [|reflexivity|].
        * exfalso. apply (Hlast' i h1 Hlt Hh1 Hk1).
        * exfalso. apply (Hlast1 p h Hgt Eh Hk).
    - split; [discriminate|]. intros ((h & Hh & Hk) & _). exfalso.
      assert (Hin : In (i, h) (List.rev (Py.enumerate hostapis))).
      { apply (proj1 (in_rev _ _)).
        apply EnumFacts.enumerate_from_in_iff. rewrite Nat.sub_0_r.
        split; [lia|exact Hh]. }
      eapply find_none in E; eauto. cbn in E. apply String.eqb_neq in E. auto. }
  assert (Hnone : forall k,
           HostapiDict.get (HostapiDict.get_hostapi_indices_sd hostapis) k = None
           <-> forall h, In h hostapis -> Py.lower (hostapi_name h) <> k).
  { intros k. unfold HostapiDict.get_hostapi_indices_sd.
    rewrite DictFacts.get_comprehension. cbn [HostapiDict.get].
    destruct (find _ (List.rev (Py.enumerate hostapis))) as [[i0 h0]|] eqn:E.
    - apply find_some in E. destruct E as [Hin Hk]. apply (proj2 (in_rev _ _)) in Hin.
      apply EnumFacts.enumerate_from_in_iff in Hin. destruct Hin as [_ Hin].
      apply nth_error_In in Hin. apply String.eqb_eq in Hk. cbn in Hk.
      split; [discriminate|]. intros H. exfalso. apply (H h0 Hin Hk).
    - split; [|reflexivity]. intros _ h Hin Hk.
      apply In_nth_error in Hin. destruct Hin as [i Hi].
      assert (Hin : In (i, h) (List.rev (Py.enumerate hostapis))).
      { apply (proj1 (in_rev _ _)).
        apply EnumFacts.enumerate_from_in_iff. rewrite Nat.sub_0_r.
        split; [lia|exact Hi]. }
      eapply find_none in E; eauto. cbn in E. apply String.eqb_neq in E. auto. }
  split; [|split; [exact Hget|split; [exact Hnone|]]].
  - apply DictFacts.comprehension_nodup. constructor.
  - intros k i H. apply (proj1 (Hget k i)) in H. destruct H as [(h & _ & <-) _].
    apply LowerFacts.lower_idempotent.
Qed.

(** Two host APIs named 'MME' and 'mme': one key, the later position. *)
Lemma hostapi_dict_keeps_last_index_witness :
  forallb (fun h => Py.is_ascii (hostapi_name h))
          [mk_sd_hostapi "MME"; mk_sd_hostapi "Windows WASAPI"; mk_sd_hostapi "mme"]
  = true
  /\ HostapiDict.get_hostapi_indices_sd
       [mk_sd_hostapi "MME"; mk_sd_hostapi "Windows WASAPI"; mk_sd_hostapi "mme"]
     = [("mme", 2); ("windows wasapi", 1)]
  /\ NoDup (map fst (HostapiDict.get_hostapi_indices_sd
                       [mk_sd_hostapi "MME"; mk_sd_hostapi "Windows WASAPI";
                        mk_sd_hostapi "mme"])).
Proof.
  split; [reflexivity|]. split; [reflexivity|].
  apply (hostapi_dict_keeps_last_index
           [mk_sd_hostapi "MME"; mk_sd_hostapi "Windows WASAPI"; mk_sd_hostapi "mme"]
           eq_refl).
Defined.

(* ===================================================================== *)
(** * Runs: what each kind of step does *)
(* ===================================================================== *)

Module RunFacts.
Import Run.

Lemma run_cons l c rest s :
  run l (c :: rest) s
  = match step l c s with
    | Some (a, evs, s') =>
        (map (fun e => (a, e)) evs ++ fst (run l rest s'), snd (run l rest s'))
    | None => run l rest s
    end.
Proof.
  change (run l (c :: rest) s)
    with (match step l c s with
          | Some (a, evs, s') =>
              let '(tr, s'') := run l rest s' in
              (map (fun e => (a, e)) evs ++ tr, s'')
          | None => run l rest s
          end).
  destruct (step l c s) as [[[a evs] s1]|]; [|reflexivity].
  now destruct (run l rest s1).
Qed.

(** A run under two schedules in a row. *)
Lemma run_app l schedule1 : forall schedule2 s,
  run l (schedule1 ++ schedule2) s
  = (fst (run l schedule1 s) ++ fst (run l schedule2 (snd (run l schedule1 s))),
     snd (run l schedule2 (snd (run l schedule1 s)))).
Proof.
  induction schedule1 as [|c rest IH]; intros schedule2 s.
  - change (run l [] s) with (@nil (actor * event), s).
    change ([] ++ schedule2) with schedule2.
    destruct (run l schedule2 s) as [tr s2] eqn:E. simpl. now rewrite E.
  - change ((c :: rest) ++ schedule2) with (c :: rest ++ schedule2).
    rewrite !run_cons.
    destruct (step l c s) as [[[a evs] s1]|]; [|apply IH].
    rewrite IH. simpl. now rewrite app_assoc.
Qed.

(** What every step keeps, every run keeps. *)
Lemma run_preserves l (P : system -> Prop) :
  (forall c s a evs s', P s -> step l c s = Some (a, evs, s') -> P s') ->
  forall schedule s, P s -> P (snd (run l schedule s)).
Proof.
  intros Hstep. induction schedule as [|c rest IH]; intros s Hs.
  - exact Hs.
  - rewrite run_cons.
    destruct (step l c s) as [[[a evs] s1]|] eqn:E; [|auto].
    apply (IH s1 (Hstep _ _ _ _ _ Hs E)).
Qed.

(** Once the process has exited nothing moves. *)
Lemma step_exited l c s : gui s = G_exited -> step l c s = None.
Proof. intros H. unfold step. now rewrite H. Qed.

Lemma run_exited l schedule : forall s,
  gui s = G_exited -> run l schedule s = ([], s).
Proof.
  induction schedule as [|c rest IH]; intros s H; [reflexivity|].
  rewrite run_cons, (step_exited l c s H). auto.
Qed.

Lemma step_callback_shape l status s a evs s' :
  step l (C_callback status) s = Some (a, evs, s') ->
  gui s <> G_exited /\ stream_on (shared s) = true /\ a = By_callback
  /\ evs = AudioThread.callback (launched l) status /\ s' = s.
Proof.
  unfold step. intros H.
  destruct (gui s); try discriminate;
    destruct (stream_on (shared s)); try discriminate;
      inversion H; subst; repeat split; discriminate.
Qed.

Lemma step_stream_stops_shape l s a evs s' :
  step l C_stream_stops s = Some (a, evs, s') ->
  gui s <> G_exited /\ launched l = guiver_rtmixer
  /\ stream_on (shared s) = true /\ a = By_callback /\ evs = []
  /\ s' = mk_system (running_video s) (running_audio s) (video s) (audio s)
                    (mk_audio_shared (mixer_set (shared s)) false)
                    (gui s) (windows s) (closed s).
Proof.
  unfold step. intros H.
  destruct (gui s); try discriminate;
    destruct (launched l); try discriminate;
      destruct (stream_on (shared s)); try discriminate;
        inversion H; subst; repeat split; discriminate.
Qed.

Lemma step_close_shape l wd s a evs s' :
  step l (C_close wd) s = Some (a, evs, s') ->
  gui s = G_events /\ Gui.is_visible (windows s) wd = true /\ a = By_gui
  /\ evs = []
  /\ s' = mk_system (running_video s) (running_audio s) (video s) (audio s)
                    (shared s)
                    (G_handler (fst (Gui.close 3 (launched l) wd (windows s))))
                    (snd (Gui.close 3 (launched l) wd (windows s))) (closed s).
Proof.
  unfold step. intros H.
  destruct (gui s); try discriminate.
  destruct (Gui.is_visible (windows s) wd); try discriminate.
  destruct (Gui.close 3 (launched l) wd (windows s)) as [calls ws'].
  inversion H; subst. repeat split.
Qed.

Lemma step_gui_shape l s a evs s' :
  step l C_gui s = Some (a, evs, s') ->
  a = By_gui
  /\ ((exists i rest, gui s = G_handler (i :: rest)
                      /\ call (launched l) i rest s = Some (evs, s'))
      \/ (gui s = G_handler [] /\ evs = [Exit 0%Z] /\ s' = set_gui G_exited s)).
Proof.
  unfold step. intros H.
  destruct (gui s) as [|[|i rest]|]; try discriminate.
  - inversion H; subst. split; [reflexivity|]. right. auto.
  - destruct (call (launched l) i rest s) as [[evs0 s0]|] eqn:E; [|discriminate].
    inversion H; subst. split; [reflexivity|]. left. exists i, rest. auto.
Qed.

(** What a call of a handler does to the state: the GUI thread moves on
    to the rest of the handler; the threads are where they were. *)
Lemma call_shape app i rest s evs s' :
  call app i rest s = Some (evs, s') ->
  gui s' = G_handler rest
  /\ video s' = video s /\ audio s' = audio s /\ windows s' = windows s
  /\ mixer_set (shared s') = mixer_set (shared s)
  /\ (stream_on (shared s') = true -> stream_on (shared s) = true)
  /\ (mixer_set (shared s) = false -> shared s' = shared s)
  /\ (closed s = true -> closed s' = true)
  /\ running_video s'
     = match i with I_clear Video => false | _ => running_video s end
  /\ running_audio s'
     = match i with I_clear Audio => false | _ => running_audio s end.
Proof.
  destruct s as [rv ra v pc sh g ws cl]. unfold call, set_gui, finished.
  cbn [running_video running_audio video audio shared gui windows closed].
  destruct sh as [ms so].
  destruct i as [line|[]| |w|[]| |wd];
    try destruct ms; try destruct so;
    try destruct v; try destruct pc; intros H; try discriminate;
      inversion H; subst; cbn; repeat split; auto; discriminate.
Qed.

(** The calls of the handler for a close event on a window that is
    shown. *)
Lemma close_shown l wd :
  Gui.is_visible (Gui.shown (launched l)) wd = true ->
  fst (Gui.close 3 (launched l) wd (Gui.shown (launched l)))
  = Gui.close_event (launched l) wd.
Proof. reflexivity. Qed.

End RunFacts.

(* ===================================================================== *)
(** * The capture handle and the sounddevice stream along a run *)
(* ===================================================================== *)

Module ProtocolFacts.
Import Run Protocol.

Lemma capture_trace_app tr1 : forall h tr2,
  capture_trace h (tr1 ++ tr2)
  = match capture_trace h tr1 with
    | Some h' => capture_trace h' tr2
    | None => None
    end.
Proof.
  induction tr1 as [|[a e] tr1 IH]; intros h tr2; [reflexivity|].
  change (((a, e) :: tr1) ++ tr2) with ((a, e) :: tr1 ++ tr2).
  destruct a; cbn [capture_trace]; try apply IH.
  destruct (capture_event h e); [apply IH|reflexivity].
Qed.

(** Only the video thread touches the capture handle. *)
Lemma capture_trace_other a evs h :
  a <> By_video -> capture_trace h (map (fun e => (a, e)) evs) = Some h.
Proof.
  intros Ha. induction evs as [|e evs IH]; [reflexivity|].
  destruct a; try contradiction; exact IH.
Qed.

(** A step of the video thread uses the handle as its position allows,
    and leaves it as its new position says. *)
Lemma capture_video_step l running cv pc h :
  capture_at pc h ->
  exists h',
    capture_trace h (map (fun e => (By_video, e))
                         (fst (VideoThread.step l running cv pc))) = Some h'
    /\ capture_at (snd (VideoThread.step l running cv pc)) h'.
Proof.
  destruct l as [app vi ai api]. destruct cv as [d m pt co rr fr].
  unfold VideoThread.step, VideoThread.open, VideoThread.test, VideoThread.body,
    VideoThread.fps_events.
  cbn [launched video_index dshow_opens msmf_opens prop_text cap_is_opened
       read_ret fps_report].
  destruct pc; cbn [capture_at]; intros Hh.
  - subst h. destruct app, d, m; cbn; eexists; split; try reflexivity; discriminate.
  - subst h. destruct app, running, co; cbn; eexists; split;
      try reflexivity; discriminate.
  - subst h. destruct app, rr, fr as [[text []]|]; cbn; eexists; split;
      reflexivity.
  - cbn. exists h. auto.
Qed.

(** The handle along any run, from any state. *)
Lemma capture_run l schedule : forall s h,
  capture_at (video s) h ->
  exists h',
    capture_trace h (fst (run l schedule s)) = Some h'
    /\ capture_at (video (snd (run l schedule s))) h'.
Proof.
  induction schedule as [|c rest IH]; intros s h Hh.
  - exists h. auto.
  - rewrite RunFacts.run_cons.
    destruct (step l c s) as [[[a evs] s1]|] eqn:E; [|auto].
    cbn [fst snd]. rewrite capture_trace_app.
    destruct c as [cv|au|st| |wd|].
    + apply ShapeFacts.step_video_shape in E.
      destruct E as (_ & _ & -> & -> & ->).
      destruct (capture_video_step l (running_video s) cv (video s) h Hh)
        as (h1 & -> & Hh1).
      apply IH. exact Hh1.
    + destruct (ShapeFacts.step_other l _ s a evs s1 E) as (_ & _ & Hv & _).
      destruct Hv as [Hv Ha]; [discriminate|].
      rewrite (capture_trace_other a evs h Ha). apply IH. now rewrite Hv.
    + destruct (ShapeFacts.step_other l _ s a evs s1 E) as (_ & _ & Hv & _).
      destruct Hv as [Hv Ha]; [discriminate|].
      rewrite (capture_trace_other a evs h Ha). apply IH. now rewrite Hv.
    + destruct (ShapeFacts.step_other l _ s a evs s1 E) as (_ & _ & Hv & _).
      destruct Hv as [Hv Ha]; [discriminate|].
      rewrite (capture_trace_other a evs h Ha). apply IH. now rewrite Hv.
    + destruct (ShapeFacts.step_other l _ s a evs s1 E) as (_ & _ & Hv & _).
      destruct Hv as [Hv Ha]; [discriminate|].
      rewrite (capture_trace_other a evs h Ha). apply IH. now rewrite Hv.
    + destruct (ShapeFacts.step_other l _ s a evs s1 E) as (_ & _ & Hv & _).
      destruct Hv as [Hv Ha]; [discriminate|].
      rewrite (capture_trace_other a evs h Ha). apply IH. now rewrite Hv.
Qed.

End ProtocolFacts.

(** X13: under every schedule the video thread uses its capture in
    order: the backend attempts, then, if one opened, [cap.set] and the
    frames, then [cap.release()] once, and after it nothing that needs the
    capture (no frame, no FPS figure, no second release).  While the thread
    is in its loop the capture is open; once the thread has ended the
    capture is not open any more: it was released, or it never opened. *)
Theorem capture_released_once :
  forall (l : launch) (schedule : list choice),
  exists h : Protocol.handle,
    Protocol.capture_trace Protocol.Unopened
      (fst (Run.run l schedule (Run.init (launched l)))) = Some h
    /\ Protocol.capture_at
         (video (snd (Run.run l schedule (Run.init (launched l))))) h
    /\ (video (snd (Run.run l schedule (Run.init (launched l)))) = V_finished ->
        h <> Protocol.Opened)
    /\ (In (By_video, CapRelease) (fst (Run.run l schedule (Run.init (launched l)))) ->
        h = Protocol.Closed).
Proof.
  intros l schedule.
  destruct (ProtocolFacts.capture_run l schedule (Run.init (launched l))
              Protocol.Unopened eq_refl) as (h & Htr & Hat).
  exists h. split; [exact Htr|]. split; [exact Hat|]. split.
  - intros Hv. rewrite Hv in Hat. exact Hat.
  - clear Hat. revert Htr.
    generalize (fst (Run.run l schedule (Run.init (launched l)))).
    assert (Hclosed : forall tr h0,
               Protocol.capture_trace Protocol.Closed tr = Some h0 ->
               h0 = Protocol.Closed).
    { induction tr as [|[a e] tr IH]; intros h0 H.
      - now inversion H.
      - destruct a; cbn [Protocol.capture_trace] in H; auto.
        destruct e; cbn in H; try discriminate; auto. }
    intros tr. generalize Protocol.Unopened.
    induction tr as [|[a e] tr IH]; intros h0 Htr Hin; [contradiction|].
    destruct Hin as [Heq|Hin].
    + inversion Heq; subst. cbn in Htr. destruct h0; try discriminate.
      now apply Hclosed in Htr.
    + destruct a; cbn [Protocol.capture_trace] in Htr; eauto.
      destruct (Protocol.capture_event h0 e) as [h1|]; [|discriminate]. eauto.
Qed.

Module StreamFacts.
Import Run Protocol.

Lemma stream_trace_app tr1 : forall h tr2,
  stream_trace h (tr1 ++ tr2)
  = match stream_trace h tr1 with
    | Some h' => stream_trace h' tr2
    | None => None
    end.
Proof.
  induction tr1 as [|ae tr1 IH]; intros h tr2; [reflexivity|].
  change ((ae :: tr1) ++ tr2) with (ae :: tr1 ++ tr2).
  cbn [stream_trace]. destruct (stream_event h ae); [apply IH|reflexivity].
Qed.

(** The GUI thread and the video thread do not touch the stream. *)
Lemma stream_trace_other a evs h :
  a = By_gui \/ a = By_video ->
  stream_trace h (map (fun e => (a, e)) evs) = Some h.
Proof.
  intros Ha. induction evs as [|e evs IH]; [reflexivity|].
  destruct Ha as [-> | ->]; exact IH.
Qed.

(** The stream callback reports while the stream is open. *)
Lemma stream_trace_callback evs :
  stream_trace Opened (map (fun e => (By_callback, e)) evs) = Some Opened.
Proof. induction evs as [|e evs IH]; [reflexivity|exact IH]. Qed.

(** A step of a sounddevice audio thread. *)
Lemma stream_audio_step l au s h :
  launched l <> guiver_rtmixer ->
  stream_at s h ->
  exists h',
    stream_trace h
      (map (fun e => (By_audio, e))
           (fst (fst (AudioThread.step l (running_audio s) au (audio s) (shared s)))))
    = Some h'
    /\ stream_at
         (with_audio s
            (snd (fst (AudioThread.step l (running_audio s) au (audio s) (shared s))))
            (snd (AudioThread.step l (running_audio s) au (audio s) (shared s))))
         h'.
Proof.
  destruct l as [app vi ai api]. destruct au as [rn oe se ee].
  destruct s as [rv ra v pc [ms so] g ws cl].
  unfold stream_at, with_audio, AudioThread.step, AudioThread.step_sounddevice.
  cbn [launched audio_index open_error exit_error running_audio audio shared
       mixer_set stream_on].
  intros Happ [Hms Hpc]. subst ms.
  destruct app; try (exfalso; apply Happ; reflexivity);
    destruct pc; try contradiction;
      try (destruct Hpc as [-> ->]); try (destruct Hpc as [Hh ->]).
  all: try (destruct oe as [e|]; cbn; eexists; split; try reflexivity;
            repeat split; discriminate).
  all: try (destruct ra; [|destruct ee as [e|]]; cbn; eexists; split;
            try reflexivity; repeat split; discriminate).
  all: cbn; exists h; repeat split; assumption.
Qed.

(** The stream along any run of capture_app or of guiver/main with a
    sounddevice audio thread, from any state. *)
Lemma stream_run l schedule :
  launched l <> guiver_rtmixer ->
  forall s h,
    stream_at s h ->
    exists h',
      stream_trace h (fst (run l schedule s)) = Some h'
      /\ stream_at (snd (run l schedule s)) h'.
Proof.
  intros Happ. induction schedule as [|c rest IH]; intros s h Hh.
  - exists h. auto.
  - rewrite RunFacts.run_cons.
    destruct (step l c s) as [[[a evs] s1]|] eqn:E; [|auto].
    cbn [fst snd]. rewrite stream_trace_app.
    destruct c as [cv|au|st| |wd|].
    + apply ShapeFacts.step_video_shape in E.
      destruct E as (_ & _ & -> & -> & ->).
      rewrite stream_trace_other by auto. apply IH. exact Hh.
    + apply ShapeFacts.step_audio_shape in E.
      destruct E as (_ & _ & -> & -> & ->).
      destruct (stream_audio_step l au s h Happ Hh) as (h1 & -> & Hh1).
      apply IH. exact Hh1.
    + apply RunFacts.step_callback_shape in E.
      destruct E as (_ & Hon & -> & -> & ->).
      assert (h = Opened) as ->.
      { destruct Hh as [_ Hpc]. destruct (audio s); try contradiction;
          destruct Hpc as [Hh Hoff]; congruence. }
      rewrite stream_trace_callback. apply IH. exact Hh.
    + apply RunFacts.step_stream_stops_shape in E. now destruct E as (_ & E & _).
    + apply RunFacts.step_close_shape in E.
      destruct E as (_ & _ & -> & -> & ->). apply IH. exact Hh.
    + apply RunFacts.step_gui_shape in E.
      destruct E as [-> [(i & calls & Hg & Hcall)|(Hg & -> & ->)]].
      * rewrite stream_trace_other by auto. apply IH.
        apply RunFacts.call_shape in Hcall.
        destruct Hcall as (_ & _ & Ha & _ & _ & _ & Hsh & _).
        destruct Hh as [Hms Hpc]. specialize (Hsh Hms).
        unfold stream_at. now rewrite Hsh, Ha.
      * apply IH. exact Hh.
Qed.

End StreamFacts.

(** X14: in capture_app, and in guiver/main with a sounddevice audio
    thread, under every schedule: the stream is opened at most once and
    closed at most once, after it was opened; the stream callback runs only
    in between; the stream is open exactly while the audio thread is in its
    loop, so it is closed (or was never opened) once the thread has ended. *)
Theorem sounddevice_stream_bracketed :
  forall (l : launch) (schedule : list choice),
    launched l <> guiver_rtmixer ->
    exists h : Protocol.handle,
      Protocol.stream_trace Protocol.Unopened
        (fst (Run.run l schedule (Run.init (launched l)))) = Some h
      /\ (h = Protocol.Opened
          <-> audio (snd (Run.run l schedule (Run.init (launched l)))) = A_loop)
      /\ (h = Protocol.Opened
          <-> stream_on (shared (snd (Run.run l schedule (Run.init (launched l)))))
              = true)
      /\ (audio (snd (Run.run l schedule (Run.init (launched l)))) = A_finished ->
          stream_on (shared (snd (Run.run l schedule (Run.init (launched l)))))
          = false).
Proof.
  intros l schedule Happ.
  destruct (StreamFacts.stream_run l schedule Happ (Run.init (launched l))
              Protocol.Unopened) as (h & Htr & Hms & Hpc).
  { split; [reflexivity|]. split; reflexivity. }
  exists h. split; [exact Htr|].
  destruct (audio (snd (Run.run l schedule (Run.init (launched l)))));
    try contradiction; destruct Hpc as [Hh Hon]; rewrite Hon.
  - subst h. repeat split; intros; discriminate.
  - subst h. repeat split; intros; try reflexivity; discriminate.
  - repeat split; intros; try contradiction; try discriminate; reflexivity.
Qed.

(** capture_app, one whole session: the stream is opened and closed. *)
Lemma sounddevice_stream_bracketed_witness :
  launched RunSamples.capture_launch <> guiver_rtmixer
  /\ Protocol.stream_trace Protocol.Unopened
       (fst (Run.run RunSamples.capture_launch SessionSamples.session
                     (Run.init (launched RunSamples.capture_launch))))
     = Some Protocol.Closed
  /\ exists h : Protocol.handle,
      Protocol.stream_trace Protocol.Unopened
        (fst (Run.run RunSamples.capture_launch SessionSamples.session
                      (Run.init (launched RunSamples.capture_launch)))) = Some h
      /\ (h = Protocol.Opened
          <-> audio (snd (Run.run RunSamples.capture_launch SessionSamples.session
                                  (Run.init (launched RunSamples.capture_launch))))
              = A_loop)
      /\ (h = Protocol.Opened
          <-> stream_on (shared (snd (Run.run RunSamples.capture_launch
                                              SessionSamples.session
                                              (Run.init (launched RunSamples.capture_launch)))))
              = true)
      /\ (audio (snd (Run.run RunSamples.capture_launch SessionSamples.session
                              (Run.init (launched RunSamples.capture_launch))))
          = A_finished ->
          stream_on (shared (snd (Run.run RunSamples.capture_launch
                                          SessionSamples.session
                                          (Run.init (launched RunSamples.capture_launch)))))
          = false).
Proof.
  split; [discriminate|]. split; [reflexivity|].
  apply (sounddevice_stream_bracketed RunSamples.capture_launch SessionSamples.session).
  discriminate.
Defined.

(* ===================================================================== *)
(** * The way to the exit *)
(* ===================================================================== *)

Module ExitFacts.
Import Run Closing.

(** The events of a call of a handler; the closing call closes. *)
Lemma call_events app i rest s evs s' :
  call app i rest s = Some (evs, s') ->
  Whole.exits evs = false
  /\ (i = I_app_quit -> closed s' = true)
  /\ closed s' = (closed s || match i with
                              | I_app_quit | I_accept _ => true
                              | _ => false
                              end).
Proof.
  destruct s as [rv ra v pc [ms so] g ws cl]. unfold call, set_gui, finished.
  cbn [running_video running_audio video audio shared gui windows closed
       mixer_set stream_on].
  destruct i as [line|[]| |w|[]| |wd];
    try destruct ms; try destruct so;
    try destruct v; try destruct pc; intros H; try discriminate;
      inversion H; subst; cbn; rewrite ?orb_false_r, ?orb_true_r;
        repeat split; auto; try discriminate; destruct app; reflexivity.
Qed.

(** The handler of a close event has the closing call ahead. *)
Lemma close_event_quits app wd :
  Gui.is_visible (Gui.shown app) wd = true ->
  quits_ahead (fst (Gui.close 3 app wd (Gui.shown app))) = true.
Proof. destruct app, wd; intros H; try discriminate; reflexivity. Qed.

Lemma step_exit_inv l c s a evs s' :
  exit_inv l s -> step l c s = Some (a, evs, s') -> exit_inv l s'.
Proof.
  intros [Hinv Hq] E.
  destruct (Shutdown.step_inv l threads (or_intror eq_refl) c s a evs s' Hinv E)
    as [Hinv' _].
  split; [exact Hinv'|]. clear Hinv'.
  destruct c as [cv|au|st| |wd|].
  - apply ShapeFacts.step_video_shape in E.
    destruct E as (Hg & _ & _ & _ & ->). unfold with_video. cbn.
    destruct (gui s); first [exact Hq|now destruct Hg].
  - apply ShapeFacts.step_audio_shape in E.
    destruct E as (Hg & _ & _ & _ & ->). unfold with_audio. cbn.
    destruct (gui s); first [exact Hq|now destruct Hg].
  - apply RunFacts.step_callback_shape in E.
    destruct E as (_ & _ & _ & _ & ->). exact Hq.
  - apply RunFacts.step_stream_stops_shape in E.
    destruct E as (Hg & _ & _ & _ & _ & ->). cbn.
    destruct (gui s); first [exact Hq|now destruct Hg].
  - apply RunFacts.step_close_shape in E.
    destruct E as (Hg & Hv & _ & _ & ->). cbn. right.
    destruct Hinv as [_ Hinv]. rewrite Hg in Hinv. destruct Hinv as [_ Hw].
    rewrite Hw in *. now apply close_event_quits.
  - apply RunFacts.step_gui_shape in E.
    destruct E as [_ [(i & calls & Hg & Hcall)|(Hg & _ & ->)]].
    + rewrite Hg in Hq.
      destruct (call_events _ _ _ _ _ _ Hcall) as (_ & Hquit & Hcl).
      apply RunFacts.call_shape in Hcall. destruct Hcall as (-> & _).
      destruct Hq as [Hq|Hq]; [left; rewrite Hcl, Hq; reflexivity|].
      destruct i; try (right; exact Hq). left. now apply Hquit.
    + rewrite Hg in Hq. destruct Hq as [Hq|Hq]; [|discriminate].
      destruct Hinv as [_ Hinv]. rewrite Hg, Hq in Hinv.
      destruct Hinv as (Hfv & Hfa & _).
      destruct s as [rv ra v pc sh g ws cl]. cbn in *. auto.
Qed.

Lemma exit_inv_init l : exit_inv l (init (launched l)).
Proof.
  split; [|exact I].
  apply (Shutdown.inv_init l).
Qed.

(** A step that does not end the process shows no exit; the step that
    ends it is the return of the handler. *)
Lemma step_exits l c s a evs s' :
  step l c s = Some (a, evs, s') ->
  (gui s' <> G_exited /\ Whole.exits evs = false)
  \/ (gui s' = G_exited /\ a = By_gui /\ evs = [Exit 0%Z]).
Proof.
  intros E. destruct c as [cv|au|st| |wd|].
  - apply ShapeFacts.step_video_shape in E.
    destruct E as (Hg & _ & _ & -> & ->). left.
    split; [exact Hg|apply KeepRunning.exits_video].
  - apply ShapeFacts.step_audio_shape in E.
    destruct E as (Hg & _ & _ & -> & ->). left.
    split; [exact Hg|apply KeepRunning.exits_audio].
  - apply RunFacts.step_callback_shape in E.
    destruct E as (Hg & _ & _ & -> & ->). left. split; [exact Hg|].
    destruct (launched l), st; reflexivity.
  - apply RunFacts.step_stream_stops_shape in E.
    destruct E as (Hg & _ & _ & _ & -> & ->). left. split; [exact Hg|reflexivity].
  - apply RunFacts.step_close_shape in E.
    destruct E as (_ & _ & _ & -> & ->). left. split; [discriminate|reflexivity].
  - apply RunFacts.step_gui_shape in E.
    destruct E as [-> [(i & calls & Hg & Hcall)|(Hg & -> & ->)]].
    + left. destruct (call_events _ _ _ _ _ _ Hcall) as (He & _).
      apply RunFacts.call_shape in Hcall. destruct Hcall as (-> & _).
      split; [discriminate|exact He].
    + right. auto.
Qed.

(** The exit is the last thing a run shows, and it shows it once. *)
Lemma exit_is_last l schedule : forall s,
  gui s <> G_exited ->
  gui (snd (run l schedule s)) = G_exited ->
  exists before,
    fst (run l schedule s) = before ++ [(By_gui, Exit 0%Z)]
    /\ Whole.exits (map snd before) = false.
Proof.
  induction schedule as [|c rest IH]; intros s Hs Hend.
  - now destruct Hs.
  - rewrite RunFacts.run_cons in *.
    destruct (step l c s) as [[[a evs] s1]|] eqn:E; [|auto].
    cbn [fst snd] in *.
    destruct (step_exits l c s a evs s1 E) as [[Hg He]|(Hg & -> & ->)].
    + destruct (IH s1 Hg Hend) as (before & -> & Hb).
      exists (map (fun e => (a, e)) evs ++ before).
      split; [now rewrite app_assoc|].
      rewrite map_app, KeepRunning.exits_app, Hb, map_map, map_id.
      cbn [snd]. now rewrite He.
    + rewrite (RunFacts.run_exited l rest s1 Hg). exists []. auto.
Qed.

End ExitFacts.

(** X16: under every schedule, when the process has exited: a window was
    closed, the video thread and the audio thread had both ended, a
    sounddevice stream was closed, and the exit is the last event of the run
    and its only exit. *)
Theorem exit_only_after_threads_ended :
  forall (l : launch) (schedule : list choice),
    gui (snd (Run.run l schedule (Run.init (launched l)))) = G_exited ->
    closed (snd (Run.run l schedule (Run.init (launched l)))) = true
    /\ video (snd (Run.run l schedule (Run.init (launched l)))) = V_finished
    /\ audio (snd (Run.run l schedule (Run.init (launched l)))) = A_finished
    /\ (launched l <> guiver_rtmixer ->
        stream_on (shared (snd (Run.run l schedule (Run.init (launched l))))) = false)
    /\ exists before,
        fst (Run.run l schedule (Run.init (launched l)))
        = before ++ [(By_gui, Exit 0%Z)]
        /\ Whole.exits (map snd before) = false.
Proof.
  intros l schedule Hend.
  pose proof (RunFacts.run_preserves l (Closing.exit_inv l)
                (ExitFacts.step_exit_inv l) schedule _ (ExitFacts.exit_inv_init l))
    as [[Hstream _] Hq].
  rewrite Hend in Hq. destruct Hq as (Hc & Hv & Ha).
  unfold Run.finished in Hv, Ha.
  destruct (video (snd (Run.run l schedule (Run.init (launched l))))) eqn:Ev;
    try discriminate.
  destruct (audio (snd (Run.run l schedule (Run.init (launched l))))) eqn:Ea;
    try discriminate.
  split; [exact Hc|]. split; [reflexivity|]. split; [reflexivity|]. split.
  - intros Happ.
    destruct (stream_on (shared (snd (Run.run l schedule (Run.init (launched l))))))
      eqn:Eon; [|reflexivity].
    specialize (Hstream Happ eq_refl). congruence.
  - apply ExitFacts.exit_is_last; [discriminate|exact Hend].
Qed.

(** capture_app, one whole session. *)
Lemma exit_only_after_threads_ended_witness :
  gui (snd (Run.run RunSamples.capture_launch SessionSamples.session
                    (Run.init (launched RunSamples.capture_launch)))) = G_exited
  /\ video (snd (Run.run RunSamples.capture_launch SessionSamples.session
                         (Run.init (launched RunSamples.capture_launch))))
     = V_finished
  /\ audio (snd (Run.run RunSamples.capture_launch SessionSamples.session
                         (Run.init (launched RunSamples.capture_launch))))
     = A_finished.
Proof.
  split; [reflexivity|].
  pose proof (exit_only_after_threads_ended RunSamples.capture_launch
                SessionSamples.session eq_refl) as (_ & Hv & Ha & _).
  split; assumption.
Defined.

(* ===================================================================== *)
(** * Closing always comes to an end *)
(* ===================================================================== *)

Module ProgressFacts.
Import Run Closing.

(** With its flag cleared the video thread ends within two steps. *)
Lemma video_finishes l cv1 cv2 pc :
  snd (VideoThread.step l false cv2 (snd (VideoThread.step l false cv1 pc)))
  = V_finished.
Proof.
  unfold VideoThread.step, VideoThread.open, VideoThread.test, VideoThread.body.
  destruct pc; try reflexivity.
  - destruct (dshow_opens cv1), (msmf_opens cv1); reflexivity.
  - destruct (read_ret cv1); reflexivity.
Qed.

(** With its flag cleared the audio thread ends within three steps. *)
Lemma audio_finishes l au1 au2 au3 pc sh :
  snd (fst (AudioThread.step l false au3
              (snd (fst (AudioThread.step l false au2
                           (snd (fst (AudioThread.step l false au1 pc sh)))
                           (snd (AudioThread.step l false au1 pc sh)))))
              (snd (AudioThread.step l false au2
                      (snd (fst (AudioThread.step l false au1 pc sh)))
                      (snd (AudioThread.step l false au1 pc sh))))))
  = A_finished.
Proof.
  unfold AudioThread.step, AudioThread.step_sounddevice, AudioThread.step_rtmixer.
  destruct (launched l), pc; try reflexivity;
    try (destruct (open_error au1); reflexivity);
    try (destruct (rtmixer_is_none au1); [reflexivity|];
         destruct (open_error au1); [reflexivity|];
         destruct (start_error au2); reflexivity);
    destruct (start_error au1); reflexivity.
Qed.

(** A turn of the video thread, taken or skipped. *)
Lemma run_video l cv s :
  gui s <> G_exited ->
  snd (run l [C_video cv] s)
  = with_video s (snd (VideoThread.step l (running_video s) cv (video s))).
Proof.
  intros Hg. rewrite RunFacts.run_cons.
  destruct (video s) eqn:Ev.
  1-3: rewrite ShapeFacts.step_video_some by congruence; now rewrite Ev.
  destruct s as [rv ra v pc sh g ws cl]. cbn in Ev. subst v.
  unfold step. cbn. destruct g; reflexivity.
Qed.

(** A turn of the audio thread, taken or skipped. *)
Lemma run_audio l au s :
  gui s <> G_exited ->
  snd (run l [C_audio au] s)
  = with_audio s
      (snd (fst (AudioThread.step l (running_audio s) au (audio s) (shared s))))
      (snd (AudioThread.step l (running_audio s) au (audio s) (shared s))).
Proof.
  intros Hg. rewrite RunFacts.run_cons.
  destruct (audio s) eqn:Ea.
  1-3: rewrite ShapeFacts.step_audio_some by congruence; now rewrite Ea.
  destruct s as [rv ra v pc sh g ws cl]. cbn in Ea. subst pc.
  unfold step, AudioThread.step. cbn.
  destruct g; destruct (launched l); reflexivity.
Qed.

(** The turns of the two threads in a round leave the GUI thread, the
    flags and the windows alone; a thread whose flag is cleared has ended
    after them. *)
Lemma video_turns l cv rv ra v pc sh g ws cl :
  g <> G_exited ->
  exists pc_v,
    snd (run l [C_video cv; C_video cv] (mk_system rv ra v pc sh g ws cl))
    = mk_system rv ra pc_v pc sh g ws cl
    /\ (rv = false -> pc_v = V_finished).
Proof.
  intros Hg.
  change [C_video cv; C_video cv] with ([C_video cv] ++ [C_video cv]).
  rewrite RunFacts.run_app. unfold snd at 1.
  rewrite (run_video l cv (mk_system rv ra v pc sh g ws cl) Hg).
  unfold with_video at 1.
  cbn [running_video running_audio video audio shared gui windows closed].
  remember (snd (VideoThread.step l rv cv v)) as pc1 eqn:E1.
  rewrite (run_video l cv (mk_system rv ra pc1 pc sh g ws cl) Hg).
  unfold with_video at 1.
  cbn [running_video running_audio video audio shared gui windows closed].
  eexists. split; [reflexivity|]. intros ->. subst pc1. apply video_finishes.
Qed.

Lemma audio_turns l au rv ra v pc sh g ws cl :
  g <> G_exited ->
  exists pc_a sh',
    snd (run l [C_audio au; C_audio au; C_audio au]
             (mk_system rv ra v pc sh g ws cl))
    = mk_system rv ra v pc_a sh' g ws cl
    /\ (ra = false -> pc_a = A_finished).
Proof.
  intros Hg.
  change [C_audio au; C_audio au; C_audio au]
    with ([C_audio au] ++ [C_audio au] ++ [C_audio au]).
  rewrite !RunFacts.run_app. unfold snd at 1. unfold snd at 1.
  rewrite (run_audio l au (mk_system rv ra v pc sh g ws cl) Hg).
  unfold with_audio at 1.
  cbn [running_video running_audio video audio shared gui windows closed].
  remember (AudioThread.step l ra au pc sh) as r1 eqn:E1.
  rewrite (run_audio l au (mk_system rv ra v (snd (fst r1)) (snd r1) g ws cl) Hg).
  unfold with_audio at 1.
  cbn [running_video running_audio video audio shared gui windows closed].
  remember (AudioThread.step l ra au (snd (fst r1)) (snd r1)) as r2 eqn:E2.
  rewrite (run_audio l au (mk_system rv ra v (snd (fst r2)) (snd r2) g ws cl) Hg).
  unfold with_audio at 1.
  cbn [running_video running_audio video audio shared gui windows closed].
  eexists _, _. split; [reflexivity|]. intros ->. subst r2 r1.
  apply audio_finishes.
Qed.

Lemma threads_turn l cv au s :
  gui s <> G_exited ->
  exists pc_v pc_a sh,
    snd (run l [C_video cv; C_video cv; C_audio au; C_audio au; C_audio au] s)
    = mk_system (running_video s) (running_audio s) pc_v pc_a sh
                (gui s) (windows s) (closed s)
    /\ (running_video s = false -> pc_v = V_finished)
    /\ (running_audio s = false -> pc_a = A_finished).
Proof.
  destruct s as [rv ra v pc sh g ws cl].
  cbn [running_video running_audio video audio shared gui windows closed].
  intros Hg.
  change [C_video cv; C_video cv; C_audio au; C_audio au; C_audio au]
    with ([C_video cv; C_video cv] ++ [C_audio au; C_audio au; C_audio au]).
  rewrite RunFacts.run_app. unfold snd at 1.
  destruct (video_turns l cv rv ra v pc sh g ws cl Hg) as (pc_v & -> & Hv).
  destruct (audio_turns l au rv ra pc_v pc sh g ws cl Hg) as (pc_a & sh' & -> & Ha).
  exists pc_v, pc_a, sh'. auto.
Qed.

(** A call of a handler goes through, unless it waits for a thread that
    has not ended. *)
Lemma call_enabled app i rest s :
  (forall w, i = I_wait w -> finished s w = true) ->
  exists evs s', call app i rest s = Some (evs, s').
Proof.
  intros Hw. destruct i as [line|[]| |w|w| |wd]; cbn [call];
    try (eexists _, _; reflexivity).
  - destruct (mixer_set (shared s) && stream_on (shared s));
      eexists _, _; reflexivity.
  - rewrite (Hw w eq_refl). eexists _, _; reflexivity.
Qed.

(** The handler of a close event is short, and clears before it waits. *)
Lemma close_event_guarded app wd rv ra :
  Gui.is_visible (Gui.shown app) wd = true ->
  List.length (fst (Gui.close 3 app wd (Gui.shown app))) <= 14
  /\ clears_before_waits rv ra (fst (Gui.close 3 app wd (Gui.shown app))) = true.
Proof.
  destruct app, wd; intros H; try discriminate;
    (split; [cbn; lia|destruct rv, ra; reflexivity]).
Qed.

Lemma progress_init l : progress_inv l (init (launched l)).
Proof. reflexivity. Qed.

Lemma step_progress_inv l c s a evs s' :
  progress_inv l s -> step l c s = Some (a, evs, s') -> progress_inv l s'.
Proof.
  unfold progress_inv. intros Hp E. destruct c as [cv|au|st| |wd|].
  - apply ShapeFacts.step_video_shape in E.
    destruct E as (_ & _ & _ & _ & ->). exact Hp.
  - apply ShapeFacts.step_audio_shape in E.
    destruct E as (_ & _ & _ & _ & ->). exact Hp.
  - apply RunFacts.step_callback_shape in E.
    destruct E as (_ & _ & _ & _ & ->). exact Hp.
  - apply RunFacts.step_stream_stops_shape in E.
    destruct E as (_ & _ & _ & _ & _ & ->). exact Hp.
  - apply RunFacts.step_close_shape in E.
    destruct E as (Hg & Hv & _ & _ & ->). rewrite Hg in Hp.
    cbn [gui running_video running_audio]. rewrite Hp in *.
    now apply close_event_guarded.
  - apply RunFacts.step_gui_shape in E.
    destruct E as [_ [(i & calls & Hg & Hcall)|(Hg & _ & ->)]].
    + rewrite Hg in Hp. destruct Hp as [Hlen Hguard].
      apply RunFacts.call_shape in Hcall.
      destruct Hcall as (-> & _ & _ & _ & _ & _ & _ & _ & -> & ->).
      split; [cbn in Hlen; lia|].
      destruct i as [line|[]| |w|[]| |wd]; cbn [clears_before_waits] in Hguard;
        try exact Hguard; apply andb_true_iff in Hguard; apply Hguard.
    + exact I.
Qed.

(** After a turn for everybody the handler has made its next call, or
    has returned and the process has exited. *)
Lemma round_advances l cv au s calls :
  progress_inv l s -> gui s = G_handler calls ->
  progress_inv l (snd (run l (round cv au) s))
  /\ gui (snd (run l (round cv au) s))
     = match calls with
       | [] => G_exited
       | _ :: rest => G_handler rest
       end.
Proof.
  intros Hp Hg.
  assert (Hne : gui s <> G_exited) by (rewrite Hg; discriminate).
  destruct (threads_turn l cv au s Hne) as (pc_v & pc_a & sh & Hs5 & Hv & Ha).
  change (round cv au)
    with ([C_video cv; C_video cv; C_audio au; C_audio au; C_audio au] ++ [C_gui]).
  rewrite RunFacts.run_app. unfold snd at 1 3. rewrite Hs5. clear Hs5.
  remember (mk_system (running_video s) (running_audio s) pc_v pc_a sh
                      (gui s) (windows s) (closed s)) as s5 eqn:Es5.
  assert (Hg5 : gui s5 = G_handler calls) by (subst s5; exact Hg).
  assert (Hp5 : progress_inv l s5) by (subst s5; exact Hp).
  assert (Hv5 : running_video s = false -> finished s5 Video = true).
  { intros H. subst s5. cbn. now rewrite (Hv H). }
  assert (Ha5 : running_audio s = false -> finished s5 Audio = true).
  { intros H. subst s5. cbn. now rewrite (Ha H). }
  clear Es5 Hv Ha.
  unfold progress_inv in Hp. rewrite Hg in Hp. destruct Hp as [Hlen Hguard].
  rewrite RunFacts.run_cons. destruct calls as [|i rest].
  - assert (E : step l C_gui s5 = Some (By_gui, [Exit 0%Z], set_gui G_exited s5)).
    { unfold step. rewrite Hg5. reflexivity. }
    rewrite E. split; [exact I|reflexivity].
  - destruct (call_enabled (launched l) i rest s5) as (evs & s6 & Hcall).
    { intros w ->. cbn [clears_before_waits] in Hguard.
      destruct w; apply andb_true_iff in Hguard; destruct Hguard as [Hr _];
        apply negb_true_iff in Hr; auto. }
    assert (E : step l C_gui s5 = Some (By_gui, evs, s6)).
    { unfold step. rewrite Hg5, Hcall. reflexivity. }
    rewrite E. split.
    + apply (step_progress_inv l C_gui s5 By_gui evs s6 Hp5 E).
    + apply RunFacts.call_shape in Hcall. apply Hcall.
Qed.

(** Enough rounds bring the handler to its end. *)
Lemma rounds_exit l : forall answers s calls,
  progress_inv l s -> gui s = G_handler calls ->
  List.length calls < List.length answers ->
  gui (snd (run l (rounds answers) s)) = G_exited.
Proof.
  induction answers as [|[cv au] answers IH]; intros s calls Hp Hg Hlen.
  - cbn in Hlen. lia.
  - cbn [rounds]. rewrite RunFacts.run_app. cbn [snd].
    destruct (round_advances l cv au s calls Hp Hg) as [Hp1 Hg1].
    destruct calls as [|i rest].
    + now rewrite (RunFacts.run_exited l _ _ Hg1).
    + apply (IH _ rest Hp1 Hg1). cbn in Hlen. lia.
Qed.

End ProgressFacts.

(** X17: closing never hangs.  From any point of a run, once a close
    event for a window that is shown has been sent and the two threads and
    the GUI thread each get their turns, the handler runs to its end and the
    process exits, whatever OpenCV and the audio library answer meanwhile:
    every [wait()] of the handler comes after the thread's [running] flag was
    cleared, and a thread whose flag is cleared ends within three of its
    steps. *)
Theorem closing_terminates :
  forall (l : launch) (before : list choice) (wd : widget)
         (answers : list (cv_answer * audio_answer)),
    Gui.is_visible (Gui.shown (launched l)) wd = true ->
    15 <= List.length answers ->
    gui (snd (Run.run l (before ++ C_close wd :: Closing.rounds answers)
                      (Run.init (launched l))))
    = G_exited.
Proof.
  intros l before wd answers Hvis Hlen.
  rewrite RunFacts.run_app. cbn [snd].
  pose proof (RunFacts.run_preserves l (Closing.progress_inv l)
                (ProgressFacts.step_progress_inv l) before _
                (ProgressFacts.progress_init l)) as Hp.
  set (s0 := snd (Run.run l before (Run.init (launched l)))) in *.
  rewrite RunFacts.run_cons.
  destruct (Run.step l (C_close wd) s0) as [[[a evs] s1]|] eqn:E.
  - cbn [snd].
    pose proof (ProgressFacts.step_progress_inv l _ _ _ _ _ Hp E) as Hp1.
    apply RunFacts.step_close_shape in E.
    destruct E as (_ & _ & _ & _ & Hs1).
    assert (Hg1 : gui s1 = G_handler (fst (Gui.close 3 (launched l) wd (windows s0))))
      by (rewrite Hs1; reflexivity).
    apply (ProgressFacts.rounds_exit l answers s1 _ Hp1 Hg1).
    unfold Closing.progress_inv in Hp1. rewrite Hg1 in Hp1. lia.
  - destruct (gui s0) as [|calls|] eqn:Hg.
    + exfalso. unfold Closing.progress_inv in Hp. rewrite Hg in Hp.
      unfold Run.step in E. rewrite Hg, Hp, Hvis in E.
      destruct (Gui.close 3 (launched l) wd (Gui.shown (launched l))). discriminate.
    + apply (ProgressFacts.rounds_exit l answers s0 calls Hp Hg).
      unfold Closing.progress_inv in Hp. rewrite Hg in Hp. lia.
    + now rewrite (RunFacts.run_exited l _ _ Hg).
Qed.

(** guiver/main with an rtmixer audio thread, closed after the stream
    was started. *)
Lemma closing_terminates_witness :
  Gui.is_visible (Gui.shown (launched RunSamples.rtmixer_launch)) CaptureWindow = true
  /\ 15 <= List.length (repeat (RunSamples.cv_ok, RunSamples.au_ok) 15)
  /\ gui (snd (Run.run RunSamples.rtmixer_launch
                 (SessionSamples.late_close_start
                    ++ C_close CaptureWindow
                    :: Closing.rounds (repeat (RunSamples.cv_ok, RunSamples.au_ok) 15))
                 (Run.init (launched RunSamples.rtmixer_launch))))
     = G_exited.
Proof.
  split; [reflexivity|]. split; [cbn; lia|].
  apply (closing_terminates RunSamples.rtmixer_launch
           SessionSamples.late_close_start CaptureWindow
           (repeat (RunSamples.cv_ok, RunSamples.au_ok) 15)).
  - reflexivity.
  - cbn; lia.
Defined.
(* ===================================================================== *)
(** * The two [main] functions: how they end *)
(* ===================================================================== *)

Module MainFacts.

(** The console prompt raises nothing but the [EOFError] of [input]. *)
Lemma prompt_raises max_index device_type : forall stdin exn,
  snd (Prompt.prompt_selection max_index device_type stdin) = Raise exn ->
  exn = "EOFError".
Proof.
  induction stdin as [|[z|] stdin IH]; intros exn; cbn.
  - intros H. now inversion H.
  - destruct ((0 <=? z) && (z <? max_index))%Z; [discriminate|].
    destruct (Prompt.prompt_selection max_index device_type stdin) as [tr o].
    cbn in *. destruct o; cbn; try discriminate. intros H. inversion H; subst. auto.
  - destruct (Prompt.prompt_selection max_index device_type stdin) as [tr o].
    cbn in *. destruct o; cbn; try discriminate. intros H. inversion H; subst. auto.
Qed.


(** How the console prompt ends, in terms of the lines the user types: it
    returns the first line that is a number in range, with the lines after
    it; it raises [EOFError] when no line is one. *)
Lemma prompt_outcome max_index device_type : forall stdin,
  (exists skipped choice rest,
      stdin = skipped ++ Some choice :: rest
      /\ Forall (Prompt.turned_down max_index) skipped
      /\ (0 <= choice < max_index)%Z
      /\ snd (Prompt.prompt_selection max_index device_type stdin)
         = Ret (choice, rest))
  \/ (Forall (Prompt.turned_down max_index) stdin
      /\ snd (Prompt.prompt_selection max_index device_type stdin)
         = Raise "EOFError").
Proof.
  induction stdin as [|[z|] stdin IH].
  - right. split; [constructor|reflexivity].
  - cbn [Prompt.prompt_selection].
    destruct ((0 <=? z) && (z <? max_index))%Z eqn:E.
    + left. exists [], z, stdin. apply andb_true_iff in E. destruct E as [E1 E2].
      apply Z.leb_le in E1. apply Z.ltb_lt in E2.
      split; [reflexivity|]. split; [constructor|]. split; [lia|reflexivity].
    + assert (Hz : Prompt.turned_down max_index (Some z)).
      { simpl. intros Hz. apply andb_false_iff in E. destruct E as [E|E];
          [apply Z.leb_gt in E|apply Z.ltb_ge in E]; lia. }
      rewrite !MFacts.bind_snd. cbn [tell snd].
      destruct IH as [(skipped & choice & rest & -> & Hs & Hc & Hr)|[Hs Hr]];
        rewrite Hr.
      * left. exists (Some z :: skipped), choice, rest.
        split; [reflexivity|]. split; [constructor; assumption|]. auto.
      * right. split; [constructor; assumption|reflexivity].
  - cbn [Prompt.prompt_selection]. rewrite !MFacts.bind_snd. cbn [tell snd].
    destruct IH as [(skipped & choice & rest & -> & Hs & Hc & Hr)|[Hs Hr]];
      rewrite Hr.
    + left. exists (None :: skipped), choice, rest.
      split; [reflexivity|]. split; [constructor; [exact I|assumption]|]. auto.
    + right. split; [constructor; [exact I|assumption]|reflexivity].
Qed.

(** The dialog prompt returns the row the user accepted, or exits. *)
Lemma prompt_gui_outcome options device_type answer :
  (exists k, answer = Some k
             /\ snd (Prompt.prompt_selection_gui options device_type answer) = Ret k
             /\ k < List.length options)
  \/ ((forall k, answer = Some k -> List.length options <= k)
      /\ Prompt.prompt_selection_gui options device_type answer
         = PromptTrace.dismissed options device_type).
Proof.
  destruct answer as [k|].
  - destruct (Nat.lt_ge_cases k (List.length options)) as [Hk|Hk].
    + left. exists k. rewrite PromptFacts.prompt_selection_gui_accepts by exact Hk.
      auto.
    + right. split; [intros k' Hk'; inversion Hk'; subst; exact Hk|].
      apply PromptFacts.prompt_selection_gui_rejects.
      intros k' Hk'. inversion Hk'; subst. exact Hk.
  - right. split; [discriminate|].
    apply PromptFacts.prompt_selection_gui_rejects. discriminate.
Qed.

End MainFacts.

(** X18: how [main] of capture_app.py ends, when both calls of
    [sd.query_devices()] return enumerations.  It reaches the event loop
    with the video device of the first line of the keyboard that is a number
    of a listed video device, and with the audio device of the first such
    line after it for the kept audio devices: the audio index is the position
    of that device in the first enumeration, and the second enumeration holds
    an equal record there.  Or it returns early (exit status 0) because no
    video device or no matching audio device was found.  Or the input ran out
    and [input] raised EOFError.  Or [all_devices.index] raised ValueError
    because the second enumeration holds no record equal to the chosen one.
    The subscripts never raise. *)
Theorem capture_app_main_outcome :
  forall (m : machine) (u : user),
    enumeration (audio_devices m) ->
    enumeration (audio_devices_again m) ->
    match snd (CaptureAppScript.main m u) with
    | Ret l =>
        launched l = capture_app
        /\ exists skipped1 v rest1 skipped2 a rest2 dev found,
            keyboard u = skipped1 ++ Some v :: rest1
            /\ Forall (Prompt.turned_down
                         (Z.of_nat (List.length (video_devices m)))) skipped1
            /\ (0 <= v < Z.of_nat (List.length (video_devices m)))%Z
            /\ video_index l = Z.to_nat v
            /\ rest1 = skipped2 ++ Some a :: rest2
            /\ Forall (Prompt.turned_down
                         (Z.of_nat (List.length
                                      (fst (CaptureApp.list_audio_input_devices_filtered
                                              (audio_devices m)))))) skipped2
            /\ (0 <= a)%Z
            /\ nth_error (fst (CaptureApp.list_audio_input_devices_filtered
                                 (audio_devices m))) (Z.to_nat a) = Some dev
            /\ nth_error (CaptureAppIndex.kept_positions (audio_devices m))
                         (Z.to_nat a) = Some (audio_index l)
            /\ nth_error (audio_devices m) (audio_index l) = Some dev
            /\ nth_error (audio_devices_again m) (audio_index l) = Some found
            /\ sd_device_eqb found dev = true
    | SysExit code =>
        code = 0%Z
        /\ (video_devices m = []
            \/ fst (CaptureApp.list_audio_input_devices_filtered (audio_devices m))
               = [])
    | Raise exn =>
        (exn = "EOFError"
         /\ (Forall (Prompt.turned_down (Z.of_nat (List.length (video_devices m))))
                    (keyboard u)
             \/ exists skipped1 v rest1,
                 keyboard u = skipped1 ++ Some v :: rest1
                 /\ Forall (Prompt.turned_down
                              (Z.of_nat (List.length (video_devices m)))) skipped1
                 /\ (0 <= v < Z.of_nat (List.length (video_devices m)))%Z
                 /\ Forall (Prompt.turned_down
                              (Z.of_nat
                                 (List.length
                                    (fst (CaptureApp.list_audio_input_devices_filtered
                                            (audio_devices m)))))) rest1))
        \/ (exn = "ValueError"
            /\ exists dev,
                In dev (fst (CaptureApp.list_audio_input_devices_filtered
                               (audio_devices m)))
                /\ forall other, In other (audio_devices_again m) ->
                                 sd_device_eqb other dev = false)
    end.
Proof.
  intros m u He1 He2. unfold CaptureAppScript.main.
  rewrite MFacts.bind_snd, ErrorFacts.list_video_ret.
  destruct (video_devices m) as [|d devices] eqn:Ev.
  { cbn. auto. }
  rewrite MFacts.bind_snd.
  destruct (MainFacts.prompt_outcome (Z.of_nat (List.length (d :: devices)))
              "video" (keyboard u))
    as [(skipped1 & v & rest1 & Hk1 & Hs1 & Hv & ->)|[Hs1 ->]].
  2:{ left. split; [reflexivity|]. left. exact Hs1. }
  rewrite MFacts.bind_snd, ErrorFacts.list_audio_ret.
  rewrite FilterFacts.capture_filtered. cbn [fst].
  destruct (filter CaptureApp.selected (audio_devices m)) as [|fd0 fd] eqn:Ef.
  { cbn. auto. }
  rewrite MFacts.bind_snd.
  destruct (MainFacts.prompt_outcome (Z.of_nat (List.length (fd0 :: fd)))
              "audio input" rest1)
    as [(skipped2 & a & rest2 & Hk2 & Hs2 & Ha & ->)|[Hs2 ->]].
  2:{ left. split; [reflexivity|]. right. exists skipped1, v, rest1. auto. }
  rewrite MFacts.bind_snd. cbn [tell snd].
  assert (Hvn : Z.to_nat v < List.length (d :: devices)) by lia.
  assert (Han : Z.to_nat a < List.length (fd0 :: fd)) by lia.
  destruct (nth_error (d :: devices) (Z.to_nat v)) as [video_name|] eqn:Evn;
    [|apply nth_error_None in Evn; lia].
  destruct (nth_error (fd0 :: fd) (Z.to_nat a)) as [dev|] eqn:Edev;
    [|apply nth_error_None in Edev; lia].
  assert (Edev' : nth_error (filter CaptureApp.selected (audio_devices m))
                            (Z.to_nat a) = Some dev) by (rewrite Ef; exact Edev).
  destruct (IndexFacts.kept_positions_nth (audio_devices m) 0 (Z.to_nat a) dev Edev')
    as (p & Hp & _ & Hn).
  rewrite Nat.sub_0_r in Hn.
  unfold CaptureAppIndex.audio_choice_device_index.
  rewrite Edev.
  destruct (Py.index sd_device_eqb (audio_devices_again m) dev) as [q|] eqn:Eq.
  - rewrite nth_error_map, Edev. cbn.
    assert (Hqp : q = p).
    { rewrite (IndexFacts.index_in_enumeration _ dev q He2 Eq). apply (He1 p dev Hn). }
    subst q.
    destruct (PyFacts.index_from_some sd_device_eqb 0 dev (audio_devices_again m) p Eq)
      as (_ & (found & Hfound & Heq) & _).
    rewrite Nat.sub_0_r in Hfound.
    split; [reflexivity|].
    exists skipped1, v, rest1, skipped2, a, rest2, dev, found.
    repeat (split; [first [assumption|reflexivity|lia]|]). exact Heq.
  - cbn [snd]. right. split; [reflexivity|]. exists dev. split.
    + exact (nth_error_In _ _ Edev).
    + apply (proj1 (PyFacts.index_from_none sd_device_eqb 0 dev
                      (audio_devices_again m))). exact Eq.
Qed.

(** The sample machine and user: the second video device, and the first
    kept audio device, which is the third of the enumeration. *)
Lemma capture_app_main_outcome_witness :
  enumeration (audio_devices ScriptSamples.studio)
  /\ enumeration (audio_devices_again ScriptSamples.studio)
  /\ snd (CaptureAppScript.main ScriptSamples.studio ScriptSamples.alice)
     = Ret (mk_launch capture_app 1 2 "")
  /\ exists dev found,
      nth_error (audio_devices ScriptSamples.studio) 2 = Some dev
      /\ nth_error (audio_devices_again ScriptSamples.studio) 2 = Some found
      /\ sd_device_eqb found dev = true.
Proof.
  split; [exact IndexFacts.four_devices_enumeration|].
  split; [exact IndexFacts.four_devices_enumeration|].
  split; [reflexivity|].
  pose proof (capture_app_main_outcome ScriptSamples.studio ScriptSamples.alice
                IndexFacts.four_devices_enumeration
                IndexFacts.four_devices_enumeration) as H.
  change (snd (CaptureAppScript.main ScriptSamples.studio ScriptSamples.alice))
    with (Ret (mk_launch capture_app 1 2 "")) in H.
  cbv beta iota in H.
  destruct H as (_ & s1 & v & r1 & s2 & a & r2 & dev & found
                 & _ & _ & _ & _ & _ & _ & _ & _ & _ & Hdev & Hfound & Heq).
  exists dev, found. auto.
Defined.

Module GuiverMainFacts.
Import GuiverAudio.

(** The enumeration of [main] returns only when rtmixer was not imported,
    if the module that can be imported has no [Api]. *)
Lemma enumeration_without_api (rtmixer : option rtmixer_module) :
  (forall rt, rtmixer = Some rt -> Api rt = None) ->
  match rtmixer with
  | None => list_rtmixer_devices_by_apis rtmixer preferred_api_names = Returns rt_empty
  | Some _ => list_rtmixer_devices_by_apis rtmixer preferred_api_names = AttributeError
  end.
Proof.
  intros H. destruct rtmixer as [rt|]; [|reflexivity].
  apply (EnumerationFacts.list_rtmixer_raises rt _ _ (H rt eq_refl)).
Qed.

(** Without rtmixer rows every row of the dialog is a sounddevice row: the
    thread is made for the position, in [sd.query_devices()], of the device
    the row shows. *)
Lemma sounddevice_thread devices hostapis fd fn fi names sources c :
  Guiver.list_audio_input_devices_filtered devices hostapis = Some (fd, fn, fi) ->
  combine_audio [] fn = (names, sources) ->
  c < List.length names ->
  List.length names = List.length fn
  /\ exists i dev h,
      make_audio_thread sources [] [] fi c = Some (AudioStreamSD i)
      /\ nth_error fd c = Some dev
      /\ nth_error hostapis (hostapi dev) = Some h
      /\ nth_error fn c = Some (Guiver.display_name (name dev) (hostapi_name h))
      /\ nth_error names c
         = Some (Guiver.display_name (name dev) (hostapi_name h) ++ " [SoundDevice]")%string
      /\ nth_error fi c = Some i
      /\ nth_error devices i = Some dev
      /\ Guiver.selected dev = true.
Proof.
  intros Hfb Hcomb Hc.
  unfold Guiver.list_audio_input_devices_filtered in Hfb.
  apply FilterFacts.guiver_loop in Hfb.
  destruct Hfb as (frows & -> & -> & -> & Hm & Hf). rewrite !app_nil_l in *.
  rewrite CombineFacts.combine_audio_closed in Hcomb.
  cbn [map app] in Hcomb.
  inversion Hcomb; subst names sources; clear Hcomb.
  rewrite !List.length_map in *. split; [reflexivity|].
  unfold make_audio_thread.
  rewrite (CombineFacts.nth_error_const (map _ frows))
    by (rewrite !List.length_map; lia).
  cbn [String.eqb Ascii.eqb Bool.eqb andb List.length].
  unfold subscript.
  destruct (0 <=? Z.of_nat c - Z.of_nat 0)%Z eqn:E0; [|apply Z.leb_gt in E0; lia].
  replace (Z.to_nat (Z.of_nat c - Z.of_nat 0)) with c by lia.
  destruct (nth_error frows c) as [[[gi dev] h]|] eqn:Er;
    [|apply nth_error_None in Er; lia].
  exists gi, dev, h.
  rewrite (map_nth_error (fun r : nat * sd_device * sd_hostapi => fst (fst r))
                         _ frows Er).
  split; [reflexivity|].
  split; [apply (map_nth_error (fun r : nat * sd_device * sd_hostapi => snd (fst r))
                               _ frows Er)|].
  assert (Hin : In (gi, dev) (filter (fun e => Guiver.selected (snd e))
                                     (Py.enumerate devices))).
  { rewrite <- Hm. apply in_map_iff. exists (gi, dev, h). split; [reflexivity|].
    eapply nth_error_In; exact Er. }
  apply filter_In in Hin. destruct Hin as [Hin Hsel].
  apply PyFacts.enumerate_from_in in Hin. destruct Hin as [_ Hin].
  rewrite Nat.sub_0_r in Hin.
  split.
  { rewrite Forall_forall in Hf. apply (Hf (gi, dev, h)).
    eapply nth_error_In; exact Er. }
  split; [rewrite nth_error_map, Er; reflexivity|].
  split; [rewrite !nth_error_map, Er; reflexivity|].
  auto.
Qed.

(** With a module that has no [Api], a run of [main] that reaches the
    event loop has a sounddevice audio thread. *)
Lemma launches_sounddevice m u l :
  (forall rt, rtmixer m = Some rt -> Api rt = None) ->
  snd (GuiverScript.main m u) = Ret l ->
  launched l = guiver_sounddevice.
Proof.
  intros Hno H. unfold GuiverScript.main in H.
  rewrite !MFacts.bind_snd in H. cbn [tell snd] in H.
  destruct (video_devices m) as [|v vs]; [discriminate|].
  rewrite MFacts.bind_snd in H.
  destruct (snd (Prompt.prompt_selection_gui (v :: vs) "video" (video_pick u)))
    as [video_choice| |]; try discriminate.
  rewrite !MFacts.bind_snd in H. cbn [tell snd] in H.
  pose proof (enumeration_without_api (rtmixer m) Hno) as Hrt.
  destruct (rtmixer m) as [rt|]; rewrite Hrt in H; [discriminate|].
  rewrite !MFacts.bind_snd in H. cbn [tell snd] in H.
  destruct (Guiver.list_audio_input_devices_filtered (audio_devices m) (hostapis m))
    as [[[fd fn] fi]|] eqn:Efb; [|discriminate].
  cbn [rt_names rt_empty] in H.
  destruct (combine_audio [] fn) as [names sources] eqn:Ecomb.
  destruct names as [|n0 names]; [discriminate|].
  rewrite MFacts.bind_snd in H.
  destruct (MainFacts.prompt_gui_outcome (n0 :: names) "audio input" (audio_pick u))
    as [(c & _ & Hc & Hlt)|[_ Hc]]; rewrite Hc in H; [|discriminate].
  cbn [snd] in H.
  destruct (sounddevice_thread _ _ _ _ _ _ _ c Efb Ecomb Hlt)
    as (_ & i & dev & h & Hmk & _).
  cbn [rt_indices rt_apis rt_empty] in H. rewrite Hmk in H.
  destruct (nth_error (v :: vs) video_choice);
    destruct (nth_error (n0 :: names) c); try discriminate.
  cbn in H. inversion H; subst l. reflexivity.
Qed.

End GuiverMainFacts.

(** X19: how [main] of guiver/main.py ends when the rtmixer module, if one
    can be imported, has no [Api], as python-rtmixer.  It reaches the event
    loop only when rtmixer was not imported, with the video device picked in
    the first dialog and a sounddevice thread on the device shown in the row
    picked in the second: its index is the device's position in
    [sd.query_devices()], an input device the filter accepts.  It exits with
    status 1 when no video device is found, when a dialog is dismissed, or
    when no audio device is kept.  It raises, after the video dialog was
    accepted: AttributeError when rtmixer was imported, whatever the audio
    devices are, and no thread is started; IndexError when it was not and
    a kept sounddevice device names a host API that [sd.query_hostapis()]
    does not have.  [int] and the subscripts never raise. *)
Theorem guiver_main_outcome :
  forall (m : machine) (u : user),
    (forall rt, rtmixer m = Some rt -> Api rt = None) ->
    match snd (GuiverScript.main m u) with
    | Ret l =>
        rtmixer m = None
        /\ launched l = guiver_sounddevice
        /\ video_pick u = Some (video_index l)
        /\ video_index l < List.length (video_devices m)
        /\ exists c fd fn fi dev h,
            audio_pick u = Some c
            /\ Guiver.list_audio_input_devices_filtered (audio_devices m) (hostapis m)
               = Some (fd, fn, fi)
            /\ nth_error fd c = Some dev
            /\ nth_error fn c
               = Some (Guiver.display_name (name dev) (hostapi_name h))
            /\ nth_error fi c = Some (audio_index l)
            /\ nth_error (audio_devices m) (audio_index l) = Some dev
            /\ Guiver.selected dev = true
    | SysExit code =>
        code = 1%Z
        /\ (video_devices m = []
            \/ (forall k, video_pick u = Some k -> List.length (video_devices m) <= k)
            \/ (rtmixer m = None
                /\ exists fd fn fi,
                    Guiver.list_audio_input_devices_filtered
                      (audio_devices m) (hostapis m) = Some (fd, fn, fi)
                    /\ (fn = []
                        \/ forall k, audio_pick u = Some k -> List.length fn <= k)))
    | Raise exn =>
        video_devices m <> []
        /\ (exists k, video_pick u = Some k /\ k < List.length (video_devices m))
        /\ ((exn = "AttributeError" /\ rtmixer m <> None)
            \/ (exn = "IndexError"
                /\ rtmixer m = None
                /\ Guiver.list_audio_input_devices_filtered
                     (audio_devices m) (hostapis m) = None))
    end
    /\ (rtmixer m <> None ->
        video_devices m <> [] ->
        (exists k, video_pick u = Some k /\ k < List.length (video_devices m)) ->
        snd (GuiverScript.main m u) = Raise "AttributeError"
        /\ Observe.starts (fst (GuiverScript.main m u)) = []).
Proof.
  intros m u Hno.
  pose proof (GuiverMainFacts.enumeration_without_api (rtmixer m) Hno) as Hrt.
  split.
  - unfold GuiverScript.main.
    rewrite !MFacts.bind_snd. cbn [tell snd].
    destruct (video_devices m) as [|v vs] eqn:Ev.
    { cbn. auto. }
    rewrite MFacts.bind_snd.
    destruct (MainFacts.prompt_gui_outcome (v :: vs) "video" (video_pick u))
      as [(video_choice & Hpick & -> & Hvc)|[Hdis ->]].
    2:{ cbn. auto. }
    rewrite !MFacts.bind_snd. cbn [tell snd].
    destruct (rtmixer m) as [rt|] eqn:Em; rewrite Hrt.
    { cbn. split; [discriminate|]. split; [exists video_choice; auto|].
      left. split; [reflexivity|discriminate]. }
    rewrite !MFacts.bind_snd. cbn [tell snd].
    destruct (Guiver.list_audio_input_devices_filtered (audio_devices m) (hostapis m))
      as [[[fd fn] fi]|] eqn:Efb.
    2:{ cbn. split; [discriminate|]. split; [exists video_choice; auto|].
        right. auto. }
    cbn [GuiverAudio.rt_names GuiverAudio.rt_empty].
    destruct (GuiverAudio.combine_audio [] fn) as [names sources] eqn:Ecomb.
    destruct names as [|n0 names].
    { cbn. split; [reflexivity|]. right. right. split; [reflexivity|].
      exists fd, fn, fi. split; [reflexivity|]. left.
      rewrite CombineFacts.combine_audio_closed in Ecomb. cbn [map app] in Ecomb.
      inversion Ecomb as [[Hn Hs]]. destruct fn; [reflexivity|discriminate]. }
    rewrite MFacts.bind_snd.
    destruct (MainFacts.prompt_gui_outcome (n0 :: names) "audio input" (audio_pick u))
      as [(c & Hapick & -> & Hlt)|[Hdis ->]].
    2:{ cbn. split; [reflexivity|]. right. right. split; [reflexivity|].
        exists fd, fn, fi. split; [reflexivity|]. right.
        rewrite CombineFacts.combine_audio_closed in Ecomb. cbn [map app] in Ecomb.
        inversion Ecomb as [[Hn Hs]]. intros k Hk. specialize (Hdis k Hk).
        rewrite <- Hn, List.length_map in Hdis. exact Hdis. }
    destruct (GuiverMainFacts.sounddevice_thread _ _ _ _ _ _ _ c Efb Ecomb Hlt)
      as (_ & i & dev & h & Hmk & Hfd & _ & Hfn & _ & Hfi & Hdev & Hsel).
    cbn [GuiverAudio.rt_indices GuiverAudio.rt_apis GuiverAudio.rt_empty].
    rewrite Hmk.
    destruct (nth_error (v :: vs) video_choice) as [video_name|] eqn:Evn;
      [|apply nth_error_None in Evn; lia].
    destruct (nth_error (n0 :: names) c) as [audio_name|] eqn:Ean;
      [|apply nth_error_None in Ean; lia].
    cbn. split; [reflexivity|]. split; [reflexivity|]. split; [exact Hpick|].
    split; [exact Hvc|]. exists c, fd, fn, fi, dev, h. auto 10.
  - intros Him Hv (k & Hpick & Hk). unfold GuiverScript.main.
    destruct (video_devices m) as [|v vs] eqn:Ev; [congruence|].
    rewrite Hpick, (PromptFacts.prompt_selection_gui_accepts (v :: vs) "video" k Hk).
    destruct (rtmixer m) as [rt|] eqn:Em; [|congruence].
    rewrite Hrt. split; reflexivity.
Qed.

(** The sample machine with python-rtmixer installed: [main] raises
    after the video dialog. *)
Lemma guiver_main_outcome_witness :
  (forall rt, rtmixer ScriptSamples.desk_with_rtmixer = Some rt -> Api rt = None)
  /\ rtmixer ScriptSamples.desk_with_rtmixer <> None
  /\ snd (GuiverScript.main ScriptSamples.desk_with_rtmixer ScriptSamples.alice)
     = Raise "AttributeError"
  /\ Observe.starts
       (fst (GuiverScript.main ScriptSamples.desk_with_rtmixer ScriptSamples.alice))
     = []
  /\ snd (GuiverScript.main ScriptSamples.desk ScriptSamples.alice)
     = Ret (mk_launch guiver_sounddevice 1 2 "").
Proof.
  assert (Hno : forall rt,
             rtmixer ScriptSamples.desk_with_rtmixer = Some rt -> Api rt = None).
  { intros rt H. inversion H; subst rt. reflexivity. }
  assert (Him : rtmixer ScriptSamples.desk_with_rtmixer <> None) by discriminate.
  split; [exact Hno|]. split; [exact Him|].
  destruct (guiver_main_outcome ScriptSamples.desk_with_rtmixer ScriptSamples.alice Hno)
    as [_ Hraise].
  destruct Hraise as [Hr Hs].
  - exact Him.
  - discriminate.
  - exists 1. split; [reflexivity|]. cbn. lia.
  - split; [exact Hr|]. split; [exact Hs|reflexivity].
Defined.

(* ===================================================================== *)
(** * The two close handlers call each other, once *)
(* ===================================================================== *)

(** X20: [CaptureWindow.closeEvent] closes the debug window and
    [DebugWindow.closeEvent] closes the capture window, yet the calls do not
    go round: whatever the windows' state, a [close()] nests at most one
    other handler (the inner [close()] of the window that is already closing
    returns at once), no handler runs twice, and each thread's flag is
    cleared at most once.  A window that was not already closing is hidden
    afterwards; after a close event on either window of guiver/main both
    windows are hidden and the threads were stopped exactly once. *)
Theorem close_handlers_nest_once :
  forall (app : application) (wd : widget) (ws : widgets) (n : nat),
    Gui.close (3 + n) app wd ws = Gui.close 3 app wd ws
    /\ HandlerCount.clears Video (fst (Gui.close 3 app wd ws)) <= 1
    /\ HandlerCount.clears Audio (fst (Gui.close 3 app wd ws)) <= 1
    /\ HandlerCount.accepts CaptureWindow (fst (Gui.close 3 app wd ws)) <= 1
    /\ HandlerCount.accepts DebugWindow (fst (Gui.close 3 app wd ws)) <= 1
    /\ (Gui.is_closing ws wd = false ->
        Gui.is_visible (snd (Gui.close 3 app wd ws)) wd = false
        /\ Gui.is_closing (snd (Gui.close 3 app wd ws)) wd = false)
    /\ (Gui.is_visible (Gui.shown app) wd = true ->
        Gui.is_visible (snd (Gui.close 3 app wd (Gui.shown app))) CaptureWindow = false
        /\ Gui.is_visible (snd (Gui.close 3 app wd (Gui.shown app))) DebugWindow = false
        /\ HandlerCount.clears Video (fst (Gui.close 3 app wd (Gui.shown app))) = 1
        /\ HandlerCount.clears Audio (fst (Gui.close 3 app wd (Gui.shown app))) = 1).
Proof.
  intros app wd [cv dv cc dc ref] n.
  split; [|split; [|split; [|split; [|split; [|split]]]]].
  - destruct app, wd, cv, dv, cc, dc, ref; reflexivity.
  - destruct app, wd, cv, dv, cc, dc, ref; vm_compute; repeat constructor.
  - destruct app, wd, cv, dv, cc, dc, ref; vm_compute; repeat constructor.
  - destruct app, wd, cv, dv, cc, dc, ref; vm_compute; repeat constructor.
  - destruct app, wd, cv, dv, cc, dc, ref; vm_compute; repeat constructor.
  - destruct app, wd, cv, dv, cc, dc, ref; intros H; try discriminate H;
      split; reflexivity.
  - destruct app, wd; intros H; try discriminate H; repeat split; reflexivity.
Qed.

(** X21: under every schedule, from the moment [QApplication.quit()] or
    [event.accept()] has been called, the video thread and the audio thread
    have both returned from [run], and a sounddevice stream is closed: the
    handlers close the window only after the two joins. *)
Theorem threads_ended_when_window_closes :
  forall (l : launch) (schedule : list choice),
    closed (snd (Run.run l schedule (Run.init (launched l)))) = true ->
    video (snd (Run.run l schedule (Run.init (launched l)))) = V_finished
    /\ audio (snd (Run.run l schedule (Run.init (launched l)))) = A_finished
    /\ (launched l <> guiver_rtmixer ->
        stream_on (shared (snd (Run.run l schedule (Run.init (launched l))))) = false).
Proof.
  intros l schedule Hc.
  pose proof (RunFacts.run_preserves l (Closing.exit_inv l)
                (ExitFacts.step_exit_inv l) schedule _ (ExitFacts.exit_inv_init l))
    as [[Hstream Hgui] Hq].
  assert (Hf : Run.finished (snd (Run.run l schedule (Run.init (launched l)))) Video
               = true
               /\ Run.finished (snd (Run.run l schedule (Run.init (launched l)))) Audio
                  = true).
  { destruct (gui (snd (Run.run l schedule (Run.init (launched l))))).
    - destruct Hgui as [Hgui _]. congruence.
    - rewrite Hc in Hgui. split; apply Hgui.
    - split; apply Hq. }
  destruct Hf as [Hv Ha]. unfold Run.finished in Hv, Ha.
  destruct (video (snd (Run.run l schedule (Run.init (launched l))))) eqn:Ev;
    try discriminate.
  destruct (audio (snd (Run.run l schedule (Run.init (launched l))))) eqn:Ea;
    try discriminate.
  split; [reflexivity|]. split; [reflexivity|].
  intros Happ.
  destruct (stream_on (shared (snd (Run.run l schedule (Run.init (launched l))))))
    eqn:Eon; [|reflexivity].
  specialize (Hstream Happ eq_refl). congruence.
Qed.

(** capture_app, one whole session. *)
Lemma threads_ended_when_window_closes_witness :
  closed (snd (Run.run RunSamples.capture_launch SessionSamples.session
                       (Run.init (launched RunSamples.capture_launch)))) = true
  /\ video (snd (Run.run RunSamples.capture_launch SessionSamples.session
                         (Run.init (launched RunSamples.capture_launch))))
     = V_finished
  /\ audio (snd (Run.run RunSamples.capture_launch SessionSamples.session
                         (Run.init (launched RunSamples.capture_launch))))
     = A_finished
  /\ (launched RunSamples.capture_launch <> guiver_rtmixer ->
      stream_on (shared (snd (Run.run RunSamples.capture_launch SessionSamples.session
                                      (Run.init (launched RunSamples.capture_launch)))))
      = false).
Proof.
  split; [reflexivity|].
  apply (threads_ended_when_window_closes RunSamples.capture_launch
           SessionSamples.session).
  reflexivity.
Defined.

(* ===================================================================== *)
(** * The statements above at the sample machine and sample runs *)
(* ===================================================================== *)

(** The four sample devices: capture_app's filter misses the AVerMedia
    card, which guiver/main's keeps. *)
Lemma capture_filter_within_guiver_filter_witness :
  Guiver.list_audio_input_devices_filtered Samples.four_devices RtSamples.hostapis
  = Some ([Samples.averMedia_card; Samples.twin_in; Samples.evga_card],
          ["AVerMedia Live Gamer HD 2 (MME)"; "Elgato Wave (MME)";
           "EVGA XR1 (Windows WASAPI)"],
          [0; 2; 3])
  /\ fst (CaptureApp.list_audio_input_devices_filtered Samples.four_devices)
     = [Samples.twin_in; Samples.evga_card]
  /\ incl (fst (CaptureApp.list_audio_input_devices_filtered Samples.four_devices))
          [Samples.averMedia_card; Samples.twin_in; Samples.evga_card].
Proof.
  split; [reflexivity|]. split; [reflexivity|].
  apply (capture_filter_within_guiver_filter Samples.four_devices RtSamples.hostapis
           [Samples.averMedia_card; Samples.twin_in; Samples.evga_card]
           ["AVerMedia Live Gamer HD 2 (MME)"; "Elgato Wave (MME)";
            "EVGA XR1 (Windows WASAPI)"]
           [0; 2; 3]).
  reflexivity.
Defined.

(** guiver/main, a close event on the debug window. *)
Lemma shutdown_order_witness :
  Gui.is_visible (Gui.shown guiver_sounddevice) DebugWindow = true
  /\ Gui.squash (Gui.shutdown_steps (Gui.close_event guiver_sounddevice DebugWindow))
     = [Gui.stop_thread Video; Gui.join_thread Video;
        Gui.stop_thread Audio; Gui.join_thread Audio; Gui.close_window].
Proof.
  split; [reflexivity|].
  apply (shutdown_order guiver_sounddevice DebugWindow). reflexivity.
Defined.

(** capture_app, one whole session. *)
Lemma sounddevice_quiet_after_close_witness :
  launched RunSamples.capture_launch <> guiver_rtmixer
  /\ Run.quiet_after_close Run.everyone
       (fst (Run.run RunSamples.capture_launch SessionSamples.session
                     (Run.init (launched RunSamples.capture_launch)))) = true.
Proof.
  split; [discriminate|].
  apply (sounddevice_quiet_after_close RunSamples.capture_launch
           SessionSamples.session).
  discriminate.
Defined.
(* ===================================================================== *)
(** * Errors: what is reported, and what ends the process *)
(* ===================================================================== *)

Module DismissFacts.




End DismissFacts.



(* ===================================================================== *)
(** * stop(): from the cleared flag to the end of the loop *)
(* ===================================================================== *)

Module StopFacts.
Import Run Observe Stopping.

Lemma clears_own w : clears_flag w (By_gui, ClearRunning w) = true.
Proof. destruct w; reflexivity. Qed.

Lemma not_gui_no_clear w a evs :
  a <> By_gui -> existsb (clears_flag w) (map (fun e => (a, e)) evs) = false.
Proof.
  intros Ha. induction evs as [|e evs IH]; [reflexivity|].
  cbn [map existsb]. rewrite IH. destruct a; try contradiction; reflexivity.
Qed.

Lemma not_gui_no_join w a evs :
  a <> By_gui -> existsb (joins w) (map (fun e => (a, e)) evs) = false.
Proof.
  intros Ha. induction evs as [|e evs IH]; [reflexivity|].
  cbn [map existsb]. rewrite IH. destruct a; try contradiction; reflexivity.
Qed.

(** What a call of a handler does to the flag of [w]: [self.running =
    False] clears it, no other call touches it or looks like it. *)
Lemma call_clear app w i rest s evs s' :
  call app i rest s = Some (evs, s') ->
  (i = I_clear w /\ evs = [ClearRunning w] /\ running s' w = false)
  \/ (i <> I_clear w
      /\ existsb (clears_flag w) (map (fun e => (By_gui, e)) evs) = false
      /\ running s' w = running s w).
Proof.
  intros H. destruct s as [rv ra v pc sh g ws cl].
  destruct i as [line|w0| |w0|w0| |wd]; cbn [call] in H.
  - inversion H; subst. right. split; [discriminate|].
    destruct app, w; cbn; auto.
  - destruct w, w0; inversion H; subst; cbn;
      first [left; repeat split; reflexivity
            |right; repeat split; auto; discriminate].
  - right. split; [discriminate|].
    destruct (mixer_set (shared (mk_system rv ra v pc sh g ws cl))
              && stream_on (shared (mk_system rv ra v pc sh g ws cl)));
      inversion H; subst; destruct w; cbn; auto.
  - inversion H; subst. right. split; [discriminate|]. destruct w, w0; cbn; auto.
  - right. split; [discriminate|].
    destruct (finished (mk_system rv ra v pc sh g ws cl) w0); [|discriminate].
    inversion H; subst. destruct w, w0; cbn; auto.
  - inversion H; subst. right. split; [discriminate|]. destruct w; cbn; auto.
  - inversion H; subst. right. split; [discriminate|]. destruct w; cbn; auto.
Qed.

(** What a step does to the flag of [w]. *)
Lemma step_clear l w c s a evs s' :
  step l c s = Some (a, evs, s') ->
  (evs = [ClearRunning w] /\ a = By_gui /\ running s' w = false)
  \/ (existsb (clears_flag w) (map (fun e => (a, e)) evs) = false
      /\ running s' w = running s w).
Proof.
  intros E. destruct c as [cv|au|st| |wd|].
  - apply ShapeFacts.step_video_shape in E.
    destruct E as (_ & _ & -> & _ & ->). right.
    split; [apply not_gui_no_clear; discriminate|destruct w; reflexivity].
  - apply ShapeFacts.step_audio_shape in E.
    destruct E as (_ & _ & -> & _ & ->). right.
    split; [apply not_gui_no_clear; discriminate|destruct w; reflexivity].
  - apply RunFacts.step_callback_shape in E.
    destruct E as (_ & _ & -> & _ & ->). right.
    split; [apply not_gui_no_clear; discriminate|reflexivity].
  - apply RunFacts.step_stream_stops_shape in E.
    destruct E as (_ & _ & _ & -> & -> & ->). right.
    split; [reflexivity|destruct w; reflexivity].
  - apply RunFacts.step_close_shape in E.
    destruct E as (_ & _ & -> & -> & ->). right.
    split; [reflexivity|destruct w; reflexivity].
  - apply RunFacts.step_gui_shape in E.
    destruct E as [-> [(i & rest & _ & Hcall)|(_ & -> & ->)]].
    + destruct (call_clear (launched l) w i rest s evs s' Hcall)
        as [(_ & Hevs & Hr)|(_ & Hevs & Hr)]; [left|right]; auto.
    + right. split; [destruct w; reflexivity|destruct w; reflexivity].
Qed.

(** The flag of a thread is cleared by [stop()], by nothing else, and
    never set again. *)
Lemma running_cleared l w schedule : forall s,
  running (snd (run l schedule s)) w
  = running s w && negb (cleared w (fst (run l schedule s))).
Proof.
  induction schedule as [|c rest IH]; intros s.
  - cbn. now rewrite andb_true_r.
  - rewrite RunFacts.run_cons.
    destruct (step l c s) as [[[a evs] s']|] eqn:E; [|apply IH].
    cbn [fst snd]. rewrite IH. unfold cleared. rewrite existsb_app.
    destruct (step_clear l w c s a evs s' E) as [(-> & -> & Hr)|(Hevs & Hr)].
    + rewrite Hr. cbn [map existsb]. rewrite clears_own. cbn.
      now rewrite andb_false_r.
    + rewrite Hevs, Hr. reflexivity.
Qed.

Lemma after_clear_skip w tr1 tr2 :
  existsb (clears_flag w) tr1 = false ->
  after_clear w (tr1 ++ tr2) = after_clear w tr2.
Proof.
  induction tr1 as [|ae tr1 IH]; [reflexivity|].
  change (existsb (clears_flag w) (ae :: tr1))
    with (clears_flag w ae || existsb (clears_flag w) tr1).
  change (after_clear w ((ae :: tr1) ++ tr2))
    with (if clears_flag w ae then tr1 ++ tr2 else after_clear w (tr1 ++ tr2)).
  intros H. apply orb_false_iff in H. destruct H as [H1 H2].
  rewrite H1. auto.
Qed.

(** Once the flag is cleared the loop makes at most the pass it is in. *)
Lemma passes_cleared l w schedule s :
  running s w = false ->
  passes (pass w) (fst (run l schedule s)) <= further w.
Proof.
  intros Hr. destruct w; cbn [running pass further] in *.
  - pose proof (LoopFacts.video_passes_cleared l schedule s Hr) as Hp.
    destruct (video s); cbn in Hp; lia.
  - rewrite (LoopFacts.audio_passes_cleared l schedule s Hr). lia.
Qed.

Lemma passes_after_clear l w schedule : forall s,
  passes (pass w) (after_clear w (fst (run l schedule s))) <= further w.
Proof.
  induction schedule as [|c rest IH]; intros s.
  - cbn. lia.
  - rewrite RunFacts.run_cons.
    destruct (step l c s) as [[[a evs] s']|] eqn:E; [|apply IH].
    cbn [fst].
    destruct (step_clear l w c s a evs s' E) as [(-> & -> & Hr)|(Hevs & Hr)].
    + change (after_clear w (map (fun e => (By_gui, e)) [ClearRunning w]
                              ++ fst (run l rest s')))
        with (if clears_flag w (By_gui, ClearRunning w)
              then fst (run l rest s')
              else after_clear w (fst (run l rest s'))).
      rewrite clears_own.
      apply (passes_cleared l w rest s' Hr).
    + rewrite (after_clear_skip w _ _ Hevs). apply IH.
Qed.

(** [wait()] returns only on a thread that has finished. *)
Lemma call_join app w i rest s evs s' :
  call app i rest s = Some (evs, s') ->
  existsb (joins w) (map (fun e => (By_gui, e)) evs) = true ->
  i = I_wait w /\ finished s w = true.
Proof.
  intros H. destruct s as [rv ra v pc sh g ws cl].
  destruct i as [line|w0| |w0|w0| |wd]; cbn [call] in H.
  - inversion H; subst. destruct app, w; cbn; discriminate.
  - destruct w, w0; inversion H; subst; cbn; discriminate.
  - destruct (mixer_set (shared (mk_system rv ra v pc sh g ws cl))
              && stream_on (shared (mk_system rv ra v pc sh g ws cl)));
      inversion H; subst; destruct w; cbn; discriminate.
  - inversion H; subst. destruct w, w0; cbn; discriminate.
  - destruct (finished (mk_system rv ra v pc sh g ws cl) w0) eqn:Ef; [|discriminate].
    inversion H; subst. destruct w, w0; cbn; try discriminate; auto.
  - inversion H; subst. destruct w; cbn; discriminate.
  - inversion H; subst. destruct w; cbn; discriminate.
Qed.

Lemma step_join l w c s a evs s' :
  step l c s = Some (a, evs, s') ->
  existsb (joins w) (map (fun e => (a, e)) evs) = true ->
  finished s w = true
  /\ exists rest, gui s = G_handler (I_wait w :: rest).
Proof.
  intros E Hj. destruct c as [cv|au|st| |wd|].
  - apply ShapeFacts.step_video_shape in E. destruct E as (_ & _ & -> & _ & _).
    rewrite not_gui_no_join in Hj by discriminate. discriminate.
  - apply ShapeFacts.step_audio_shape in E. destruct E as (_ & _ & -> & _ & _).
    rewrite not_gui_no_join in Hj by discriminate. discriminate.
  - apply RunFacts.step_callback_shape in E. destruct E as (_ & _ & -> & _ & _).
    rewrite not_gui_no_join in Hj by discriminate. discriminate.
  - apply RunFacts.step_stream_stops_shape in E.
    destruct E as (_ & _ & _ & -> & -> & _). discriminate.
  - apply RunFacts.step_close_shape in E. destruct E as (_ & _ & -> & -> & _).
    discriminate.
  - apply RunFacts.step_gui_shape in E.
    destruct E as [-> [(i & rest & Hg & Hcall)|(_ & -> & _)]].
    + destruct (call_join (launched l) w i rest s evs s' Hcall Hj) as [-> Hf].
      split; [exact Hf|]. exists rest. exact Hg.
    + destruct w; discriminate.
Qed.

(** A thread that has finished stays finished. *)
Lemma step_finished l w c s a evs s' :
  step l c s = Some (a, evs, s') -> finished s w = true -> finished s' w = true.
Proof.
  intros E Hf. destruct (ShapeFacts.step_other l c s a evs s' E) as (_ & _ & Hv & Ha).
  destruct w; unfold finished in *.
  - destruct c as [cv| | | | |];
      try (destruct Hv as [-> _]; [intros; discriminate|exact Hf]).
    apply ShapeFacts.step_video_shape in E. destruct E as (_ & Hnf & _).
    destruct (video s); try discriminate. now destruct Hnf.
  - destruct c as [|au| | | |];
      try (destruct Ha as [-> _]; [intros; discriminate|exact Hf]).
    apply ShapeFacts.step_audio_shape in E. destruct E as (_ & Hnf & _).
    destruct (audio s); try discriminate. now destruct Hnf.
Qed.

Lemma run_finished l w schedule s :
  finished s w = true -> finished (snd (run l schedule s)) w = true.
Proof.
  apply (RunFacts.run_preserves l (fun s => finished s w = true)).
  intros c s0 a evs s' H E. apply (step_finished l w c s0 a evs s' E H).
Qed.

(** A [wait()] that has returned: the thread has finished. *)
Lemma joined_finished l w schedule : forall s,
  existsb (joins w) (fst (run l schedule s)) = true ->
  finished (snd (run l schedule s)) w = true.
Proof.
  induction schedule as [|c rest IH]; intros s.
  - cbn. discriminate.
  - rewrite RunFacts.run_cons.
    destruct (step l c s) as [[[a evs] s']|] eqn:E; [|apply IH].
    cbn [fst snd]. rewrite existsb_app. intros H.
    apply orb_true_iff in H. destruct H as [H|H]; [|apply IH; exact H].
    destruct (step_join l w c s a evs s' E H) as [Hf _].
    apply run_finished. apply (step_finished l w c s a evs s' E Hf).
Qed.

(** A [wait()] that has returned: the flag was cleared before. *)
Lemma joined_cleared l w schedule : forall s,
  Closing.progress_inv l s ->
  running s w = true ->
  existsb (joins w) (fst (run l schedule s)) = true ->
  cleared w (fst (run l schedule s)) = true.
Proof.
  induction schedule as [|c rest IH]; intros s Hp Hr.
  - cbn. discriminate.
  - rewrite RunFacts.run_cons.
    destruct (step l c s) as [[[a evs] s']|] eqn:E; [|apply IH; assumption].
    cbn [fst]. unfold cleared. rewrite !existsb_app. intros H.
    pose proof (ProgressFacts.step_progress_inv l c s a evs s' Hp E) as Hp'.
    destruct (step_clear l w c s a evs s' E) as [(-> & -> & _)|(Hevs & Hr')].
    + cbn [map existsb]. now rewrite clears_own.
    + rewrite Hevs. cbn [orb].
      apply orb_true_iff in H. destruct H as [H|H].
      * exfalso. destruct (step_join l w c s a evs s' E H) as [_ (rest' & Hg)].
        unfold Closing.progress_inv in Hp. rewrite Hg in Hp.
        destruct Hp as [_ Hguard]. destruct w; cbn in Hguard, Hr;
          rewrite Hr in Hguard; discriminate.
      * apply (IH s' Hp'); [congruence|exact H].
Qed.

(** A step that is not the GUI thread's leaves the handler where it is. *)
Lemma step_keeps_handler l c s a evs s' calls :
  gui s = G_handler calls -> c <> C_gui ->
  step l c s = Some (a, evs, s') -> gui s' = G_handler calls.
Proof.
  intros Hg Hc E. destruct c as [cv|au|st| |wd|].
  - apply ShapeFacts.step_video_shape in E. destruct E as (_ & _ & _ & _ & ->).
    exact Hg.
  - apply ShapeFacts.step_audio_shape in E. destruct E as (_ & _ & _ & _ & ->).
    exact Hg.
  - apply RunFacts.step_callback_shape in E. destruct E as (_ & _ & _ & _ & ->).
    exact Hg.
  - apply RunFacts.step_stream_stops_shape in E.
    destruct E as (_ & _ & _ & _ & _ & ->). exact Hg.
  - apply RunFacts.step_close_shape in E. destruct E as (Hev & _). congruence.
  - now destruct Hc.
Qed.

(** A call that every close handler makes is made, with its event, in
    every run that ends: the handler is run to its end before the process
    exits. *)
Lemma handler_runs_call l i0 e0 :
  (forall rest s evs s', call (launched l) i0 rest s = Some (evs, s') -> evs = [e0]) ->
  (forall wd, Gui.is_visible (Gui.shown (launched l)) wd = true ->
              In i0 (fst (Gui.close 3 (launched l) wd (Gui.shown (launched l))))) ->
  forall schedule s,
    Closing.progress_inv l s ->
    (gui s = G_events \/ exists calls, gui s = G_handler calls /\ In i0 calls) ->
    gui (snd (run l schedule s)) = G_exited ->
    In (By_gui, e0) (fst (run l schedule s)).
Proof.
  intros Hcall Hclose. induction schedule as [|c rest IH]; intros s Hp Hs Hend.
  - cbn in Hend. destruct Hs as [Hs|(calls & Hs & _)]; congruence.
  - rewrite RunFacts.run_cons in *.
    destruct (step l c s) as [[[a evs] s']|] eqn:E; [|apply IH; assumption].
    cbn [fst snd] in *. apply in_or_app.
    pose proof (ProgressFacts.step_progress_inv l c s a evs s' Hp E) as Hp'.
    destruct Hs as [Hs|(calls & Hs & Hin)].
    + right. apply (IH s' Hp'); [|exact Hend].
      destruct c as [cv|au|st| |wd|];
        try (left;
             match type of E with
             | step _ ?c0 _ = _ =>
                 apply (KeepRunning.step_in_loop l c0 s a evs s' Hs);
                 [intros wd0; discriminate|exact E]
             end).
      apply RunFacts.step_close_shape in E.
      destruct E as (_ & Hvis & _ & _ & ->). right.
      unfold Closing.progress_inv in Hp. rewrite Hs in Hp. rewrite Hp in *.
      eexists. split; [reflexivity|]. apply Hclose. exact Hvis.
    + destruct c as [cv|au|st| |wd|];
        try (right; apply (IH s' Hp'); [|exact Hend]; right; exists calls;
             split; [|exact Hin];
             match type of E with
             | step _ ?c0 _ = _ =>
                 apply (step_keeps_handler l c0 s a evs s' calls Hs);
                 [discriminate|exact E]
             end).
      apply RunFacts.step_gui_shape in E.
      destruct E as [-> [(i & rest' & Hg & Hc)|(Hg & _)]].
      * rewrite Hs in Hg. inversion Hg; subst calls.
        destruct Hin as [->|Hin].
        -- left. rewrite (Hcall _ _ _ _ Hc). left. reflexivity.
        -- right. apply (IH s' Hp'); [|exact Hend]. right. exists rest'.
           split; [|exact Hin]. apply RunFacts.call_shape in Hc. apply Hc.
      * rewrite Hs in Hg. inversion Hg; subst calls. destruct Hin.
Qed.

(** Every close handler clears the flag of both threads and waits for
    both. *)
Lemma close_clears app wd w :
  Gui.is_visible (Gui.shown app) wd = true ->
  In (I_clear w) (fst (Gui.close 3 app wd (Gui.shown app)))
  /\ In (I_wait w) (fst (Gui.close 3 app wd (Gui.shown app))).
Proof.
  destruct app, wd, w; intros H; try discriminate; cbn; auto 20.
Qed.

(** Every close handler calls [stop()] of both threads. *)
Lemma close_stops app wd w :
  Gui.is_visible (Gui.shown app) wd = true ->
  exists pre post, Gui.close_event app wd = pre ++ stop app w ++ post.
Proof.
  destruct app, wd, w; intros H; try discriminate; cbn [stop].
  - exists [I_say "Stopping video thread..."]. eexists. reflexivity.
  - exists ([I_say "Stopping video thread..."] ++ Gui.VideoThread_stop
            ++ [I_say "Stopping audio thread..."]). eexists. reflexivity.
  - exists [I_say "Stopping video thread..."]. eexists. reflexivity.
  - exists ([I_say "Stopping video thread..."] ++ Gui.VideoThread_stop
            ++ [I_say "Stopping audio thread..."]). eexists. reflexivity.
  - exists [I_say "Stopping video thread..."]. eexists. reflexivity.
  - exists ([I_say "Stopping video thread..."] ++ Gui.VideoThread_stop
            ++ [I_say "Stopping audio thread..."]). eexists. reflexivity.
  - exists [I_say "Stopping video thread..."]. eexists. reflexivity.
  - exists ([I_say "Stopping video thread..."] ++ Gui.VideoThread_stop
            ++ [I_say "Stopping audio thread..."]). eexists. reflexivity.
  - exists [I_say "Stopping video thread..."]. eexists. reflexivity.
  - exists ([I_say "Stopping video thread..."] ++ Gui.VideoThread_stop
            ++ [I_say "Stopping audio thread..."]). eexists. reflexivity.
Qed.

(** A close event on a window that is shown, then turns for everybody:
    the process exits. *)
Lemma close_rounds_exit l before wd answers :
  Gui.is_visible (Gui.shown (launched l)) wd = true ->
  15 <= List.length answers ->
  gui (snd (run l (before ++ C_close wd :: Closing.rounds answers)
                (init (launched l))))
  = G_exited.
Proof.
  intros Hvis Hlen.
  rewrite RunFacts.run_app. cbn [snd].
  pose proof (RunFacts.run_preserves l (Closing.progress_inv l)
                (ProgressFacts.step_progress_inv l) before _
                (ProgressFacts.progress_init l)) as Hp.
  set (s0 := snd (run l before (init (launched l)))) in *.
  rewrite RunFacts.run_cons.
  destruct (step l (C_close wd) s0) as [[[a evs] s1]|] eqn:E.
  - cbn [snd].
    pose proof (ProgressFacts.step_progress_inv l _ _ _ _ _ Hp E) as Hp1.
    apply RunFacts.step_close_shape in E.
    destruct E as (_ & _ & _ & _ & Hs1).
    assert (Hg1 : gui s1 = G_handler (fst (Gui.close 3 (launched l) wd (windows s0))))
      by (rewrite Hs1; reflexivity).
    apply (ProgressFacts.rounds_exit l answers s1 _ Hp1 Hg1).
    unfold Closing.progress_inv in Hp1. rewrite Hg1 in Hp1. lia.
  - destruct (gui s0) as [|calls|] eqn:Hg.
    + exfalso. unfold Closing.progress_inv in Hp. rewrite Hg in Hp.
      unfold step in E. rewrite Hg, Hp, Hvis in E.
      destruct (Gui.close 3 (launched l) wd (Gui.shown (launched l))). discriminate.
    + apply (ProgressFacts.rounds_exit l answers s0 calls Hp Hg).
      unfold Closing.progress_inv in Hp. rewrite Hg in Hp. lia.
    + now rewrite (RunFacts.run_exited l _ _ Hg).
Qed.

End StopFacts.

(** C7: both worker loops test the thread's [running] flag at each pass:
    a pass through the body of the video loop leads back to the test, which
    releases the capture and ends [run] when the flag is cleared; the audio
    loop sleeps only while the flag is set.  [stop()] of either thread
    begins by clearing the flag and then waits for the thread, and every
    close handler calls it.  In every run the flag of a thread is cleared
    exactly when its [stop()] has run; after that the video loop makes at
    most one further pass and the audio loop none; a [wait()] returns only
    with the flag cleared and the thread's [run] over; and the capture is
    never left open by a video thread that has ended.  After a close event on
    a window that is shown, the threads and the GUI thread taking turns, both
    flags are cleared, both waits return, the capture is released or was
    never opened, and the sounddevice stream is closed. *)
Theorem cleared_flag_ends_loops :
  forall (l : launch) (w : worker),
    (forall running cv,
        snd (VideoThread.step l running cv V_body) = V_test
        /\ VideoThread.step l running cv V_test = VideoThread.test l running cv
        /\ (running = false ->
            VideoThread.test l running cv
            = ([CapRelease;
                report (launched l) "Video thread stopped and camera released."],
               V_finished)))
    /\ (forall running au sh,
           In Sleep (fst (fst (AudioThread.step l running au A_loop sh))) ->
           running = true
           /\ snd (fst (AudioThread.step l running au A_loop sh)) = A_loop)
    /\ (exists others,
           Stopping.stop (launched l) w = I_clear w :: others
           /\ In (I_wait w) others)
    /\ (forall wd,
           Gui.is_visible (Gui.shown (launched l)) wd = true ->
           exists pre post,
             Gui.close_event (launched l) wd
             = pre ++ Stopping.stop (launched l) w ++ post)
    /\ (forall schedule,
           Stopping.running (snd (Run.run l schedule (Run.init (launched l)))) w
           = negb (Stopping.cleared w
                     (fst (Run.run l schedule (Run.init (launched l)))))
           /\ Observe.passes (Stopping.pass w)
                (Stopping.after_clear w
                   (fst (Run.run l schedule (Run.init (launched l)))))
              <= Stopping.further w
           /\ (existsb (Stopping.joins w)
                       (fst (Run.run l schedule (Run.init (launched l)))) = true ->
               Stopping.cleared w
                 (fst (Run.run l schedule (Run.init (launched l)))) = true
               /\ Run.finished (snd (Run.run l schedule (Run.init (launched l)))) w
                  = true)
           /\ exists h,
               Protocol.capture_trace Protocol.Unopened
                 (fst (Run.run l schedule (Run.init (launched l)))) = Some h
               /\ (Run.finished (snd (Run.run l schedule (Run.init (launched l))))
                                Video = true ->
                   h <> Protocol.Opened))
    /\ (forall before wd answers,
           Gui.is_visible (Gui.shown (launched l)) wd = true ->
           15 <= List.length answers ->
           In (By_gui, ClearRunning w)
              (fst (Run.run l (before ++ C_close wd :: Closing.rounds answers)
                            (Run.init (launched l))))
           /\ In (By_gui, Joined w)
                 (fst (Run.run l (before ++ C_close wd :: Closing.rounds answers)
                               (Run.init (launched l))))
           /\ Stopping.running
                (snd (Run.run l (before ++ C_close wd :: Closing.rounds answers)
                              (Run.init (launched l)))) w = false
           /\ Run.finished
                (snd (Run.run l (before ++ C_close wd :: Closing.rounds answers)
                              (Run.init (launched l)))) w = true
           /\ (exists h,
                  Protocol.capture_trace Protocol.Unopened
                    (fst (Run.run l (before ++ C_close wd :: Closing.rounds answers)
                                  (Run.init (launched l)))) = Some h
                  /\ h <> Protocol.Opened)
           /\ (launched l <> guiver_rtmixer ->
               stream_on
                 (shared (snd (Run.run l (before ++ C_close wd :: Closing.rounds answers)
                                       (Run.init (launched l))))) = false)).
Proof.
  intros l w.
  assert (Hcapture : forall schedule,
             exists h,
               Protocol.capture_trace Protocol.Unopened
                 (fst (Run.run l schedule (Run.init (launched l)))) = Some h
               /\ (Run.finished (snd (Run.run l schedule (Run.init (launched l))))
                                Video = true ->
                   h <> Protocol.Opened)).
  { intros schedule.
    destruct (ProtocolFacts.capture_run l schedule (Run.init (launched l))
                Protocol.Unopened eq_refl) as (h & Hh & Hat).
    exists h. split; [exact Hh|]. unfold Run.finished. intros Hf.
    destruct (video (snd (Run.run l schedule (Run.init (launched l)))));
      try discriminate. exact Hat. }
  split; [|split; [|split; [|split; [|split]]]].
  - intros running cv. split; [|split; [reflexivity|]].
    + cbn. unfold VideoThread.body. destruct (read_ret cv); reflexivity.
    + intros ->. reflexivity.
  - intros running au0 sh.
    unfold AudioThread.step, AudioThread.step_sounddevice, AudioThread.step_rtmixer.
    destruct (launched l), running, (stream_on sh), (exit_error au0); cbn;
      intuition congruence.
  - destruct w; cbn [Stopping.stop].
    + exists [I_wait Video]. split; [reflexivity|left; reflexivity].
    + unfold Gui.AudioThread_stop. destruct (launched l);
        eexists; (split; [reflexivity|cbn; auto]).
  - intros wd Hvis. apply (StopFacts.close_stops (launched l) wd w Hvis).
  - intros schedule. split; [|split; [|split]].
    + rewrite StopFacts.running_cleared. destruct w; reflexivity.
    + apply StopFacts.passes_after_clear.
    + intros Hj. split.
      * apply (StopFacts.joined_cleared l w schedule (Run.init (launched l)));
          [apply ProgressFacts.progress_init|destruct w; reflexivity|exact Hj].
      * apply (StopFacts.joined_finished l w schedule _ Hj).
    + apply Hcapture.
  - intros before wd answers Hvis Hlen.
    pose proof (StopFacts.close_rounds_exit l before wd answers Hvis Hlen) as Hend.
    set (schedule := before ++ C_close wd :: Closing.rounds answers) in *.
    assert (Hclear : In (By_gui, ClearRunning w)
                        (fst (Run.run l schedule (Run.init (launched l))))).
    { apply (StopFacts.handler_runs_call l (I_clear w) (ClearRunning w)).
      - intros rest s evs s' Hc.
        destruct (StopFacts.call_clear (launched l) w (I_clear w) rest s evs s' Hc)
          as [(_ & Hevs & _)|(Hne & _)]; [exact Hevs|now destruct Hne].
      - intros wd0 Hv. apply (StopFacts.close_clears (launched l) wd0 w Hv).
      - apply ProgressFacts.progress_init.
      - left. reflexivity.
      - exact Hend. }
    assert (Hjoin : In (By_gui, Joined w)
                       (fst (Run.run l schedule (Run.init (launched l))))).
    { apply (StopFacts.handler_runs_call l (I_wait w) (Joined w)).
      - intros rest s evs s' Hc. cbn [Run.call] in Hc.
        destruct (Run.finished s w); [|discriminate]. now inversion Hc.
      - intros wd0 Hv. apply (StopFacts.close_clears (launched l) wd0 w Hv).
      - apply ProgressFacts.progress_init.
      - left. reflexivity.
      - exact Hend. }
    assert (Hcleared : Stopping.cleared w
                         (fst (Run.run l schedule (Run.init (launched l)))) = true).
    { apply existsb_exists. exists (By_gui, ClearRunning w).
      split; [exact Hclear|apply StopFacts.clears_own]. }
    assert (Hjoined : existsb (Stopping.joins w)
                        (fst (Run.run l schedule (Run.init (launched l)))) = true).
    { apply existsb_exists. exists (By_gui, Joined w).
      split; [exact Hjoin|destruct w; reflexivity]. }
    pose proof (StopFacts.joined_finished l w schedule _ Hjoined) as Hfin.
    pose proof (RunFacts.run_preserves l (Closing.exit_inv l)
                  (ExitFacts.step_exit_inv l) schedule _ (ExitFacts.exit_inv_init l))
      as [[Hstream _] Hq].
    rewrite Hend in Hq. destruct Hq as (_ & Hv & Ha).
    split; [exact Hclear|]. split; [exact Hjoin|]. split.
    { rewrite StopFacts.running_cleared, Hcleared. now rewrite andb_false_r. }
    split; [exact Hfin|]. split.
    { destruct (Hcapture schedule) as (h & Hh & Hno). exists h. auto. }
    intros Happ.
    destruct (stream_on (shared (snd (Run.run l schedule (Run.init (launched l))))))
      eqn:Eon; [|reflexivity].
    specialize (Hstream Happ eq_refl). unfold Run.finished in Ha.
    rewrite Hstream in Ha. discriminate.
Qed.

(** The statement at capture_app and its audio thread, the window closed
    after the first frame was shown. *)
Lemma cleared_flag_ends_loops_witness :
  Gui.is_visible (Gui.shown (launched RunSamples.capture_launch)) CaptureWindow = true
  /\ 15 <= List.length (repeat (RunSamples.cv_ok, RunSamples.au_ok) 15)
  /\ In (By_gui, ClearRunning Audio)
        (fst (Run.run RunSamples.capture_launch
                ([C_video RunSamples.cv_ok; C_audio RunSamples.au_ok;
                  C_video RunSamples.cv_ok; C_video RunSamples.cv_ok]
                   ++ C_close CaptureWindow
                   :: Closing.rounds (repeat (RunSamples.cv_ok, RunSamples.au_ok) 15))
                (Run.init (launched RunSamples.capture_launch))))
  /\ Run.finished
       (snd (Run.run RunSamples.capture_launch
               ([C_video RunSamples.cv_ok; C_audio RunSamples.au_ok;
                 C_video RunSamples.cv_ok; C_video RunSamples.cv_ok]
                  ++ C_close CaptureWindow
                  :: Closing.rounds (repeat (RunSamples.cv_ok, RunSamples.au_ok) 15))
               (Run.init (launched RunSamples.capture_launch)))) Audio = true
  /\ stream_on
       (shared (snd (Run.run RunSamples.capture_launch
                       ([C_video RunSamples.cv_ok; C_audio RunSamples.au_ok;
                         C_video RunSamples.cv_ok; C_video RunSamples.cv_ok]
                          ++ C_close CaptureWindow
                          :: Closing.rounds
                               (repeat (RunSamples.cv_ok, RunSamples.au_ok) 15))
                       (Run.init (launched RunSamples.capture_launch))))) = false.
Proof.
  assert (Hvis : Gui.is_visible (Gui.shown (launched RunSamples.capture_launch))
                                CaptureWindow = true) by reflexivity.
  assert (Hlen : 15 <= List.length (repeat (RunSamples.cv_ok, RunSamples.au_ok) 15))
    by (cbn; lia).
  split; [exact Hvis|]. split; [exact Hlen|].
  destruct (cleared_flag_ends_loops RunSamples.capture_launch Audio)
    as (_ & _ & _ & _ & _ & Hclosing).
  destruct (Hclosing [C_video RunSamples.cv_ok; C_audio RunSamples.au_ok;
                      C_video RunSamples.cv_ok; C_video RunSamples.cv_ok]
                     CaptureWindow (repeat (RunSamples.cv_ok, RunSamples.au_ok) 15)
                     Hvis Hlen)
    as (Hclear & _ & _ & Hfin & _ & Hstream).
  split; [exact Hclear|]. split; [exact Hfin|].
  apply Hstream. discriminate.
Defined.
(* ===================================================================== *)
(** * Shutdown: the order of the steps in a run *)
(* ===================================================================== *)

Module OrderFacts.
Import Run ShutdownTrace.

Lemma steps_app tr1 tr2 : steps (tr1 ++ tr2) = steps tr1 ++ steps tr2.
Proof.
  induction tr1 as [|ae tr1 IH]; [reflexivity|].
  change (steps ((ae :: tr1) ++ tr2))
    with (match step_of ae with
          | Some st => st :: steps (tr1 ++ tr2)
          | None => steps (tr1 ++ tr2)
          end).
  change (steps (ae :: tr1))
    with (match step_of ae with
          | Some st => st :: steps tr1
          | None => steps tr1
          end).
  rewrite IH. destruct (step_of ae); reflexivity.
Qed.

Lemma steps_others a evs :
  a <> By_gui -> steps (map (fun e => (a, e)) evs) = [].
Proof.
  intros Ha. induction evs as [|e evs IH]; [reflexivity|].
  cbn [map]. destruct a; try contradiction; exact IH.
Qed.

(** The events of a call of a handler are the shutdown step the call
    is. *)
Lemma steps_call app i rest s evs s' :
  call app i rest s = Some (evs, s') ->
  steps (map (fun e => (By_gui, e)) evs) = Gui.shutdown_steps [i].
Proof.
  intros H. destruct s as [rv ra v pc sh g ws cl].
  destruct i as [line|w0| |w0|w0| |wd]; cbn [call] in H.
  - inversion H; subst. destruct app; reflexivity.
  - destruct w0; inversion H; subst; reflexivity.
  - destruct (mixer_set (shared (mk_system rv ra v pc sh g ws cl))
              && stream_on (shared (mk_system rv ra v pc sh g ws cl)));
      inversion H; subst; reflexivity.
  - inversion H; subst. reflexivity.
  - destruct (finished (mk_system rv ra v pc sh g ws cl) w0); [|discriminate].
    inversion H; subst. reflexivity.
  - inversion H; subst. reflexivity.
  - inversion H; subst. reflexivity.
Qed.

Lemma shutdown_steps_cons i rest :
  Gui.shutdown_steps (i :: rest) = Gui.shutdown_steps [i] ++ Gui.shutdown_steps rest.
Proof. destruct i; reflexivity. Qed.

Lemma last_default {A} (x : A) l : forall d d', last (x :: l) d = last (x :: l) d'.
Proof.
  revert x. induction l as [|y l IH]; intros x d d'; [reflexivity|].
  change (last (x :: y :: l) d) with (last (y :: l) d).
  change (last (x :: y :: l) d') with (last (y :: l) d'). apply IH.
Qed.

Lemma ordered_app r sts1 : forall sts2,
  ordered_from r (sts1 ++ sts2)
  = ordered_from r sts1
    && ordered_from (last (map rank sts1) r) sts2.
Proof.
  revert r. induction sts1 as [|st sts1 IH]; intros r sts2.
  - reflexivity.
  - change (ordered_from r ((st :: sts1) ++ sts2))
      with ((r <=? rank st)%nat && ordered_from (rank st) (sts1 ++ sts2)).
    change (ordered_from r (st :: sts1))
      with ((r <=? rank st)%nat && ordered_from (rank st) sts1).
    rewrite IH, andb_assoc. f_equal. f_equal.
    destruct sts1 as [|st' sts1]; [reflexivity|].
    change (last (map rank (st :: st' :: sts1)) r)
      with (last (rank st' :: map rank sts1) r).
    apply last_default.
Qed.

(** The calls of every close handler are in order. *)
Lemma close_event_ordered app wd :
  Gui.is_visible (Gui.shown app) wd = true ->
  ordered_from 0 (Gui.shutdown_steps (fst (Gui.close 3 app wd (Gui.shown app))))
  = true.
Proof. destruct app, wd; intros H; try discriminate; reflexivity. Qed.

(** From a state whose handler has only steps in order ahead, from place
    [r] on, a run shows only steps in order, from [r] on. *)
Lemma run_ordered l schedule : forall s r,
  Closing.progress_inv l s ->
  (gui s = G_events -> r = 0) ->
  (forall calls, gui s = G_handler calls ->
                 ordered_from r (Gui.shutdown_steps calls) = true) ->
  ordered_from r (steps (fst (run l schedule s))) = true.
Proof.
  induction schedule as [|c rest IH]; intros s r Hp Hev Hh; [reflexivity|].
  rewrite RunFacts.run_cons.
  destruct (step l c s) as [[[a evs] s']|] eqn:E; [|apply IH; assumption].
  cbn [fst]. rewrite steps_app.
  pose proof (ProgressFacts.step_progress_inv l c s a evs s' Hp E) as Hp'.
  destruct (gui s) as [|calls|] eqn:Hg.
  - specialize (Hev eq_refl). subst r.
    destruct c as [cv|au|st| |wd|].
    1-4: assert (Hg' : gui s' = G_events)
           by (match type of E with
               | step _ ?c0 _ = _ =>
                   apply (KeepRunning.step_in_loop l c0 s a evs s' Hg);
                   [intros wd0; discriminate|exact E]
               end).
    1-4: assert (Ha : a <> By_gui)
           by (first [apply ShapeFacts.step_video_shape in E;
                      destruct E as (_ & _ & -> & _)
                     |apply ShapeFacts.step_audio_shape in E;
                      destruct E as (_ & _ & -> & _)
                     |apply RunFacts.step_callback_shape in E;
                      destruct E as (_ & _ & -> & _)
                     |apply RunFacts.step_stream_stops_shape in E;
                      destruct E as (_ & _ & _ & -> & _)]; discriminate).
    1-4: rewrite (steps_others a evs Ha); apply (IH s' 0 Hp');
           [reflexivity|intros calls Hc; congruence].
    + apply RunFacts.step_close_shape in E.
      destruct E as (_ & Hvis & -> & -> & Hs'). cbn [map steps app].
      unfold Closing.progress_inv in Hp. rewrite Hg in Hp. rewrite Hp in *.
      apply (IH s' 0 Hp').
      * rewrite Hs'. discriminate.
      * rewrite Hs'. cbn [gui]. intros calls Hc. inversion Hc; subst calls.
        apply (close_event_ordered (launched l) wd Hvis).
    + unfold step in E. rewrite Hg in E. discriminate.
  - specialize (Hh calls eq_refl).
    destruct c as [cv|au|st| |wd|].
    1-5: assert (Hg' : gui s' = G_handler calls)
           by (match type of E with
               | step _ ?c0 _ = _ =>
                   apply (StopFacts.step_keeps_handler l c0 s a evs s' calls Hg);
                   [discriminate|exact E]
               end).
    1-4: assert (Ha : a <> By_gui)
           by (first [apply ShapeFacts.step_video_shape in E;
                      destruct E as (_ & _ & -> & _)
                     |apply ShapeFacts.step_audio_shape in E;
                      destruct E as (_ & _ & -> & _)
                     |apply RunFacts.step_callback_shape in E;
                      destruct E as (_ & _ & -> & _)
                     |apply RunFacts.step_stream_stops_shape in E;
                      destruct E as (_ & _ & _ & -> & _)]; discriminate).
    1-4: rewrite (steps_others a evs Ha); apply (IH s' r Hp');
           [congruence|intros calls' Hc; rewrite Hg' in Hc;
                       inversion Hc; subst calls'; exact Hh].
    + apply RunFacts.step_close_shape in E. destruct E as (Hev' & _). congruence.
    + apply RunFacts.step_gui_shape in E.
      destruct E as [-> [(i & rest' & Hgi & Hc)|(Hgi & -> & Hs')]].
      * rewrite Hg in Hgi. inversion Hgi; subst calls.
        rewrite (steps_call _ _ _ _ _ _ Hc).
        rewrite shutdown_steps_cons, ordered_app in Hh.
        apply andb_true_iff in Hh. destruct Hh as [Hh1 Hh2].
        rewrite ordered_app, Hh1. cbn [andb].
        apply (IH s' _ Hp').
        -- apply RunFacts.call_shape in Hc. destruct Hc as [Hc _].
           rewrite Hc. discriminate.
        -- apply RunFacts.call_shape in Hc. destruct Hc as [Hc _].
           rewrite Hc. intros calls' Hcalls. inversion Hcalls; subst calls'.
           exact Hh2.
      * cbn [map steps app].
        rewrite (RunFacts.run_exited l rest s') by (rewrite Hs'; reflexivity).
        reflexivity.
  - unfold step in E. rewrite Hg in E. discriminate.
Qed.

(** capture_app launches capture_app. *)
Lemma capture_launches m u l :
  snd (CaptureAppScript.main m u) = Ret l -> launched l = capture_app.
Proof.
  unfold CaptureAppScript.main. intros H.
  rewrite MFacts.bind_snd, ErrorFacts.list_video_ret in H.
  destruct (video_devices m) as [|d devices]; [discriminate|].
  rewrite MFacts.bind_snd in H.
  destruct (snd (Prompt.prompt_selection (Z.of_nat (List.length (d :: devices)))
                   "video" (keyboard u)))
    as [[video_choice stdin1]|e|n]; try discriminate.
  rewrite MFacts.bind_snd, ErrorFacts.list_audio_ret in H.
  destruct (CaptureApp.list_audio_input_devices_filtered (audio_devices m))
    as [[|fd0 fd] fn]; [discriminate|].
  rewrite MFacts.bind_snd in H.
  destruct (snd (Prompt.prompt_selection (Z.of_nat (List.length (fd0 :: fd)))
                   "audio input" stdin1))
    as [[audio_choice stdin2]|e|n]; try discriminate.
  rewrite MFacts.bind_snd in H. cbn [tell snd] in H.
  destruct (CaptureAppIndex.audio_choice_device_index (audio_devices_again m)
              (fd0 :: fd) (Z.to_nat audio_choice));
    destruct (nth_error (d :: devices) (Z.to_nat video_choice));
    destruct (nth_error fn (Z.to_nat audio_choice));
    cbn in H; try discriminate.
  inversion H; subst l. reflexivity.
Qed.

(** What a script launches when the rtmixer module, if one can be
    imported, has no [Api]: never an rtmixer audio thread. *)
Lemma launches_real sc m u l :
  (forall rt, rtmixer m = Some rt -> Api rt = None) ->
  snd (Whole.startup sc m u) = Some l ->
  launched l <> guiver_rtmixer.
Proof.
  intros Hno H. destruct sc; cbn [Whole.startup snd] in H; try discriminate.
  - destruct (snd (CaptureAppScript.main m u)) as [l0| |] eqn:E; try discriminate.
    inversion H; subst l0. rewrite (capture_launches m u l E). discriminate.
  - destruct (snd (GuiverScript.main m u)) as [l0| |] eqn:E; try discriminate.
    inversion H; subst l0.
    rewrite (GuiverMainFacts.launches_sounddevice m u l Hno E). discriminate.
Qed.

End OrderFacts.

(** C1: a script that reaches its event loop, on a machine whose rtmixer
    module, if one can be imported, has no [Api] (python-rtmixer has none, and
    guiver/main does not get as far as its event loop with it), runs a
    sounddevice audio thread.  For every window that is shown, the close
    handler stops the video thread, joins it, stops the audio thread, joins
    it, and only then closes the window.  In every run the GUI thread makes
    these steps in that order and none after a later one; once the window is
    closed both threads have returned from [run] and the audio stream is
    closed; and after that nobody, the stream callback included, emits a
    frame, an FPS figure or a debug line. *)
Theorem shutdown_stops_threads_before_closing :
  forall (sc : script) (m : machine) (u : user) (l : launch),
    (forall rt, rtmixer m = Some rt -> Api rt = None) ->
    snd (Whole.startup sc m u) = Some l ->
    launched l <> guiver_rtmixer
    /\ (forall wd,
           Gui.is_visible (Gui.shown (launched l)) wd = true ->
           Gui.squash (Gui.shutdown_steps (Gui.close_event (launched l) wd))
           = [Gui.stop_thread Video; Gui.join_thread Video;
              Gui.stop_thread Audio; Gui.join_thread Audio; Gui.close_window])
    /\ (forall schedule,
           ShutdownTrace.in_order
             (fst (Run.run l schedule (Run.init (launched l)))) = true
           /\ (closed (snd (Run.run l schedule (Run.init (launched l)))) = true ->
               Run.finished (snd (Run.run l schedule (Run.init (launched l)))) Video
               = true
               /\ Run.finished (snd (Run.run l schedule (Run.init (launched l)))) Audio
                  = true
               /\ stream_on
                    (shared (snd (Run.run l schedule (Run.init (launched l)))))
                  = false)
           /\ Run.quiet_after_close Run.everyone
                (fst (Run.run l schedule (Run.init (launched l)))) = true).
Proof.
  intros sc m u l Hno Hl.
  pose proof (OrderFacts.launches_real sc m u l Hno Hl) as Happ.
  split; [exact Happ|]. split.
  - intros wd. destruct (launched l), wd; simpl; intros H; try discriminate;
      reflexivity.
  - intros schedule. split; [|split].
    + apply (OrderFacts.run_ordered l schedule (Run.init (launched l)) 0).
      * apply ProgressFacts.progress_init.
      * reflexivity.
      * intros calls Hc. discriminate.
    + intros Hc.
      pose proof (RunFacts.run_preserves l (Closing.exit_inv l)
                    (ExitFacts.step_exit_inv l) schedule _
                    (ExitFacts.exit_inv_init l))
        as [[Hstream Hgui] Hq].
      assert (Hf : Run.finished (snd (Run.run l schedule (Run.init (launched l))))
                                Video = true
                   /\ Run.finished (snd (Run.run l schedule (Run.init (launched l))))
                                   Audio = true).
      { destruct (gui (snd (Run.run l schedule (Run.init (launched l))))).
        - destruct Hgui as [Hgui _]. congruence.
        - rewrite Hc in Hgui. split; apply Hgui.
        - split; apply Hq. }
      destruct Hf as [Hv Ha]. split; [exact Hv|]. split; [exact Ha|].
      destruct (stream_on (shared (snd (Run.run l schedule (Run.init (launched l))))))
        eqn:Eon; [|reflexivity].
      specialize (Hstream Happ eq_refl). unfold Run.finished in Ha.
      rewrite Hstream in Ha. discriminate.
    + apply Shutdown.quiet_after_close_inv.
      * left. exact Happ.
      * apply Shutdown.inv_init.
      * reflexivity.
Qed.

(** guiver/main on the sample machine without rtmixer, a whole session
    closed from the debug window. *)
Lemma shutdown_stops_threads_before_closing_witness :
  (forall rt, rtmixer ScriptSamples.desk = Some rt -> Api rt = None)
  /\ snd (Whole.startup guiver_main_py ScriptSamples.desk ScriptSamples.alice)
     = Some (mk_launch guiver_sounddevice 1 2 "")
  /\ ShutdownTrace.steps
       (fst (Run.run (mk_launch guiver_sounddevice 1 2 "")
               ([C_video RunSamples.cv_ok; C_audio RunSamples.au_ok;
                 C_video RunSamples.cv_ok; C_video RunSamples.cv_ok;
                 C_close DebugWindow]
                  ++ Closing.rounds (repeat (RunSamples.cv_ok, RunSamples.au_ok) 15)
                  ++ [C_callback (Some "input overflow")])
               (Run.init guiver_sounddevice)))
     = [Gui.stop_thread Video; Gui.join_thread Video;
        Gui.stop_thread Audio; Gui.join_thread Audio; Gui.join_thread Audio;
        Gui.close_window; Gui.close_window; Gui.close_window; Gui.close_window]
  /\ Run.quiet_after_close Run.everyone
       (fst (Run.run (mk_launch guiver_sounddevice 1 2 "")
               ([C_video RunSamples.cv_ok; C_audio RunSamples.au_ok;
                 C_video RunSamples.cv_ok; C_video RunSamples.cv_ok;
                 C_close DebugWindow]
                  ++ Closing.rounds (repeat (RunSamples.cv_ok, RunSamples.au_ok) 15)
                  ++ [C_callback (Some "input overflow")])
               (Run.init guiver_sounddevice))) = true.
Proof.
  assert (Hno : forall rt, rtmixer ScriptSamples.desk = Some rt -> Api rt = None)
    by (intros rt H; discriminate).
  split; [exact Hno|]. split; [reflexivity|]. split; [reflexivity|].
  destruct (shutdown_stops_threads_before_closing
              guiver_main_py ScriptSamples.desk ScriptSamples.alice
              (mk_launch guiver_sounddevice 1 2 "") Hno eq_refl)
    as (_ & _ & Hrun).
  apply (Hrun ([C_video RunSamples.cv_ok; C_audio RunSamples.au_ok;
                C_video RunSamples.cv_ok; C_video RunSamples.cv_ok;
                C_close DebugWindow]
                 ++ Closing.rounds (repeat (RunSamples.cv_ok, RunSamples.au_ok) 15)
                 ++ [C_callback (Some "input overflow")])).
Defined.
(* ===================================================================== *)
(** * The pipeline: which scripts perform it *)
(* ===================================================================== *)

Module PipelineFacts.
Import Pipeline.




Lemma stages_report a app line : stages [(a, report app line)] = [].
Proof. destruct app; reflexivity. Qed.






















End PipelineFacts.



